(** * Deposit tracker server: ledger, monthly snapshots, roster, audit log, login

    A shallow embedding of the request handlers of the deposit tracker's HTTP
    server (the in-memory stores [chartData], [userData], [logs],
    [monthlyHistory], [currentMonth], [credentials] and [teamData], and the
    handlers that read and mutate them), followed by the properties of the
    ledger, the snapshot manager, the audit log, the roster and the login
    that the specification states, and by further properties of the request
    listener, the accounts, the event stream and the page that draws the
    charts ([public/script.js]).

    Conventions of the embedding.
    - A JavaScript string is the list of its UTF-16 code units ([list N]).
    - A JavaScript number is a binary64 float ([PrimFloat.float]).
    - An optional query parameter is an [option]; [None] is [undefined].
    - A handler returns an [outcome]: the response it wrote together with
      the stores afterwards, or the uncaught [TypeError] it raised.
    - What the runtime reads from the clock is passed in as a [clock]. *)

From Stdlib Require Import NArith ZArith Lia.
From Stdlib Require Import Floats.PrimFloat.
From stdpp Require Import base option list strings.

Local Open Scope N_scope.

(* ===================================================================== *)
(** ** JavaScript strings *)
(* ===================================================================== *)

Abbreviation jsstring := (list N).

(** A string literal of the source, as code units. *)
Definition js (s : string) : jsstring :=
  map (λ a, N.of_nat (Ascii.nat_of_ascii a)) (String.list_ascii_of_string s).

(** [!s] for a string: only the empty string is falsy. *)
Definition str_truthy (s : jsstring) : bool :=
  match s with [] => false | _ :: _ => true end.

(** Truthiness of an optional query parameter: [undefined] and [''] are falsy. *)
Definition truthy (p : option jsstring) : bool :=
  match p with Some s => str_truthy s | None => false end.

(** [p || dflt] on an optional string. *)
Definition or_default (p : option jsstring) (dflt : jsstring) : jsstring :=
  match p with
  | Some s => if str_truthy s then s else dflt
  | None => dflt
  end.

Definition in_range (lo hi c : N) : bool := (lo <=? c) && (c <=? hi).

(** The regular expression class [\s]. *)
Definition is_space (c : N) : bool :=
  in_range 9 13 c || (c =? 32) || (c =? 160) || (c =? 5760)
  || in_range 8192 8202 c || (c =? 8232) || (c =? 8233) || (c =? 8239)
  || (c =? 8287) || (c =? 12288) || (c =? 65279).

(** The regular expression class [\w] (no unicode flag): [A-Za-z0-9_]. *)
Definition is_word (c : N) : bool :=
  in_range 65 90 c || in_range 97 122 c || in_range 48 57 c || (c =? 95).

(** The class [[\u0300-\u036f]]: combining diacritical marks. *)
Definition is_combining_mark (c : N) : bool := in_range 768 879 c.

(** [s.replace(/[\u0300-\u036f]/g, '')] *)
Definition strip_marks (s : jsstring) : jsstring :=
  List.filter (λ c, negb (is_combining_mark c)) s.

(** [s.replace(/\s+/g, '')] *)
Definition strip_spaces (s : jsstring) : jsstring :=
  List.filter (λ c, negb (is_space c)) s.

(** [s.replace(/\s+/g, '_')]: every maximal run of white space becomes one
    underscore; [in_run] tells that the previous unit was white space. *)
Fixpoint spaces_to_underscore (in_run : bool) (s : jsstring) : jsstring :=
  match s with
  | [] => []
  | c :: s' =>
      if is_space c
      then (if in_run then spaces_to_underscore true s'
            else 95 :: spaces_to_underscore true s')
      else c :: spaces_to_underscore false s'
  end.

(** [s.replace(/[^\w]/g, '')] *)
Definition strip_non_word (s : jsstring) : jsstring := List.filter is_word s.

(** [s.replace(/h/g, '')] *)
Definition strip_h (s : jsstring) : jsstring :=
  List.filter (λ c, negb (c =? 104)) s.

(** [s.replace(/,/g, '')] *)
Definition strip_commas (s : jsstring) : jsstring :=
  List.filter (λ c, negb (c =? 44)) s.

(** [s.slice(0, n)] *)
Definition slice0 (n : nat) (s : jsstring) : jsstring := take n s.

(** The test of the route patterns [/^\/team\/[\w-]+$/] and
    [/^\/users\/[\w\-_]+$/] on the path segment after the prefix. *)
Definition route_id (id : jsstring) : bool :=
  str_truthy id && forallb (λ c, is_word c || (c =? 45)) id.

(** *** What the runtime's Unicode tables decide

    [String.prototype.normalize('NFD')] and [String.prototype.toLowerCase]
    are built into the runtime. They are taken as given, with what they do
    on ASCII text: NFD leaves it alone and lower-casing maps [A-Z] to
    [a-z]. *)

Definition is_ascii (c : N) : bool := c <? 128.

Definition ascii_lower (c : N) : N := if in_range 65 90 c then c + 32 else c.

Class Unicode := {
  normalizeNFD : jsstring → jsstring;
  toLowerCase : jsstring → jsstring;
  normalizeNFD_ascii s : forallb is_ascii s = true → normalizeNFD s = s;
  toLowerCase_ascii s : forallb is_ascii s = true → toLowerCase s = map ascii_lower s
}.

(** The two functions restricted to what is known of them: a runtime whose
    strings are ASCII. It serves to run the handlers on concrete requests. *)
Definition ascii_runtime : Unicode :=
  {| normalizeNFD := λ s, s;
     toLowerCase := map ascii_lower;
     normalizeNFD_ascii := λ s _, eq_refl;
     toLowerCase_ascii := λ s _, eq_refl |}.

(** [parseInt(s, 10)]: optional white space, an optional sign, then the
    longest run of decimal digits; [None] is [NaN]. *)
Definition digit (c : N) : option N :=
  if in_range 48 57 c then Some (c - 48) else None.

Fixpoint digits_prefix (acc : N) (s : jsstring) : N :=
  match s with
  | [] => acc
  | c :: s' =>
      match digit c with
      | Some d => digits_prefix (acc * 10 + d) s'
      | None => acc
      end
  end.

Definition starts_with_digit (s : jsstring) : bool :=
  match s with
  | c :: _ => match digit c with Some _ => true | None => false end
  | [] => false
  end.

Fixpoint skip_spaces (s : jsstring) : jsstring :=
  match s with
  | c :: s' => if is_space c then skip_spaces s' else s
  | [] => []
  end.

Definition parseInt10 (s : jsstring) : option Z :=
  let s := skip_spaces s in
  let '(neg, body) :=
    match s with
    | c :: r => if c =? 45 then (true, r) else if c =? 43 then (false, r) else (false, s)
    | [] => (false, s)
    end in
  if starts_with_digit body
  then let n := Z.of_N (digits_prefix 0 body) in Some (if neg then (- n)%Z else n)
  else None.

(* ===================================================================== *)
(** ** JavaScript numbers and JSON copies *)
(* ===================================================================== *)

(** An element of a [values] array: a number, or the [null] that
    [JSON.stringify] writes for a number that is not finite. *)
Inductive jsvalue :=
  | JNum (x : float)
  | JNull.

(** [isNaN(x)] on a number. *)
Definition isNaN (x : float) : bool := PrimFloat.is_nan x.

(** [JSON.parse(JSON.stringify(x))] on a number: [NaN] and the infinities
    are written as [null], negative zero is written as [0], and every other
    number is read back as it was. *)
Definition JSON_number (x : float) : jsvalue :=
  if PrimFloat.is_nan x || PrimFloat.is_infinity x then JNull
  else if PrimFloat.is_zero x then JNum 0%float
  else JNum x.

Definition JSON_value (v : jsvalue) : jsvalue :=
  match v with
  | JNum x => JSON_number x
  | JNull => JNull
  end.

(** [ToNumber]: what [sum + v] adds for an element of [values]. *)
Definition toNumber (v : jsvalue) : float :=
  match v with
  | JNum x => x
  | JNull => 0%float
  end.

(* ===================================================================== *)
(** ** Objects used as maps *)
(* ===================================================================== *)

(** The own properties of an object, in the order [Object.keys],
    [for ... in] and [JSON.stringify] visit them: the keys that are array
    indices first, in ascending order, then the other keys in the order they
    were created. [obj_set] keeps the list in that order. *)
Abbreviation obj A := (list (jsstring * A)).

Fixpoint all_digits (acc : N) (s : jsstring) : option N :=
  match s with
  | [] => Some acc
  | c :: s' =>
      match digit c with
      | Some d => all_digits (acc * 10 + d) s'
      | None => None
      end
  end.

(** A key is an array index when it is the canonical decimal form of an
    integer below [2^32 - 1]. *)
Definition array_index (k : jsstring) : option N :=
  match k with
  | [] => None
  | c :: rest =>
      if c =? 48 then (match rest with [] => Some 0 | _ :: _ => None end)
      else match all_digits 0 k with
           | Some n => if n <? 4294967295 then Some n else None
           | None => None
           end
  end.

Section Objects.
Context {A : Type}.

(** The own property [k], if any. *)
Fixpoint obj_get (k : jsstring) (o : obj A) : option A :=
  match o with
  | [] => None
  | (k', v) :: o' => if bool_decide (k' = k) then Some v else obj_get k o'
  end.

(** [delete o[k]] *)
Definition obj_delete (k : jsstring) (o : obj A) : obj A :=
  List.filter (λ p, negb (bool_decide (p.1 = k))) o.

(** Assignment to an existing own property: the key keeps its place. *)
Fixpoint obj_replace (k : jsstring) (v : A) (o : obj A) : obj A :=
  match o with
  | [] => []
  | (k', v') :: o' =>
      if bool_decide (k' = k) then (k, v) :: o' else (k', v') :: obj_replace k v o'
  end.

(** Creation of the array-index key [k] (of value [n]): after the smaller
    indices, before the larger ones and before every other key. *)
Fixpoint obj_insert_index (n : N) (k : jsstring) (v : A) (o : obj A) : obj A :=
  match o with
  | [] => [(k, v)]
  | (k', v') :: o' =>
      match array_index k' with
      | Some n' => if n <? n' then (k, v) :: o else (k', v') :: obj_insert_index n k v o'
      | None => (k, v) :: o
      end
  end.

(** [o[k] = v] for a key that is not [__proto__]. *)
Definition obj_set (k : jsstring) (v : A) (o : obj A) : obj A :=
  match obj_get k o with
  | Some _ => obj_replace k v o
  | None =>
      match array_index k with
      | Some n => obj_insert_index n k v o
      | None => o ++ [(k, v)]
      end
  end.

(** [Object.keys(o)] *)
Definition Object_keys (o : obj A) : list jsstring := o.*1.
End Objects.

(** The properties every object literal inherits from [Object.prototype];
    each of them reads as a truthy value that is no deposit series. *)
Definition Object_prototype_names : list jsstring :=
  [ js "constructor"; js "__defineGetter__"; js "__defineSetter__";
    js "hasOwnProperty"; js "__lookupGetter__"; js "__lookupSetter__";
    js "isPrototypeOf"; js "propertyIsEnumerable"; js "toString";
    js "valueOf"; js "__proto__"; js "toLocaleString" ].

(** What [o[k]] reads: an own property, a value found on the prototype
    chain, or [undefined]. *)
Inductive property (A : Type) :=
  | Own (a : A)
  | Inherited
  | Undefined.
Arguments Own {A} a.
Arguments Inherited {A}.
Arguments Undefined {A}.

(* ===================================================================== *)
(** ** The stores *)
(* ===================================================================== *)

(** An element of a contributor's [entries]: [{ time, value, totalIndex }]. *)
Module Entry.
Record t := mk { time : jsstring; value : jsvalue; totalIndex : Z }.
End Entry.

(** A value of [userData]: [{ labels, values, entries }]; [entries] is
    [None] when the object has no such property. *)
Module Series.
Record t := mk {
  labels : list jsstring;
  values : list jsvalue;
  entries : option (list Entry.t)
}.
End Series.

(** [chartData]: the aggregate series. *)
Module Chart.
Record t := mk { labels : list jsstring; values : list float }.
End Chart.

(** An element of [teamData]. *)
Module Member.
Record t := mk { id : jsstring; name : jsstring; description : jsstring }.
End Member.

(** An element of [credentials]. *)
Module Credential.
Record t := mk { name : jsstring; password : jsstring; isMaster : bool }.
End Credential.

(** An element of [monthlyHistory]. *)
Module Snapshot.
Record t := mk {
  month : jsstring;
  chart : Chart.t;
  users : obj Series.t;
  team : list Member.t
}.
End Snapshot.

(** An element of [logs]; [details] lists the object each call of [addLog]
    passes. Every one holds strings and numbers only, but for the one of
    [teamCreate]: [{ member }] holds the member object that [POST /team]
    has pushed to [teamData], not a copy. As long as that object is an
    element of [teamData], what [PUT /team/:id] assigns to it shows in the
    log entry too. [shared] records whether it still is: it is [true] from
    the creation until [DELETE /team/:id] removes the object from [teamData]
    or [POST /restore-month] replaces [teamData] by parsed copies. *)
Module Log.
Inductive details :=
  | Empty
  | Deposit (user : jsstring) (value : float) (time : jsstring)
  | TeamCreate (member : Member.t) (shared : bool)
  | TeamUpdate (id : jsstring) (name description : option jsstring)
  | TeamDelete (id name : jsstring)
  | EditEntryTime (user : jsstring) (index : Z) (oldTime newTime : jsstring)
  | UserDelete (id name : jsstring)
  | UserRename (oldName newName : jsstring)
  | ResetMonth (previousMonth newMonth : jsstring)
  | RestoreMonth (month : jsstring)
  | ChangePassword (admin : jsstring)
  | UploadHero (size : N).
Record t := mk {
  timestamp : jsstring;
  admin : jsstring;
  action : jsstring;
  detail : details
}.
End Log.

(** The module-level variables of the server. [userDataProto] records
    whether an assignment [userData['__proto__'] = {labels, values}] has
    replaced the prototype of [userData]; from then on [labels] and [values]
    are inherited property names too. The list of open event streams
    ([clients]) is left out: no handler reads it back into the stores. *)
Record state := mkState {
  chartData : Chart.t;
  userData : obj Series.t;
  userDataProto : bool;
  logs : list Log.t;
  monthlyHistory : list Snapshot.t;
  currentMonth : jsstring;
  credentials : list Credential.t;
  teamData : list Member.t
}.

Definition set_chartData (v : Chart.t) (st : state) : state :=
  mkState v (userData st) (userDataProto st) (logs st) (monthlyHistory st)
          (currentMonth st) (credentials st) (teamData st).
Definition set_userData (v : obj Series.t) (st : state) : state :=
  mkState (chartData st) v (userDataProto st) (logs st) (monthlyHistory st)
          (currentMonth st) (credentials st) (teamData st).
Definition set_userDataProto (v : bool) (st : state) : state :=
  mkState (chartData st) (userData st) v (logs st) (monthlyHistory st)
          (currentMonth st) (credentials st) (teamData st).
Definition set_logs (v : list Log.t) (st : state) : state :=
  mkState (chartData st) (userData st) (userDataProto st) v (monthlyHistory st)
          (currentMonth st) (credentials st) (teamData st).
Definition set_monthlyHistory (v : list Snapshot.t) (st : state) : state :=
  mkState (chartData st) (userData st) (userDataProto st) (logs st) v
          (currentMonth st) (credentials st) (teamData st).
Definition set_currentMonth (v : jsstring) (st : state) : state :=
  mkState (chartData st) (userData st) (userDataProto st) (logs st) (monthlyHistory st)
          v (credentials st) (teamData st).
Definition set_credentials (v : list Credential.t) (st : state) : state :=
  mkState (chartData st) (userData st) (userDataProto st) (logs st) (monthlyHistory st)
          (currentMonth st) v (teamData st).
Definition set_teamData (v : list Member.t) (st : state) : state :=
  mkState (chartData st) (userData st) (userDataProto st) (logs st) (monthlyHistory st)
          (currentMonth st) (credentials st) v.

(** What one request reads from the clock: the formatted local time of
    [now.toLocaleString('pt-BR', ...)], the [new Date().toISOString()] of
    the handler and the one of [addLog]. *)
Record clock := mkClock {
  localeString : jsstring;
  isoString : jsstring;
  logStamp : jsstring
}.

(** [userData[k]], through the prototype chain. *)
Definition userData_get (k : jsstring) (st : state) : property Series.t :=
  match obj_get k (userData st) with
  | Some s => Own s
  | None =>
      if bool_decide (k ∈ Object_prototype_names)
         || (userDataProto st && bool_decide (k ∈ [js "labels"; js "values"]))
      then Inherited
      else Undefined
  end.

(** [userData[k] = v]: the key [__proto__] reaches the setter of
    [Object.prototype] and replaces the prototype instead of creating an own
    property. *)
Definition userData_assign (k : jsstring) (v : Series.t) (st : state) : state :=
  if bool_decide (k = js "__proto__") then set_userDataProto true st
  else set_userData (obj_set k v (userData st)) st.

(** [JSON.parse(JSON.stringify(userData))]: strings and indices are read
    back as written, numbers as [JSON_value] says; a missing [entries] stays
    missing. *)
Definition JSON_entry (e : Entry.t) : Entry.t :=
  Entry.mk (Entry.time e) (JSON_value (Entry.value e)) (Entry.totalIndex e).

Definition JSON_series (s : Series.t) : Series.t :=
  Series.mk (Series.labels s) (map JSON_value (Series.values s))
            (map JSON_entry <$> Series.entries s).

Definition JSON_users (o : obj Series.t) : obj Series.t :=
  map (λ p, (p.1, JSON_series p.2)) o.

(** [JSON.parse(JSON.stringify(teamData))]: every field is a string. *)
Definition JSON_team (t : list Member.t) : list Member.t :=
  map (λ m, Member.mk (Member.id m) (Member.name m) (Member.description m)) t.

(* ===================================================================== *)
(** ** Responses *)
(* ===================================================================== *)

(** An element of the list [GET /participants] answers with. *)
Module Participant.
Record t := mk { id : jsstring; name : jsstring; count : nat; total : float }.
End Participant.

(** The JSON body of a response; [Message] stands for the bodies that carry
    only a message or an error text. *)
Inductive body :=
  | Message
  | Deposited (total : Chart.t) (users : obj Series.t)
  | TeamList (team : list Member.t)
  | OneMember (m : Member.t)
  | ParticipantList (l : list Participant.t)
  | EntryList (l : list (nat * jsstring * jsvalue))
  | Months (l : list jsstring)
  | MonthReset (previousMonth newMonth : jsstring)
  | MonthRestored (month : jsstring)
  | Renamed (oldName newName : jsstring)
  | User (name : jsstring) (isMaster : bool)
  | LogList (l : list Log.t).

(** A response with its status code, or the request falling through to
    [serveStaticFile]. *)
Inductive response :=
  | Response (status : N) (b : body)
  | StaticFile.

(** What handling a request ends in: a response and the stores afterwards,
    or an uncaught [TypeError] (reading a property of [undefined]), which
    ends the process. *)
Inductive outcome :=
  | Done (r : response) (st : state)
  | TypeError.

Definition status_of (o : outcome) : option N :=
  match o with
  | Done (Response status _) _ => Some status
  | _ => None
  end.

Definition state_of (o : outcome) : option state :=
  match o with
  | Done _ st => Some st
  | TypeError => None
  end.

(** The string of a query parameter that was tested truthy. *)
Definition param (p : option jsstring) : jsstring := default [] p.

(* ===================================================================== *)
(** ** Startup *)
(* ===================================================================== *)

Definition default_credentials : list Credential.t :=
  [ Credential.mk (js "Esther") (js "1705") true ].

(** [loadCredentials]: [file] is the array parsed from [credentials.json],
    [None] when the file is missing, unreadable or holds no array. *)
Definition loadCredentials (file : option (list Credential.t)) : list Credential.t :=
  match file with
  | Some parsed => parsed
  | None => default_credentials
  end.

Definition initial_team : list Member.t :=
  [ Member.mk (js "esther") (js "Esther")
      (js "L" ++ [237] ++ js "der principal respons" ++ [225]
       ++ js "vel pelas decis" ++ [245] ++ js "es estrat" ++ [233]
       ++ js "gicas e comunica" ++ [231; 227] ++ js "o oficial.");
    Member.mk (js "evelyn") (js "Evelyn")
      (js "Gestora financeira, cuida da organiza" ++ [231; 227]
       ++ js "o e do controle de valores.");
    Member.mk (js "lia") (js "Lia")
      (js "Assistente anal" ++ [237] ++ js "tica respons" ++ [225]
       ++ js "vel por an" ++ [225] ++ js "lises, gr" ++ [225]
       ++ js "ficos e resumos.") ].

(** The stores once the module has been loaded; [iso] is the
    [new Date().toISOString()] read for [currentMonth]. *)
Definition startup (file : option (list Credential.t)) (iso : jsstring) : state :=
  {| chartData := Chart.mk [] [];
     userData := [];
     userDataProto := false;
     logs := [];
     monthlyHistory := [];
     currentMonth := slice0 7 iso;
     credentials := loadCredentials file;
     teamData := initial_team |}.

(* ===================================================================== *)
(** ** Handlers *)
(* ===================================================================== *)

(** [addLog(adminName, action, details)] *)
Definition addLog (clk : clock) (adminName : option jsstring) (action : jsstring)
    (details : Log.details) (st : state) : state :=
  set_logs
    (logs st ++ [Log.mk (logStamp clk) (or_default adminName (js "unknown")) action details])
    st.

(** [{ labels: [...data.labels], values: [...data.values] }] *)
Definition copy_series (data : Series.t) : Series.t :=
  Series.mk (Series.labels data) (Series.values data) None.

Section Handlers.
Context `{Unicode}.

(** [name.normalize('NFD').replace(/\s+/g, '').toLowerCase()], the
    normal form [handleRegister], [handleLogin] and the change of password
    compare names in. *)
Definition normalized (name : jsstring) : jsstring :=
  toLowerCase (strip_spaces (normalizeNFD name)).

Definition handleRegister (clk : clock) (name password : option jsstring)
    (st : state) : outcome :=
  if negb (truthy name) || negb (truthy password)
  then Done (Response 400 Message) st
  else
    let name := param name in
    let password := param password in
    let norm := normalized name in
    if existsb (λ c, bool_decide (normalized (Credential.name c) = norm)) (credentials st)
    then Done (Response 409 Message) st
    else
      let newCred := Credential.mk name password false in
      Done (Response 201 (User name false))
           (addLog clk (Some name) (js "register") Log.Empty
              (set_credentials (credentials st ++ [newCred]) st)).

(** The test of the loop of [handleLogin] on one credential. *)
Definition login_match (name : jsstring) (c : Credential.t) : bool :=
  let norm := normalized name in
  let normalizedNoH := strip_h norm in
  let credNorm := normalized (Credential.name c) in
  let credNormNoH := strip_h credNorm in
  bool_decide (norm = credNorm) || bool_decide (normalizedNoH = credNormNoH).

Definition handleLogin (clk : clock) (name password : option jsstring)
    (st : state) : outcome :=
  if negb (truthy name) || negb (truthy password)
  then Done (Response 400 Message) st
  else
    let name := param name in
    let password := param password in
    match List.find (login_match name) (credentials st) with
    | Some userCred =>
        if bool_decide (Credential.password userCred = password)
        then Done (Response 200 (User (Credential.name userCred) (Credential.isMaster userCred)))
                  (addLog clk (Some name) (js "login") Log.Empty st)
        else Done (Response 401 Message) st
    | None => Done (Response 401 Message) st
    end.

Definition sanitizeName (name : jsstring) : jsstring :=
  toLowerCase
    (strip_non_word (spaces_to_underscore false (strip_marks (normalizeNFD name)))).

(** The series a deposit attributed to [k] is pushed on: the one
    [userData[k]] holds, or the [{ labels: [], values: [], entries: [] }]
    created when [userData[k]] is falsy; [None] when [userData[k]] reads a
    value inherited from the prototype, which has no [labels]. *)
Definition deposit_series (k : jsstring) (st : state) : option Series.t :=
  match userData_get k st with
  | Undefined => Some (Series.mk [] [] (Some []))
  | Own data => Some data
  | Inherited => None
  end.

(** [/add/:value]; [amount] is what [parseFloat] read in the last path
    segment, [userName] and [adminName] the [user] and [admin] parameters.
    The three [push] of the contributor's block raise a [TypeError] when the
    array they are called on is missing. *)
Definition add (clk : clock) (amount : float) (userName adminName : option jsstring)
    (st : state) : outcome :=
  if negb (isNaN amount) then
    let label := strip_commas (localeString clk) in
    let chart := Chart.mk (Chart.labels (chartData st) ++ [label])
                          (Chart.values (chartData st) ++ [amount]) in
    let totalIndex := (Z.of_nat (length (Chart.values chart)) - 1)%Z in
    let entry := Entry.mk label (JNum amount) totalIndex in
    let pushed : option (obj Series.t) :=
      if truthy userName then
        let k := param userName in
        match deposit_series k st with
        | Some data =>
            match Series.entries data with
            | Some es =>
                Some (obj_set k
                        (Series.mk (Series.labels data ++ [label])
                                   (Series.values data ++ [JNum amount])
                                   (Some (es ++ [entry])))
                        (userData st))
            | None => None
            end
        | None => None
        end
      else Some (userData st) in
    match pushed with
    | Some users =>
        Done (Response 200 (Deposited chart users))
             (addLog clk adminName (js "deposit")
                (Log.Deposit (or_default userName (js "total")) amount label)
                (set_userData users (set_chartData chart st)))
    | None => TypeError
    end
  else Done (Response 400 Message) st.

(** The id [POST /team] derives from a name. *)
Definition team_id (name : jsstring) : jsstring :=
  toLowerCase (strip_spaces (strip_marks (normalizeNFD name))).

(** What an assignment to the member object with the id [id] does to an
    entry of the log: the entry of [teamCreate] that shares the object shows
    the member as it is afterwards. *)
Definition log_write_member (id : jsstring) (m' : Member.t) (e : Log.t) : Log.t :=
  match Log.detail e with
  | Log.TeamCreate m true =>
      if bool_decide (Member.id m = id)
      then Log.mk (Log.timestamp e) (Log.admin e) (Log.action e) (Log.TeamCreate m' true)
      else e
  | _ => e
  end.

(** What removing from [teamData] the member objects that [gone] selects
    does to an entry of the log: the entry keeps the object, which no
    handler reaches any more. *)
Definition log_unshare (gone : Member.t → bool) (e : Log.t) : Log.t :=
  match Log.detail e with
  | Log.TeamCreate m true =>
      if gone m
      then Log.mk (Log.timestamp e) (Log.admin e) (Log.action e) (Log.TeamCreate m false)
      else e
  | _ => e
  end.

(** An entry of the log as [JSON.stringify] writes it: the member a
    [teamCreate] entry holds, not whether the object is shared. *)
Definition JSON_log (e : Log.t) : Log.t :=
  match Log.detail e with
  | Log.TeamCreate m _ =>
      Log.mk (Log.timestamp e) (Log.admin e) (Log.action e) (Log.TeamCreate m false)
  | _ => e
  end.

Definition team_get (st : state) : outcome :=
  Done (Response 200 (TeamList (teamData st))) st.

Definition team_post (clk : clock) (name description adminName : option jsstring)
    (st : state) : outcome :=
  if negb (truthy name) then Done (Response 400 Message) st
  else
    let name := param name in
    let id := team_id name in
    match list_find (λ m, Member.id m = id) (teamData st) with
    | Some _ => Done (Response 400 Message) st
    | None =>
        let member := Member.mk id name (or_default description []) in
        Done (Response 200 (OneMember member))
             (addLog clk adminName (js "teamCreate") (Log.TeamCreate member true)
                (set_teamData (teamData st ++ [member]) st))
    end.

Definition team_put (clk : clock) (id : jsstring) (name description adminName : option jsstring)
    (st : state) : outcome :=
  if route_id id then
    match list_find (λ m, Member.id m = id) (teamData st) with
    | None => Done (Response 404 Message) st
    | Some (idx, m) =>
        let m1 := if truthy name
                  then Member.mk (Member.id m) (param name) (Member.description m)
                  else m in
        let m2 := match description with
                  | Some d => Member.mk (Member.id m1) (Member.name m1) d
                  | None => m1
                  end in
        Done (Response 200 (OneMember m2))
             (addLog clk adminName (js "teamUpdate") (Log.TeamUpdate id name description)
                (set_logs (map (log_write_member id m2) (logs st))
                   (set_teamData (<[idx := m2]> (teamData st)) st)))
    end
  else Done (Response 405 Message) st.

Definition team_delete (clk : clock) (id : jsstring) (adminName : option jsstring)
    (st : state) : outcome :=
  if route_id id then
    match list_find (λ m, Member.id m = id) (teamData st) with
    | None => Done (Response 404 Message) st
    | Some (idx, removed) =>
        Done (Response 200 (OneMember removed))
             (addLog clk adminName (js "teamDelete")
                (Log.TeamDelete (Member.id removed) (Member.name removed))
                (set_logs
                   (map (log_unshare (λ m, bool_decide (Member.id m = id))) (logs st))
                   (set_teamData (delete idx (teamData st)) st)))
    end
  else Done (Response 405 Message) st.

(** [values.reduce((sum, v) => sum + v, 0)] *)
Definition sum_values (values : list jsvalue) : float :=
  fold_left (λ sum v, PrimFloat.add sum (toNumber v)) values 0%float.

(** [GET /participants]: one item per own key of [userData], in key order. *)
Definition participants (st : state) : list Participant.t :=
  map (λ p, let values := Series.values p.2 in
            Participant.mk (sanitizeName p.1) p.1 (length values) (sum_values values))
      (userData st).

Definition participants_get (st : state) : outcome :=
  Done (Response 200 (ParticipantList (participants st))) st.

Definition entries_get (userName : option jsstring) (st : state) : outcome :=
  if negb (truthy userName) then Done (Response 400 Message) st
  else
    match userData_get (param userName) st with
    | Own data =>
        match Series.entries data with
        | Some es =>
            Done (Response 200
                    (EntryList (imap (λ idx e, (idx, Entry.time e, Entry.value e)) es)))
                 st
        | None => Done (Response 404 Message) st
        end
    | Inherited | Undefined => Done (Response 404 Message) st
    end.

(** [PUT /entry?user=&index=&newTime=&admin=] *)
Definition entry_put (clk : clock) (userName index newTime adminName : option jsstring)
    (st : state) : outcome :=
  if negb (truthy userName) || negb (bool_decide (is_Some index)) || negb (truthy newTime)
  then Done (Response 400 Message) st
  else
    match parseInt10 (param index) with
    | None => Done (Response 400 Message) st
    | Some idx =>
        let k := param userName in
        let newTime := param newTime in
        match userData_get k st with
        | Own data =>
            match Series.entries data with
            | Some es =>
                if (idx <? 0)%Z || (Z.of_nat (length es) <=? idx)%Z
                then Done (Response 404 Message) st
                else
                  match es !! Z.to_nat idx with
                  | Some entry =>
                      let oldTime := Entry.time entry in
                      let es' := <[Z.to_nat idx :=
                                    Entry.mk newTime (Entry.value entry) (Entry.totalIndex entry)]> es in
                      let labels' :=
                        match Series.labels data !! Z.to_nat idx with
                        | Some l => if str_truthy l
                                    then <[Z.to_nat idx := newTime]> (Series.labels data)
                                    else Series.labels data
                        | None => Series.labels data
                        end in
                      let totalIndex := Entry.totalIndex entry in
                      let chart :=
                        if (0 <=? totalIndex)%Z
                           && (totalIndex <? Z.of_nat (length (Chart.labels (chartData st))))%Z
                        then Chart.mk (<[Z.to_nat totalIndex := newTime]> (Chart.labels (chartData st)))
                                      (Chart.values (chartData st))
                        else chartData st in
                      Done (Response 200 Message)
                           (addLog clk adminName (js "editEntryTime")
                              (Log.EditEntryTime k idx oldTime newTime)
                              (set_chartData chart
                                 (set_userData
                                    (obj_set k (Series.mk labels' (Series.values data) (Some es'))
                                       (userData st))
                                    st)))
                  | None => TypeError
                  end
            | None => Done (Response 404 Message) st
            end
        | Inherited | Undefined => Done (Response 404 Message) st
        end
    end.

(** [Object.keys(userData).find((name) => sanitizeName(name) === id)] *)
Definition find_key (id : jsstring) (st : state) : option jsstring :=
  List.find (λ name, bool_decide (sanitizeName name = id)) (Object_keys (userData st)).

(** [DELETE /users/:id] *)
Definition users_delete (clk : clock) (id : jsstring) (adminName : option jsstring)
    (st : state) : outcome :=
  if route_id id then
    match find_key id st with
    | Some key =>
        if str_truthy key
        then Done (Response 200 Message)
                  (addLog clk adminName (js "userDelete") (Log.UserDelete id key)
                     (set_userData (obj_delete key (userData st)) st))
        else Done (Response 404 Message) st
    | None => Done (Response 404 Message) st
    end
  else Done StaticFile st.

(** [PUT /users/:id?newName=] *)
Definition users_put (clk : clock) (id : jsstring) (newName adminName : option jsstring)
    (st : state) : outcome :=
  if route_id id then
    if negb (truthy newName) then Done (Response 400 Message) st
    else
      let newName := param newName in
      match find_key id st with
      | Some key =>
          if str_truthy key then
            match obj_get key (userData st) with
            | Some data =>
                Done (Response 200 (Renamed key newName))
                     (addLog clk adminName (js "userRename") (Log.UserRename key newName)
                        (userData_assign newName (copy_series data)
                           (set_userData (obj_delete key (userData st)) st)))
            | None => TypeError
            end
          else Done (Response 404 Message) st
      | None => Done (Response 404 Message) st
      end
  else Done StaticFile st.

(** [POST /reset-month] *)
Definition reset_month (clk : clock) (adminName : option jsstring) (st : state) : outcome :=
  let snapshot :=
    Snapshot.mk (currentMonth st)
                (Chart.mk (Chart.labels (chartData st)) (Chart.values (chartData st)))
                (JSON_users (userData st))
                (JSON_team (teamData st)) in
  let previousMonth := currentMonth st in
  let newMonth := slice0 7 (isoString clk) in
  Done (Response 200 (MonthReset previousMonth newMonth))
       (addLog clk adminName (js "resetMonth") (Log.ResetMonth previousMonth newMonth)
          (set_currentMonth newMonth
             (set_userData []
                (set_chartData (Chart.mk [] [])
                   (set_monthlyHistory (monthlyHistory st ++ [snapshot]) st))))).

(** The loop [for (const name in snapshot.users) userData[name] = {...}]. *)
Definition restore_users (users : obj Series.t) (st : state) : state :=
  fold_left (λ acc p, userData_assign p.1 (copy_series p.2) acc) users st.

(** [POST /restore-month?month=YYYY-MM] *)
Definition restore_month (clk : clock) (month adminName : option jsstring)
    (st : state) : outcome :=
  if negb (truthy month) then Done (Response 400 Message) st
  else
    let month := param month in
    match List.find (λ h, bool_decide (Snapshot.month h = month)) (monthlyHistory st) with
    | None => Done (Response 404 Message) st
    | Some snapshot =>
        let chart := Chart.mk (Chart.labels (Snapshot.chart snapshot))
                              (Chart.values (Snapshot.chart snapshot)) in
        Done (Response 200 (MonthRestored month))
             (addLog clk adminName (js "restoreMonth") (Log.RestoreMonth month)
                (set_logs (map (log_unshare (λ _, true)) (logs st))
                   (set_currentMonth (Snapshot.month snapshot)
                      (set_teamData (JSON_team (Snapshot.team snapshot))
                         (restore_users (Snapshot.users snapshot)
                            (set_userData [] (set_chartData chart st)))))))
    end.

(** [GET /history] *)
Definition history (st : state) : outcome :=
  Done (Response 200 (Months (map Snapshot.month (monthlyHistory st)))) st.

(** [PUT /change-password?admin=&newPassword=] *)
Definition change_password (clk : clock) (adminName newPassword : option jsstring)
    (st : state) : outcome :=
  if negb (truthy adminName) || negb (truthy newPassword)
  then Done (Response 400 Message) st
  else
    if negb (bool_decide (normalized (param adminName) = js "esther"))
    then Done (Response 403 Message) st
    else
      match list_find (λ c, toLowerCase (Credential.name c) = js "esther") (credentials st) with
      | None => Done (Response 500 Message) st
      | Some (credIndex, c) =>
          Done (Response 200 Message)
               (addLog clk adminName (js "changePassword")
                  (Log.ChangePassword (param adminName))
                  (set_credentials
                     (<[credIndex := Credential.mk (Credential.name c) (param newPassword)
                                                   (Credential.isMaster c)]> (credentials st))
                     st))
      end.

(** [GET /logs] *)
Definition logs_get (st : state) : outcome :=
  Done (Response 200 (LogList (map JSON_log (logs st)))) st.

(** [DELETE /logs] *)
Definition logs_delete (clk : clock) (adminName : option jsstring) (st : state) : outcome :=
  if negb (truthy adminName)
     || negb (bool_decide (toLowerCase (param adminName) = js "esther"))
  then Done (Response 403 Message) st
  else
    Done (Response 200 Message)
         (addLog clk adminName (js "clearLogs") Log.Empty (set_logs [] st)).

(** What became of the body of [POST /upload-hero]: [JSON.parse] or the
    reading of [parsed.data] raised; [fs.writeFile] called back with an
    error; or the image was written, [size] bytes of it. *)
Inductive upload :=
  | Written (size : N)
  | Unreadable
  | WriteFailed.

(** [POST /upload-hero]: an error is answered 400 when it is caught around
    the reading of the body, 500 when the write reports it; nothing is
    logged then. *)
Definition upload_hero (clk : clock) (adminName : option jsstring) (written : upload)
    (st : state) : outcome :=
  match written with
  | Written size =>
      Done (Response 200 Message)
           (addLog clk adminName (js "uploadHero") (Log.UploadHero size) st)
  | Unreadable => Done (Response 400 Message) st
  | WriteFailed => Done (Response 500 Message) st
  end.

(** A request, by the branch of the request listener that serves it, with
    the parameters that branch reads. *)
Inductive request :=
  | Add (amount : float) (user admin : option jsstring)
  | TeamGet
  | TeamPost (name description admin : option jsstring)
  | TeamPut (id : jsstring) (name description admin : option jsstring)
  | TeamDelete (id : jsstring) (admin : option jsstring)
  | ParticipantsGet
  | EntriesGet (user : option jsstring)
  | EntryPut (user index newTime admin : option jsstring)
  | UsersDelete (id : jsstring) (admin : option jsstring)
  | UsersPut (id : jsstring) (newName admin : option jsstring)
  | ResetMonth (admin : option jsstring)
  | RestoreMonth (month admin : option jsstring)
  | History
  | Register (name password : option jsstring)
  | Login (name password : option jsstring)
  | ChangePassword (admin newPassword : option jsstring)
  | LogsGet
  | LogsDelete (admin : option jsstring)
  | UploadHero (admin : option jsstring) (written : upload).

(** The request listener. *)
Definition handle (clk : clock) (req : request) (st : state) : outcome :=
  match req with
  | Add amount user admin => add clk amount user admin st
  | TeamGet => team_get st
  | TeamPost name description admin => team_post clk name description admin st
  | TeamPut id name description admin => team_put clk id name description admin st
  | TeamDelete id admin => team_delete clk id admin st
  | ParticipantsGet => participants_get st
  | EntriesGet user => entries_get user st
  | EntryPut user index newTime admin => entry_put clk user index newTime admin st
  | UsersDelete id admin => users_delete clk id admin st
  | UsersPut id newName admin => users_put clk id newName admin st
  | ResetMonth admin => reset_month clk admin st
  | RestoreMonth month admin => restore_month clk month admin st
  | History => history st
  | Register name password => handleRegister clk name password st
  | Login name password => handleLogin clk name password st
  | ChangePassword admin newPassword => change_password clk admin newPassword st
  | LogsGet => logs_get st
  | LogsDelete admin => logs_delete clk admin st
  | UploadHero admin written => upload_hero clk admin written st
  end.

(** A sequence of requests served one after the other; [None] when one of
    them raises. *)
Fixpoint run (reqs : list (clock * request)) (st : state) : option state :=
  match reqs with
  | [] => Some st
  | (clk, req) :: reqs' =>
      match handle clk req st with
      | Done _ st' => run reqs' st'
      | TypeError => None
      end
  end.

End Handlers.

(* ===================================================================== *)
(** ** Reachable states and the invariants of the stores *)
(* ===================================================================== *)

(** What the clock is taken to return: the formatted local time holds more
    than commas, and the ISO time is not empty. *)
Definition clock_ok (clk : clock) : Prop :=
  strip_commas (localeString clk) ≠ [] ∧ slice0 7 (isoString clk) ≠ [].

Section Reachability.
Context `{Unicode}.

(** The states the server goes through from [st0], one answered request
    after the other. *)
Inductive reachable_from (st0 : state) : state → Prop :=
  | reachable_here : reachable_from st0 st0
  | reachable_step st clk req r st' :
      reachable_from st0 st →
      clock_ok clk →
      handle clk req st = Done r st' →
      reachable_from st0 st'.

(** The states of a server started with any credentials file. *)
Definition reachable (st : state) : Prop :=
  ∃ file iso, slice0 7 iso ≠ [] ∧ reachable_from (startup file iso) st.

End Reachability.

(** [k] may stand before [k'] among the own keys of an object. *)
Definition key_before (k k' : jsstring) : Prop :=
  match array_index k, array_index k' with
  | Some n, Some n' => n ≤ n'
  | Some _, None => True
  | None, Some _ => False
  | None, None => True
  end.

(** Keys as an object holds them: no key twice, array indices first and in
    ascending order. *)
Inductive canonical_keys : list jsstring → Prop :=
  | canonical_nil : canonical_keys []
  | canonical_cons k ks :
      k ∉ ks → Forall (key_before k) ks → canonical_keys ks → canonical_keys (k :: ks).

(** A contributor whose [entries] exist has one entry per label, no empty
    label, and entries that point into an aggregate series of [n] labels. *)
Definition entries_aligned (n : nat) (s : Series.t) : Prop :=
  match Series.entries s with
  | Some es =>
      length es = length (Series.labels s)
      ∧ Forall (λ l, l ≠ []) (Series.labels s)
      ∧ Forall (λ e, (0 ≤ Entry.totalIndex e < Z.of_nat n)%Z) es
  | None => True
  end.

Definition key_ok (k : jsstring) : Prop := k ≠ [] ∧ k ≠ js "__proto__".

Definition series_aligned (s : Series.t) : Prop :=
  length (Series.labels s) = length (Series.values s).

Definition contributor_ok (n : nat) (p : jsstring * Series.t) : Prop :=
  key_ok p.1 ∧ series_aligned p.2 ∧ entries_aligned n p.2.

Definition snapshot_ok (h : Snapshot.t) : Prop :=
  Snapshot.month h ≠ []
  ∧ length (Chart.labels (Snapshot.chart h)) = length (Chart.values (Snapshot.chart h))
  ∧ canonical_keys (Snapshot.users h).*1
  ∧ Forall (λ p, key_ok p.1 ∧ series_aligned p.2) (Snapshot.users h)
  ∧ NoDup (Member.id <$> Snapshot.team h).

Record invariant (st : state) : Prop := {
  inv_chart : length (Chart.labels (chartData st)) = length (Chart.values (chartData st));
  inv_keys : canonical_keys (userData st).*1;
  inv_users : Forall (contributor_ok (length (Chart.labels (chartData st)))) (userData st);
  inv_team : NoDup (Member.id <$> teamData st);
  inv_month : currentMonth st ≠ [];
  inv_history : Forall snapshot_ok (monthlyHistory st)
}.

(** The length invariant of the data model: [labels.length == values.length]
    for the aggregate series and for every contributor. *)
Definition length_invariant (st : state) : Prop :=
  length (Chart.labels (chartData st)) = length (Chart.values (chartData st))
  ∧ Forall (λ p, series_aligned p.2) (userData st).

(** The names of the credentials flagged [isMaster], in order. *)
Definition master_names (creds : list Credential.t) : list jsstring :=
  (List.filter snd (map (λ c, (Credential.name c, Credential.isMaster c)) creds)).*1.

(** One call of [/add/:value]. *)
Record deposit := mkDeposit {
  dep_clock : clock;
  dep_amount : float;
  dep_user : option jsstring;
  dep_admin : option jsstring
}.

(** A sequence of calls of [/add/:value], each answered with status 200. *)
Fixpoint deposit_all (ds : list deposit) (st : state) : option state :=
  match ds with
  | [] => Some st
  | d :: ds' =>
      match add (dep_clock d) (dep_amount d) (dep_user d) (dep_admin d) st with
      | Done (Response status _) st' => if status =? 200 then deposit_all ds' st' else None
      | _ => None
      end
  end.

(** The request is a deposit attributed to the contributor [c]. *)
Definition deposit_for (c : jsstring) (req : request) : Prop :=
  match req with
  | Add _ (Some user) _ => user = c
  | _ => False
  end.

(** A number [JSON.stringify] and [JSON.parse] give back unchanged. *)
Definition JSON_stable (v : jsvalue) : Prop := JSON_value v = v.

(** The parameters of [PUT /entry] pass the checks that answer 400. *)
Definition entry_params_ok (userName index newTime : option jsstring) : bool :=
  truthy userName && bool_decide (is_Some index) && truthy newTime
  && bool_decide (is_Some (parseInt10 (param index))).

(** The contributor [c], if there is one, has no [entries]. *)
Definition no_entries (c : jsstring) (st : state) : Prop :=
  ∀ s, obj_get c (userData st) = Some s → Series.entries s = None.

(* ===================================================================== *)
(** ** Concrete runs *)
(* ===================================================================== *)

(** The runs below serve as examples; their strings are ASCII, so they are
    run with [ascii_runtime]. *)

Definition clock_jan : clock :=
  mkClock (js "27/01/2026, 12:30:00") (js "2026-01-27T12:30:00.000Z")
          (js "2026-01-27T12:30:00.001Z").

Definition iso_jan : jsstring := js "2026-01-27T12:00:00.000Z".

(** A server just started, without a credentials file. *)
Definition fresh : state := startup None iso_jan.

(** The stores after a list of requests ([st] itself if one of them raises). *)
Definition after (reqs : list (clock * request)) (st : state) : state :=
  default st (run (H := ascii_runtime) reqs st).

(** Two deposits, 50 and 30, attributed to Ana. *)
Definition ana_ledger : state :=
  after [ (clock_jan, Add 50 (Some (js "Ana")) None);
          (clock_jan, Add 30 (Some (js "Ana")) None) ] fresh.

(** The label [clock_jan] gives a deposit, and the series of Ana in
    [ana_ledger]. *)
Definition label_jan : jsstring := js "27/01/2026 12:30:00".

Definition ana_entries : list Entry.t :=
  [ Entry.mk label_jan (JNum 50) 0; Entry.mk label_jan (JNum 30) 1 ].

Definition ana_series : Series.t :=
  Series.mk [label_jan; label_jan] [JNum 50; JNum 30] (Some ana_entries).

(** One infinite deposit attributed to Bia ([/add/Infinity?user=Bia]). *)
Definition infinite_ledger : state :=
  after [ (clock_jan, Add infinity (Some (js "Bia")) None) ] fresh.

(** A deposit of 10, a reset, then a deposit of 20, all in January. *)
Definition second_period : state :=
  after [ (clock_jan, Add 10 None None);
          (clock_jan, ResetMonth None);
          (clock_jan, Add 20 None None) ] fresh.

(** Closing the period, then restoring the id the close answered with. *)
Definition close_restore (st : state) : state :=
  after [ (clock_jan, ResetMonth None);
          (clock_jan, RestoreMonth (Some (currentMonth st)) None) ] st.

(** Deposits for two contributors whose names differ by case only. *)
Definition two_anas : state :=
  after [ (clock_jan, Add 50 (Some (js "Ana")) None);
          (clock_jan, Add 30 (Some (js "ana")) None) ] fresh.

(** Deposits for Ana and for Bia. *)
Definition ana_and_bia : state :=
  after [ (clock_jan, Add 50 (Some (js "Ana")) None);
          (clock_jan, Add 30 (Some (js "Bia")) None) ] fresh.

(** A deposit for a contributor whose sanitized name is empty. *)
Definition punctuation_ledger : state :=
  after [ (clock_jan, Add 5 (Some (js "!?")) None) ] fresh.

(** A clock of the following month. *)
Definition clock_feb : clock :=
  mkClock (js "03/02/2026, 09:00:00") (js "2026-02-03T09:00:00.000Z")
          (js "2026-02-03T09:00:00.001Z").

(** A second account, Ester, registered next to the default Esther. *)
Definition with_ester : state :=
  after [ (clock_jan, Register (Some (js "Ester")) (Some (js "abc"))) ] fresh.

(** A server started with a credentials file whose master is Maria. *)
Definition maria_master : state :=
  startup (Some [Credential.mk (js "Maria") (js "segredo") true]) iso_jan.

(** [Rui] joins the roster, and is then renamed [Ruy]. *)
Definition rui_joined : state :=
  after [ (clock_jan, TeamPost (Some (js "Rui")) None None) ] fresh.

Definition rui_renamed : state :=
  after [ (clock_feb, TeamPut (js "rui") (Some (js "Ruy")) None None) ] rui_joined.

(** The stored credentials bear pairwise distinct names, once the names are
    normalized as [handleRegister] compares them. *)
Definition names_distinct `{Unicode} (creds : list Credential.t) : Prop :=
  NoDup ((λ c, normalized (Credential.name c)) <$> creds).

(** The first stored credential is the master account [Esther]. *)
Definition esther_first (creds : list Credential.t) : Prop :=
  ∃ password rest, creds = Credential.mk (js "Esther") password true :: rest.

(* ===================================================================== *)
(** ** The page that shows the charts ([public/script.js]) *)
(* ===================================================================== *)

(** The arrays the page receives are read from JSON: an element of
    [values] is a number or [null]. *)

(** The loop of [computeCumulative]: [sum] is the accumulator of [reduce],
    and each step pushes the new sum. *)
Fixpoint cumulative_from (sum : float) (arr : list jsvalue) : list float :=
  match arr with
  | [] => []
  | val :: arr' =>
      let newSum := PrimFloat.add sum (toNumber val) in
      newSum :: cumulative_from newSum arr'
  end.

(** [computeCumulative(arr)] *)
Definition computeCumulative (arr : list jsvalue) : list float :=
  0%float :: cumulative_from 0%float arr.

(** [updateChart(newLabels, newValues)]: the labels and the data given to
    the chart. *)
Definition updateChart (newLabels : list jsstring) (newValues : list jsvalue)
    : list jsstring * list float :=
  let cumulative := computeCumulative newValues in
  let extendedLabels :=
    match newLabels with
    | [] => []
    | first :: _ => first :: newLabels
    end in
  (extendedLabels, cumulative).

(** [sanitizeId(name)]: the id the page gives the canvas of a contributor. *)
Definition sanitizeId `{Unicode} (name : jsstring) : jsstring :=
  strip_non_word (spaces_to_underscore false (strip_marks (normalizeNFD name))).

(** The characters [a-z0-9_]. *)
Definition is_lower_word (c : N) : bool :=
  in_range 97 122 c || in_range 48 57 c || (c =? 95).

(** *** Entries as copies of the series

    [/add] writes each deposit three times: in the aggregate series, in the
    contributor's series, and in the contributor's [entries]. *)

(** The entry [e] stands at index [i] of the [entries] of contributor [k],
    whose series is [s]. *)
Definition entry_at (st : state) (k : jsstring) (s : Series.t) (i : nat) (e : Entry.t) : Prop :=
  obj_get k (userData st) = Some s
  ∧ ∃ es, Series.entries s = Some es ∧ es !! i = Some e.

(** The entry [e] at index [i] repeats the label and the value the series
    [s] has at [i], and those the aggregate series has at [e.totalIndex]. *)
Definition entry_mirrors (chart : Chart.t) (s : Series.t) (i : nat) (e : Entry.t) : Prop :=
  Series.labels s !! i = Some (Entry.time e)
  ∧ Series.values s !! i = Some (Entry.value e)
  ∧ Chart.labels chart !! Z.to_nat (Entry.totalIndex e) = Some (Entry.time e)
  ∧ JNum <$> Chart.values chart !! Z.to_nat (Entry.totalIndex e) = Some (Entry.value e).

(** Every entry mirrors the two series, and no two entries share a
    [totalIndex]. *)
Definition mirrored (st : state) : Prop :=
  (∀ k s i e, entry_at st k s i e → entry_mirrors (chartData st) s i e)
  ∧ (∀ k1 s1 i1 e1 k2 s2 i2 e2,
       entry_at st k1 s1 i1 e1 → entry_at st k2 s2 i2 e2 →
       Entry.totalIndex e1 = Entry.totalIndex e2 → k1 = k2 ∧ i1 = i2).

(* ===================================================================== *)
(** ** The event stream ([/events], [broadcastChartData]) *)
(* ===================================================================== *)

(** The object [broadcastChartData] and [/events] write as JSON text,
    as [JSON.parse] gives it to the page. *)
Module Payload.
Record t := mk {
  totalLabels : list jsstring;
  totalValues : list jsvalue;
  users : obj Series.t;
  team : list Member.t
}.
End Payload.

Definition payload (st : state) : Payload.t :=
  Payload.mk (Chart.labels (chartData st))
             (map JSON_number (Chart.values (chartData st)))
             (JSON_users (userData st))
             (JSON_team (teamData st)).

(** The stores together with [clients], the open responses of [/events]:
    each is the list of the messages written to it, oldest first. *)
Record server := mkServer {
  stores : state;
  clients : list (list Payload.t)
}.

(** [broadcastChartData()] *)
Definition broadcastChartData (sv : server) : server :=
  mkServer (stores sv)
           (map (λ written, written ++ [payload (stores sv)]) (clients sv)).

(** The handlers that call [broadcastChartData]: each does so once, after
    its writes and its [addLog], on the path that answers 200. *)
Definition broadcasts (req : request) : bool :=
  match req with
  | Add _ _ _ | TeamPost _ _ _ | TeamPut _ _ _ _ | TeamDelete _ _
  | EntryPut _ _ _ _ | UsersDelete _ _ | UsersPut _ _ _
  | ResetMonth _ | RestoreMonth _ _ => true
  | _ => false
  end.

Definition answered_200 (r : response) : bool :=
  match r with
  | Response status _ => status =? 200
  | StaticFile => false
  end.

(** What the server reacts to: a request of the API, a page opening
    [/events], and the ['close'] of the [i]-th open stream. *)
Inductive event :=
  | Request (clk : clock) (req : request)
  | Events
  | Close (i : nat).

Section EventStream.
Context `{Unicode}.

Definition serve (ev : event) (sv : server) : option server :=
  match ev with
  | Request clk req =>
      match handle clk req (stores sv) with
      | Done r st' =>
          let sv' := mkServer st' (clients sv) in
          Some (if broadcasts req && answered_200 r then broadcastChartData sv' else sv')
      | TypeError => None
      end
  | Events =>
      Some (mkServer (stores sv) (clients sv ++ [[payload (stores sv)]]))
  | Close i =>
      Some (mkServer (stores sv) (delete i (clients sv)))
  end.

Fixpoint serve_all (evs : list event) (sv : server) : option server :=
  match evs with
  | [] => Some sv
  | ev :: evs' =>
      match serve ev sv with
      | Some sv' => serve_all evs' sv'
      | None => None
      end
  end.

End EventStream.

(** [eventSource.onmessage], up to the call of [updateChart]: the labels and
    the data the main chart is given, [None] when reading [labels] of an
    inherited property makes [computeCumulative] raise (the handler catches
    it and the chart stays as it was). [currentUser] is the [user] parameter
    of the page. *)
Definition onmessage_chart (currentUser : option jsstring) (data : Payload.t)
    : option (list jsstring * list float) :=
  if truthy currentUser then
    match obj_get (param currentUser) (Payload.users data) with
    | Some s => Some (updateChart (Series.labels s) (Series.values s))
    | None =>
        if bool_decide (param currentUser ∈ Object_prototype_names) then None
        else Some (updateChart (Payload.totalLabels data) (Payload.totalValues data))
    end
  else Some (updateChart (Payload.totalLabels data) (Payload.totalValues data)).

(** [data.totalValues.reduce((sum, val) => sum + val, 0)], the amount
    [onmessage] passes to [updateTotalAmount]. *)
Definition totalSum (data : Payload.t) : float :=
  sum_values (Payload.totalValues data).

(* ===================================================================== *)
(** * Properties *)
(* ===================================================================== *)

(** ** Own properties: lookup after assignment and deletion *)

Section ObjectFacts.
Context {A : Type}.
Implicit Types (o : obj A) (k : jsstring) (v : A).

Lemma obj_get_elem_of k v o : obj_get k o = Some v → (k, v) ∈ o.
Proof.
  induction o as [|[k' v'] o IH]; simpl; [done|].
  case_bool_decide as Hk.
  - intros [= ->]. subst. left.
  - intros. right. auto.
Qed.

Lemma obj_get_None k o : obj_get k o = None ↔ k ∉ o.*1.
Proof.
  induction o as [|[k' v'] o IH]; csimpl.
  - split; [intros _; apply not_elem_of_nil | done].
  - case_bool_decide as Hk.
    + subst k'. split; [done | intros Hn; exfalso; apply Hn; left].
    + rewrite IH, not_elem_of_cons. intuition congruence.
Qed.

Lemma obj_get_Some_key k v o : obj_get k o = Some v → k ∈ o.*1.
Proof.
  intros Hg. destruct (decide (k ∈ o.*1)) as [|Hn]; [done|].
  apply obj_get_None in Hn. congruence.
Qed.

Lemma obj_replace_keys k v o : (obj_replace k v o).*1 = o.*1.
Proof.
  induction o as [|[k' v'] o IH]; csimpl; [done|].
  case_bool_decide; csimpl; [by subst k' | by rewrite IH].
Qed.

Lemma obj_get_replace k k' v o :
  obj_get k' (obj_replace k v o)
  = if bool_decide (k = k') then (λ _, v) <$> obj_get k o else obj_get k' o.
Proof.
  induction o as [|[k0 v0] o IH]; simpl.
  - by case_bool_decide.
  - destruct (decide (k0 = k)) as [Heq|Hne].
    + rewrite !(bool_decide_eq_true_2 (k0 = k)) by done. simpl. subst k0.
      by case_bool_decide.
    + rewrite !(bool_decide_eq_false_2 (k0 = k)) by done. simpl.
      rewrite IH. repeat case_bool_decide; congruence.
Qed.

Lemma obj_get_insert_index n k k' v o :
  obj_get k o = None →
  obj_get k' (obj_insert_index n k v o)
  = if bool_decide (k = k') then Some v else obj_get k' o.
Proof.
  induction o as [|[k0 v0] o IH]; simpl; [done|].
  destruct (decide (k0 = k)) as [Hk0|Hk0].
  { rewrite (bool_decide_eq_true_2 (k0 = k)) by done. discriminate. }
  rewrite (bool_decide_eq_false_2 (k0 = k)) by done. intros Hnone.
  destruct (array_index k0) as [n'|]; [destruct (n <? n')|]; simpl; try done.
  rewrite IH by done. repeat case_bool_decide; congruence.
Qed.

Lemma obj_get_app k o1 o2 :
  obj_get k (o1 ++ o2) = match obj_get k o1 with Some v => Some v | None => obj_get k o2 end.
Proof.
  induction o1 as [|[k0 v0] o1 IH]; simpl; [done|]. by case_bool_decide.
Qed.

Lemma obj_get_set k k' v o :
  obj_get k' (obj_set k v o) = if bool_decide (k = k') then Some v else obj_get k' o.
Proof.
  unfold obj_set. destruct (obj_get k o) as [v0|] eqn:Hg.
  - rewrite obj_get_replace, Hg. by case_bool_decide.
  - destruct (array_index k) as [n|].
    + by apply obj_get_insert_index.
    + rewrite obj_get_app. simpl. case_bool_decide; subst.
      * by rewrite Hg.
      * by destruct (obj_get k' o).
Qed.

Lemma obj_get_set_eq k v o : obj_get k (obj_set k v o) = Some v.
Proof. rewrite obj_get_set. by rewrite bool_decide_eq_true_2. Qed.

Lemma obj_get_set_ne k k' v o : k ≠ k' → obj_get k' (obj_set k v o) = obj_get k' o.
Proof. intros. rewrite obj_get_set. by rewrite bool_decide_eq_false_2. Qed.

Lemma obj_get_delete k k' o :
  obj_get k' (obj_delete k o) = if bool_decide (k = k') then None else obj_get k' o.
Proof.
  unfold obj_delete. induction o as [|[k0 v0] o IH]; simpl.
  - by case_bool_decide.
  - destruct (decide (k0 = k)) as [Heq|Hne].
    + rewrite !(bool_decide_eq_true_2 (k0 = k)) by done. simpl. rewrite IH. subst k0.
      by case_bool_decide.
    + rewrite !(bool_decide_eq_false_2 (k0 = k)) by done. simpl. rewrite IH.
      repeat case_bool_decide; congruence.
Qed.

Lemma obj_delete_keys k o : (obj_delete k o).*1 = List.filter (λ k', negb (bool_decide (k' = k))) o.*1.
Proof.
  induction o as [|[k0 v0] o IH]; csimpl; [done|].
  unfold obj_delete in *. csimpl. destruct (negb _); csimpl; by rewrite IH.
Qed.

End ObjectFacts.

(** ** Assignment and deletion keep what holds of every own property *)

Section ObjectForall.
Context {A : Type}.
Implicit Types (o : obj A) (k : jsstring) (v : A) (P : jsstring * A → Prop).

Lemma Forall_obj_delete P k o : Forall P o → Forall P (obj_delete k o).
Proof.
  unfold obj_delete. induction 1 as [|p o Hp Ho IH]; simpl; [constructor|].
  destruct (negb _); [by constructor | done].
Qed.

Lemma Forall_obj_replace P k v o : Forall P o → P (k, v) → Forall P (obj_replace k v o).
Proof.
  intros Ho Hkv. induction Ho as [|[k' v'] o Hp Ho IH]; simpl; [constructor|].
  case_bool_decide; by constructor.
Qed.

Lemma Forall_obj_insert_index P n k v o :
  Forall P o → P (k, v) → Forall P (obj_insert_index n k v o).
Proof.
  intros Ho Hkv. induction Ho as [|[k' v'] o Hp Ho IH]; simpl; [by repeat constructor|].
  destruct (array_index k') as [n'|]; [destruct (n <? n')|]; by repeat constructor.
Qed.

Lemma Forall_obj_set P k v o : Forall P o → P (k, v) → Forall P (obj_set k v o).
Proof.
  intros Ho Hkv. unfold obj_set. destruct (obj_get k o).
  - by apply Forall_obj_replace.
  - destruct (array_index k).
    + by apply Forall_obj_insert_index.
    + apply Forall_app. split; [done | by repeat constructor].
Qed.

Lemma obj_insert_index_keys n k v o : (obj_insert_index n k v o).*1 ≡ₚ k :: o.*1.
Proof.
  induction o as [|[k' v'] o IH]; csimpl; [done|].
  destruct (array_index k') as [n'|]; [destruct (n <? n')|]; csimpl; try done.
  rewrite IH. apply Permutation_swap.
Qed.

(** The order of own keys is kept by every assignment and deletion. *)
Lemma key_before_index k k' r n n' :
  array_index k = Some n → array_index k' = Some n' → n ≤ n' →
  key_before k' r → key_before k r.
Proof.
  unfold key_before. intros -> -> Hle. destruct (array_index r); [lia | done].
Qed.

Lemma key_before_after_string k k' r :
  array_index k' = None → key_before k' r → key_before k r.
Proof.
  unfold key_before. intros ->. destruct (array_index r); [done|].
  by destruct (array_index k).
Qed.

Lemma canonical_obj_insert_index n k v o :
  array_index k = Some n → k ∉ o.*1 →
  canonical_keys o.*1 → canonical_keys (obj_insert_index n k v o).*1.
Proof.
  intros Hn. induction o as [|[k' v'] o IH]; csimpl; intros Hk Hc.
  { constructor; [apply not_elem_of_nil | constructor | constructor]. }
  inversion Hc as [|? ? Hk' Hall Hc']; subst.
  apply not_elem_of_cons in Hk as [Hne Hk].
  destruct (array_index k') as [n'|] eqn:Hn'.
  - destruct (n <? n') eqn:Hlt; csimpl.
    + apply N.ltb_lt in Hlt. constructor; [| |done].
      * rewrite not_elem_of_cons. done.
      * constructor.
        -- unfold key_before. rewrite Hn, Hn'. lia.
        -- eapply Forall_impl; [exact Hall|]. intros r Hr.
           eapply key_before_index; [exact Hn | exact Hn' | lia | done].
    + apply N.ltb_ge in Hlt. constructor.
      * rewrite obj_insert_index_keys, not_elem_of_cons. split; [congruence | done].
      * rewrite obj_insert_index_keys. constructor; [|done].
        unfold key_before. by rewrite Hn, Hn'.
      * by apply IH.
  - csimpl. constructor; [| |done].
    + rewrite not_elem_of_cons. done.
    + constructor.
      * unfold key_before. by rewrite Hn, Hn'.
      * eapply Forall_impl; [exact Hall|]. intros r Hr.
        by eapply key_before_after_string.
Qed.

Lemma canonical_keys_snoc ks k :
  array_index k = None → k ∉ ks → canonical_keys ks → canonical_keys (ks ++ [k]).
Proof.
  intros Hn Hk Hc. induction Hc as [|k' ks Hk' Hall Hc IH]; simpl.
  { constructor; [apply not_elem_of_nil | constructor | constructor]. }
  apply not_elem_of_cons in Hk as [Hne Hk].
  constructor.
  - rewrite elem_of_app, list_elem_of_singleton. intros [?|?]; [done | congruence].
  - apply Forall_app. split; [done|]. constructor; [|constructor].
    unfold key_before. rewrite Hn. by destruct (array_index k').
  - by apply IH.
Qed.

Lemma canonical_obj_set k v o : canonical_keys o.*1 → canonical_keys (obj_set k v o).*1.
Proof.
  intros Hc. unfold obj_set. destruct (obj_get k o) eqn:Hg.
  - by rewrite obj_replace_keys.
  - apply obj_get_None in Hg. destruct (array_index k) eqn:Hn.
    + by apply canonical_obj_insert_index.
    + rewrite fmap_app. by apply canonical_keys_snoc.
Qed.

Lemma canonical_keys_filter (f : jsstring → bool) ks :
  canonical_keys ks → canonical_keys (List.filter f ks).
Proof.
  induction 1 as [|k ks Hk Hall Hc IH]; simpl; [constructor|].
  destruct (f k); [|done]. constructor; [| |done].
  - intros Hin. apply Hk. apply list_elem_of_In in Hin. apply list_elem_of_In.
    apply filter_In in Hin. tauto.
  - clear -Hall. induction Hall as [|r ks Hr Hall IH]; simpl; [constructor|].
    destruct (f r); [by constructor | done].
Qed.

Lemma canonical_obj_delete k o : canonical_keys o.*1 → canonical_keys (obj_delete k o).*1.
Proof. intros Hc. rewrite obj_delete_keys. by apply canonical_keys_filter. Qed.

(** Assigning the properties of a well-ordered object one after the other
    to a fresh object builds the same list of properties. *)
Lemma canonical_keys_app_inv ks1 k ks2 :
  canonical_keys (ks1 ++ k :: ks2) → (k ∉ ks1) ∧ Forall (λ k', key_before k' k) ks1.
Proof.
  induction ks1 as [|k1 ks1 IH]; simpl; intros Hc.
  { split; [apply not_elem_of_nil | constructor]. }
  inversion Hc as [|? ? Hk1 Hall Hc']; subst.
  destruct (IH Hc') as [Hk Hb]. split.
  - rewrite not_elem_of_cons. split; [|done].
    intros ->. apply Hk1. rewrite elem_of_app. right. left.
  - constructor; [|done]. rewrite Forall_app, Forall_cons in Hall. tauto.
Qed.

Lemma obj_insert_index_last n k v o :
  array_index k = Some n → Forall (λ p, key_before p.1 k) o →
  obj_insert_index n k v o = o ++ [(k, v)].
Proof.
  intros Hn. induction 1 as [|[k' v'] o Hb Ho IH]; simpl; [done|].
  unfold key_before in Hb. simpl in Hb. rewrite Hn in Hb.
  destruct (array_index k') as [n'|]; [|done].
  apply N.ltb_ge in Hb. rewrite Hb. by rewrite IH.
Qed.

Lemma obj_set_last k v o :
  k ∉ o.*1 → Forall (λ p, key_before p.1 k) o → obj_set k v o = o ++ [(k, v)].
Proof.
  intros Hk Hb. unfold obj_set. apply obj_get_None in Hk. rewrite Hk.
  destruct (array_index k) eqn:Hn; [|done]. by apply obj_insert_index_last.
Qed.

End ObjectForall.

(** ** The invariants hold in every reachable state *)

Lemma invariant_same st st' :
  chartData st' = chartData st → userData st' = userData st →
  teamData st' = teamData st → currentMonth st' = currentMonth st →
  monthlyHistory st' = monthlyHistory st →
  invariant st → invariant st'.
Proof.
  intros E1 E2 E3 E4 E5 [I1 I2 I3 I4 I5 I6].
  split; rewrite ?E1, ?E2, ?E3, ?E4, ?E5; done.
Qed.

Lemma str_truthy_ne s : str_truthy s = true ↔ s ≠ [].
Proof. destruct s; simpl; split; congruence. Qed.

Lemma truthy_param p : truthy p = true → p = Some (param p) ∧ param p ≠ [].
Proof.
  destruct p as [s|]; simpl; [|discriminate].
  intros Hs. split; [done | by apply str_truthy_ne].
Qed.

Lemma userData_get_Own k st s : userData_get k st = Own s ↔ obj_get k (userData st) = Some s.
Proof.
  unfold userData_get. destruct (obj_get k (userData st)).
  - split; congruence.
  - split; [|discriminate]. by destruct (_ || _).
Qed.

Lemma userData_get_Undefined k st :
  userData_get k st = Undefined → obj_get k (userData st) = None ∧ k ≠ js "__proto__".
Proof.
  unfold userData_get. destruct (obj_get k (userData st)); [discriminate|].
  destruct (decide (k = js "__proto__")) as [->|Hne]; [|by destruct (_ || _)].
  replace (bool_decide (js "__proto__" ∈ Object_prototype_names)) with true
    by (by vm_compute).
  discriminate.
Qed.

Lemma entries_aligned_mono (n m : nat) s :
  (n ≤ m)%nat → entries_aligned n s → entries_aligned m s.
Proof.
  unfold entries_aligned. destruct (Series.entries s) as [es|]; [|done].
  intros Hle (Hlen & Hlab & Hidx). repeat split; try done.
  eapply Forall_impl; [exact Hidx|]. simpl. intros e He. lia.
Qed.

Lemma contributor_ok_mono (n m : nat) p :
  (n ≤ m)%nat → contributor_ok n p → contributor_ok m p.
Proof.
  intros Hle (Hk & Hs & He). repeat split; try done; try apply Hk.
  by eapply entries_aligned_mono.
Qed.

Lemma JSON_users_keys o : (JSON_users o).*1 = o.*1.
Proof. unfold JSON_users. induction o as [|[k s] o IH]; csimpl; [done | by rewrite IH]. Qed.

Lemma JSON_team_ids t : Member.id <$> JSON_team t = Member.id <$> t.
Proof. unfold JSON_team. induction t as [|m t IH]; csimpl; [done | by rewrite IH]. Qed.

Lemma JSON_team_id t : JSON_team t = t.
Proof. unfold JSON_team. induction t as [|[i n d] t IH]; csimpl; [done | by rewrite IH]. Qed.

(** The loop of the restore, on the properties of a snapshot. *)
Lemma restore_users_canonical users st :
  canonical_keys ((userData st).*1 ++ users.*1) →
  Forall (λ p, p.1 ≠ js "__proto__") users →
  restore_users users st
  = set_userData (userData st ++ map (λ p, (p.1, copy_series p.2)) users) st.
Proof.
  unfold restore_users. revert st.
  induction users as [|[k s] users IH]; intros st Hc Hp; simpl.
  { rewrite app_nil_r. by destruct st. }
  inversion Hp as [|? ? Hk Hp']; subst. simpl in Hk.
  unfold userData_assign at 2. rewrite bool_decide_eq_false_2 by done.
  csimpl in Hc. destruct (canonical_keys_app_inv _ _ _ Hc) as [Hnin Hbefore].
  rewrite (obj_set_last k (copy_series s) (userData st)).
  - rewrite IH; simpl.
    + by rewrite <- app_assoc.
    + by rewrite fmap_app, <- app_assoc.
    + done.
  - done.
  - apply Forall_fmap in Hbefore. exact Hbefore.
Qed.

Lemma startup_invariant file iso : slice0 7 iso ≠ [] → invariant (startup file iso).
Proof.
  intros Hiso. split; simpl; [done | constructor | constructor | | done | constructor].
  apply (bool_decide_unpack _). by vm_compute.
Qed.

Section Invariants.
Context `{Unicode}.

Lemma add_invariant clk amount userName adminName st r st' :
  clock_ok clk → invariant st →
  add clk amount userName adminName st = Done r st' → invariant st'.
Proof.
  intros [Hlabel _] Hinv. unfold add.
  destruct (isNaN amount); simpl; [by intros [= <- <-]|].
  set (label := strip_commas (localeString clk)) in *.
  destruct Hinv as [I1 I2 I3 I4 I5 I6].
  assert (Hgrow : Forall (contributor_ok (length (Chart.labels (chartData st) ++ [label])))
                    (userData st)).
  { eapply Forall_impl; [exact I3|]. intros p Hp.
    eapply contributor_ok_mono; [|exact Hp]. rewrite length_app. lia. }
  assert (Hlen : length (Chart.labels (chartData st) ++ [label])
                 = length (Chart.values (chartData st) ++ [amount])).
  { rewrite !length_app. simpl. lia. }
  assert (Hidx : (0 ≤ Z.of_nat (length (Chart.values (chartData st) ++ [amount])) - 1
                  < Z.of_nat (length (Chart.labels (chartData st) ++ [label])))%Z).
  { rewrite !length_app. simpl. lia. }
  destruct (truthy userName) eqn:Hu; [|intros [= <- <-]; split; simpl; done].
  apply truthy_param in Hu as [_ Hk].
  destruct (deposit_series (param userName) st) as [data|] eqn:Hdata; [|discriminate].
  destruct (Series.entries data) as [es|] eqn:Hes; [|discriminate].
  intros [= <- <-].
  assert (Hok : contributor_ok (length (Chart.labels (chartData st))) (param userName, data)).
  { unfold deposit_series in Hdata.
    destruct (userData_get (param userName) st) as [d| |] eqn:Hget; [|discriminate|].
    - injection Hdata as ->. apply userData_get_Own, obj_get_elem_of in Hget.
      rewrite Forall_forall in I3. by apply I3.
    - injection Hdata as <-. apply userData_get_Undefined in Hget as [_ Hproto].
      repeat split; simpl; try done; constructor. }
  destruct Hok as (Hkey & Hal & Hent).
  unfold entries_aligned in Hent. simpl in Hkey, Hal, Hent. rewrite Hes in Hent.
  destruct Hent as (He1 & He2 & He3).
  split; simpl; try done.
  - by apply canonical_obj_set.
  - apply Forall_obj_set; [done|].
    repeat split; simpl; try apply Hkey.
    + unfold series_aligned in *. simpl. rewrite !length_app. simpl. lia.
    + rewrite !length_app. simpl. lia.
    + apply Forall_app. split; [done | by repeat constructor].
    + apply Forall_app. split.
      * eapply Forall_impl; [exact He3|]. simpl. intros e He.
        rewrite length_app. simpl. lia.
      * repeat constructor; simpl; lia.
Qed.

Lemma team_post_invariant clk name description adminName st r st' :
  invariant st → team_post clk name description adminName st = Done r st' → invariant st'.
Proof.
  intros Hinv. unfold team_post.
  destruct (truthy name); simpl; [|by intros [= <- <-]].
  destruct (list_find _ _) as [[idx m]|] eqn:Hfind; [by intros [= <- <-]|].
  intros [= <- <-]. destruct Hinv as [I1 I2 I3 I4 I5 I6]. split; simpl; try done.
  rewrite fmap_app. apply NoDup_app. split; [done|]. split.
  - intros x Hx. apply list_find_None in Hfind. csimpl.
    rewrite list_elem_of_singleton. intros ->.
    apply list_elem_of_fmap in Hx as (m & Hm & Hin).
    rewrite Forall_forall in Hfind. by apply (Hfind m Hin).
  - apply NoDup_singleton.
Qed.

Lemma team_put_ids clk id name description adminName st r st' :
  team_put clk id name description adminName st = Done r st' →
  Member.id <$> teamData st' = Member.id <$> teamData st.
Proof.
  unfold team_put. destruct (route_id id); [|by intros [= <- <-]].
  destruct (list_find _ _) as [[idx m]|] eqn:Hfind; [|by intros [= <- <-]].
  intros [= <- <-]. simpl. apply list_find_Some in Hfind as (Hidx & Hid & _).
  rewrite list_fmap_insert. apply list_insert_id.
  rewrite list_lookup_fmap, Hidx. simpl.
  by destruct (truthy name), description.
Qed.

Lemma team_put_invariant clk id name description adminName st r st' :
  invariant st → team_put clk id name description adminName st = Done r st' → invariant st'.
Proof.
  intros [I1 I2 I3 I4 I5 I6] Hput. pose proof (team_put_ids _ _ _ _ _ _ _ _ Hput) as Hids.
  unfold team_put in Hput. destruct (route_id id); [|by injection Hput as <- <-].
  destruct (list_find _ _) as [[idx m]|]; [|by injection Hput as <- <-].
  injection Hput as <- <-. split; try done. by rewrite Hids.
Qed.

Lemma team_delete_invariant clk id adminName st r st' :
  invariant st → team_delete clk id adminName st = Done r st' → invariant st'.
Proof.
  intros [I1 I2 I3 I4 I5 I6]. unfold team_delete.
  destruct (route_id id); [|by intros [= <- <-]].
  destruct (list_find _ _) as [[idx m]|]; [|by intros [= <- <-]].
  intros [= <- <-]. split; simpl; try done.
  rewrite list_fmap_delete. exact (sublist_NoDup _ _ I4 (sublist_delete _ _)).
Qed.

Lemma entry_put_invariant clk userName index newTime adminName st r st' :
  invariant st →
  entry_put clk userName index newTime adminName st = Done r st' → invariant st'.
Proof.
  intros Hinv. unfold entry_put.
  destruct (truthy userName) eqn:Hu; simpl; [|by intros [= <- <-]].
  destruct (bool_decide (is_Some index)); simpl; [|by intros [= <- <-]].
  destruct (truthy newTime) eqn:Ht; simpl; [|by intros [= <- <-]].
  apply truthy_param in Ht as [_ Ht].
  destruct (parseInt10 (param index)) as [idx|]; [|by intros [= <- <-]].
  destruct (userData_get (param userName) st) as [data| |] eqn:Hget;
    [|by intros [= <- <-]|by intros [= <- <-]].
  destruct (Series.entries data) as [es|] eqn:Hes; [|by intros [= <- <-]].
  destruct (_ || _); [by intros [= <- <-]|].
  destruct (es !! Z.to_nat idx) as [entry|] eqn:Hentry; [|discriminate].
  intros [= <- <-]. destruct Hinv as [I1 I2 I3 I4 I5 I6].
  apply userData_get_Own, obj_get_elem_of in Hget.
  pose proof I3 as I3'. rewrite Forall_forall in I3'.
  specialize (I3' _ Hget) as (Hkey & Hal & Hent).
  unfold entries_aligned in Hent. simpl in Hkey, Hal, Hent. rewrite Hes in Hent.
  destruct Hent as (He1 & He2 & He3).
  pose proof (Forall_lookup_1 _ _ _ _ He3 Hentry) as Hti.
  set (labels' := match Series.labels data !! Z.to_nat idx with
                  | Some l => if str_truthy l
                              then <[Z.to_nat idx := param newTime]> (Series.labels data)
                              else Series.labels data
                  | None => Series.labels data
                  end).
  assert (Hl1 : length labels' = length (Series.labels data)).
  { unfold labels'. destruct (Series.labels data !! Z.to_nat idx) as [l|]; [|done].
    destruct (str_truthy l); [apply length_insert | done]. }
  assert (Hl2 : Forall (λ l, l ≠ []) labels').
  { unfold labels'. destruct (Series.labels data !! Z.to_nat idx) as [l|]; [|done].
    destruct (str_truthy l); [by apply Forall_insert | done]. }
  assert (Hn : ∀ c, length (Chart.labels
                 (if (0 <=? Entry.totalIndex entry)%Z
                     && (Entry.totalIndex entry <? Z.of_nat (length (Chart.labels (chartData st))))%Z
                  then Chart.mk (<[Z.to_nat (Entry.totalIndex entry) := c]> (Chart.labels (chartData st)))
                                (Chart.values (chartData st))
                  else chartData st)) = length (Chart.labels (chartData st))).
  { intros c. destruct (_ && _); simpl; [apply length_insert | done]. }
  split; simpl; try done.
  - rewrite Hn. destruct (_ && _); simpl; done.
  - by apply canonical_obj_set.
  - rewrite Hn. apply Forall_obj_set; [done|].
    repeat split; simpl; try apply Hkey.
    + unfold series_aligned in *. simpl. by rewrite Hl1.
    + by rewrite length_insert, Hl1.
    + done.
    + by apply Forall_insert.
Qed.

Lemma users_delete_invariant clk id adminName st r st' :
  invariant st → users_delete clk id adminName st = Done r st' → invariant st'.
Proof.
  intros [I1 I2 I3 I4 I5 I6]. unfold users_delete.
  destruct (route_id id); [|by intros [= <- <-]].
  destruct (find_key id st) as [key|]; [|by intros [= <- <-]].
  destruct (str_truthy key); [|by intros [= <- <-]].
  intros [= <- <-]. split; simpl; try done.
  - by apply canonical_obj_delete.
  - by apply Forall_obj_delete.
Qed.

Lemma users_put_invariant clk id newName adminName st r st' :
  invariant st → users_put clk id newName adminName st = Done r st' → invariant st'.
Proof.
  intros [I1 I2 I3 I4 I5 I6]. unfold users_put.
  destruct (route_id id); [|by intros [= <- <-]].
  destruct (truthy newName) eqn:Hn; simpl; [|by intros [= <- <-]].
  apply truthy_param in Hn as [_ Hn].
  destruct (find_key id st) as [key|]; [|by intros [= <- <-]].
  destruct (str_truthy key); [|by intros [= <- <-]].
  destruct (obj_get key (userData st)) as [data|] eqn:Hget; [|discriminate].
  intros [= <- <-]. unfold userData_assign.
  apply obj_get_elem_of in Hget. rewrite Forall_forall in I3.
  pose proof (I3 _ Hget) as (Hkey & Hal & Hent). rewrite <- Forall_forall in I3.
  case_bool_decide as Hproto; split; simpl; try done;
    try (by apply canonical_obj_delete); try (by apply Forall_obj_delete).
  - by apply canonical_obj_set, canonical_obj_delete.
  - apply Forall_obj_set; [by apply Forall_obj_delete|].
    repeat split; simpl; done.
Qed.

Lemma reset_month_invariant clk adminName st r st' :
  clock_ok clk → invariant st → reset_month clk adminName st = Done r st' → invariant st'.
Proof.
  intros [_ Hiso] [I1 I2 I3 I4 I5 I6]. unfold reset_month. intros [= <- <-].
  split; simpl; try done; try constructor.
  apply Forall_app. split; [done|]. constructor; [|constructor].
  repeat split; simpl; try done.
  - by rewrite JSON_users_keys.
  - unfold JSON_users. apply Forall_fmap. eapply Forall_impl; [exact I3|].
    intros [k s] (Hk & Hal & _). simpl in *. split; [done|].
    unfold series_aligned in *. simpl. by rewrite length_map.
  - by rewrite JSON_team_ids.
Qed.

Lemma restore_month_invariant clk month adminName st r st' :
  invariant st → restore_month clk month adminName st = Done r st' → invariant st'.
Proof.
  intros [I1 I2 I3 I4 I5 I6]. unfold restore_month.
  destruct (truthy month); simpl; [|by intros [= <- <-]].
  destruct (List.find _ _) as [h|] eqn:Hfind; [|by intros [= <- <-]].
  intros [= <- <-]. apply find_some in Hfind as [Hin _].
  apply list_elem_of_In in Hin. rewrite Forall_forall in I6.
  pose proof (I6 _ Hin) as (Hm & Hc & Hk & Hu & Ht). rewrite <- Forall_forall in I6.
  rewrite restore_users_canonical; simpl.
  - split; simpl; try done.
    + by rewrite <- list_fmap_compose.
    + apply Forall_fmap. eapply Forall_impl; [exact Hu|].
      intros [k s] [Hkey Hal]. repeat split; simpl in *; try done; apply Hkey.
    + by rewrite JSON_team_ids.
  - done.
  - eapply Forall_impl; [exact Hu|]. intros [k s] [[_ Hp] _]. done.
Qed.

Lemma handle_invariant clk req st r st' :
  clock_ok clk → invariant st → handle clk req st = Done r st' → invariant st'.
Proof.
  intros Hclk Hinv. destruct req; simpl.
  - by apply add_invariant.
  - by intros [= <- <-].
  - by apply team_post_invariant.
  - by apply team_put_invariant.
  - by apply team_delete_invariant.
  - by intros [= <- <-].
  - unfold entries_get. destruct (truthy user); simpl; [|by intros [= <- <-]].
    destruct (userData_get _ _) as [data| |]; try by intros [= <- <-].
    destruct (Series.entries data); by intros [= <- <-].
  - by apply entry_put_invariant.
  - by apply users_delete_invariant.
  - by apply users_put_invariant.
  - by apply reset_month_invariant.
  - by apply restore_month_invariant.
  - by intros [= <- <-].
  - unfold handleRegister. destruct (_ || _); [by intros [= <- <-]|].
    destruct (existsb _ _); intros [= <- <-]; [done|].
    by apply (invariant_same st).
  - unfold handleLogin. destruct (_ || _); [by intros [= <- <-]|].
    destruct (List.find _ _) as [c|]; [|by intros [= <- <-]].
    destruct (bool_decide _); intros [= <- <-]; [|done].
    by apply (invariant_same st).
  - unfold change_password. destruct (_ || _); [by intros [= <- <-]|].
    destruct (negb _); [by intros [= <- <-]|].
    destruct (list_find _ _) as [[i c]|]; intros [= <- <-]; [|done].
    by apply (invariant_same st).
  - by intros [= <- <-].
  - unfold logs_delete. destruct (_ || _); intros [= <- <-]; [done|].
    by apply (invariant_same st).
  - unfold upload_hero. destruct written; intros [= <- <-]; [|done|done].
    by apply (invariant_same st).
Qed.

Lemma reachable_from_invariant st0 st :
  invariant st0 → reachable_from st0 st → invariant st.
Proof.
  intros H0. induction 1 as [|st clk req r st' _ IH Hclk Hstep]; [done|].
  by eapply handle_invariant.
Qed.

Lemma reachable_invariant st : reachable st → invariant st.
Proof.
  intros (file & iso & Hiso & Hreach).
  eapply reachable_from_invariant; [|exact Hreach]. by apply startup_invariant.
Qed.

End Invariants.

(* ===================================================================== *)
(** ** The ledger: editing the time of an entry *)
(* ===================================================================== *)

Section Ledger.
Context `{Unicode}.

(** C3. In every reachable state, for every contributor [c] with an entry
    [e] at index [i], [PUT /entry] with a time [t] answers 200, sets
    [labels[i]] and [entries[i].time] of the contributor to [t], sets the
    label of the aggregate series at [e.totalIndex] to [t], and leaves every
    other label, the values of both series, the other fields of the entry,
    the other contributors and the order of the keys as they were. *)
Theorem edit_entry_time_updates_both_series
    clk c index t admin st s es (i : nat) e :
  reachable st →
  obj_get c (userData st) = Some s →
  Series.entries s = Some es →
  es !! i = Some e →
  parseInt10 index = Some (Z.of_nat i) →
  t ≠ [] →
  ∃ st' s',
    entry_put clk (Some c) (Some index) (Some t) admin st
      = Done (Response 200 Message) st'
    ∧ obj_get c (userData st') = Some s'
    ∧ Series.labels s' = <[i := t]> (Series.labels s)
    ∧ Series.labels s' !! i = Some t
    ∧ Series.entries s'
        = Some (<[i := Entry.mk t (Entry.value e) (Entry.totalIndex e)]> es)
    ∧ Series.values s' = Series.values s
    ∧ Chart.labels (chartData st')
        = <[Z.to_nat (Entry.totalIndex e) := t]> (Chart.labels (chartData st))
    ∧ Chart.labels (chartData st') !! Z.to_nat (Entry.totalIndex e) = Some t
    ∧ Chart.values (chartData st') = Chart.values (chartData st)
    ∧ (∀ j, j ≠ i → Series.labels s' !! j = Series.labels s !! j)
    ∧ (∀ j, j ≠ Z.to_nat (Entry.totalIndex e) →
         Chart.labels (chartData st') !! j = Chart.labels (chartData st) !! j)
    ∧ (∀ c', c' ≠ c → obj_get c' (userData st') = obj_get c' (userData st))
    ∧ Object_keys (userData st') = Object_keys (userData st).
Proof.
  intros Hreach Hget Hes Hi Hidx Ht.
  destruct (reachable_invariant _ Hreach) as [I1 I2 I3 I4 I5 I6].
  pose proof (obj_get_elem_of _ _ _ Hget) as Hin.
  rewrite Forall_forall in I3. specialize (I3 _ Hin) as (Hkey & Hal & Hent).
  unfold entries_aligned in Hent. simpl in Hkey, Hal, Hent. rewrite Hes in Hent.
  destruct Hent as (He1 & He2 & He3).
  pose proof (Forall_lookup_1 _ _ _ _ He3 Hi) as Hti. simpl in Hti.
  pose proof (lookup_lt_Some _ _ _ Hi) as Hlt.
  destruct (lookup_lt_is_Some_2 (Series.labels s) i) as [l Hl]; [lia|].
  pose proof (Forall_lookup_1 _ _ _ _ He2 Hl) as Hlne. simpl in Hlne.
  unfold entry_put.
  assert (Hc : truthy (Some c) = true) by (apply str_truthy_ne, Hkey).
  assert (Ht' : truthy (Some t) = true) by (by apply str_truthy_ne).
  rewrite Hc, Ht'. rewrite bool_decide_eq_true_2 by eauto. simpl.
  rewrite Hidx. rewrite (proj2 (userData_get_Own c st s) Hget), Hes.
  replace ((Z.of_nat i <? 0)%Z || (Z.of_nat (length es) <=? Z.of_nat i)%Z) with false
    by (symmetry; apply orb_false_intro; [apply Z.ltb_ge | apply Z.leb_gt]; lia).
  rewrite Nat2Z.id, Hi, Hl.
  rewrite (proj2 (str_truthy_ne l) Hlne).
  replace ((0 <=? Entry.totalIndex e)%Z
           && (Entry.totalIndex e <? Z.of_nat (length (Chart.labels (chartData st))))%Z)
    with true
    by (symmetry; apply andb_true_intro; split; [apply Z.leb_le | apply Z.ltb_lt]; lia).
  eexists _, _. split; [reflexivity|]. simpl.
  split; [apply obj_get_set_eq|]. simpl.
  split; [done|]. split; [apply list_lookup_insert_eq; lia|].
  split; [done|]. split; [done|]. split; [done|].
  split; [apply list_lookup_insert_eq; lia|]. split; [done|].
  split; [intros j Hj; by apply list_lookup_insert_ne|].
  split; [intros j Hj; by apply list_lookup_insert_ne|].
  split; [intros c' Hc'; by apply obj_get_set_ne|].
  unfold Object_keys, obj_set. rewrite Hget. apply obj_replace_keys.
Qed.

End Ledger.

(* ===================================================================== *)
(** ** The ledger: deposits *)
(* ===================================================================== *)

Lemma add_NaN clk amount userName adminName st :
  isNaN amount = true →
  add clk amount userName adminName st = Done (Response 400 Message) st.
Proof. intros Hnan. unfold add. by rewrite Hnan. Qed.

Lemma add_not_NaN clk amount userName adminName st r st' :
  isNaN amount = false →
  add clk amount userName adminName st = Done r st' →
  ∃ users,
    r = Response 200
          (Deposited (Chart.mk (Chart.labels (chartData st) ++ [strip_commas (localeString clk)])
                               (Chart.values (chartData st) ++ [amount])) users)
    ∧ chartData st' = Chart.mk (Chart.labels (chartData st) ++ [strip_commas (localeString clk)])
                               (Chart.values (chartData st) ++ [amount])
    ∧ userData st' = users
    ∧ (truthy userName = false → users = userData st)
    ∧ (truthy userName = true →
       ∃ data es,
         deposit_series (param userName) st = Some data
         ∧ Series.entries data = Some es
         ∧ users = obj_set (param userName)
             (Series.mk (Series.labels data ++ [strip_commas (localeString clk)])
                        (Series.values data ++ [JNum amount])
                        (Some (es ++ [Entry.mk (strip_commas (localeString clk)) (JNum amount)
                                 (Z.of_nat (length (Chart.values (chartData st) ++ [amount])) - 1)])))
             (userData st)).
Proof.
  intros Hnan. unfold add. rewrite Hnan. simpl.
  destruct (truthy userName).
  - destruct (deposit_series _ _) as [data|]; [|discriminate].
    destruct (Series.entries data) as [es|] eqn:Hes; [|discriminate].
    intros [= <- <-]. eexists. repeat split; try done.
    intros _. by exists data, es.
  - intros [= <- <-]. eexists. repeat split; done.
Qed.

(** C2 (amended). [/add/:value] answers 400 exactly when the amount is NaN,
    and then leaves the stores as they were. Any other amount, the
    infinities included, is appended to the aggregate series whenever the
    request is answered, and the answer is then 200. The request is answered
    when it names no contributor, and when the series of the contributor it
    names (created empty for a new one) has its [entries]: the amount is
    then appended to that series too. *)
Theorem add_rejects_exactly_NaN clk amount userName adminName st :
  let label := strip_commas (localeString clk) in
  let chart := Chart.mk (Chart.labels (chartData st) ++ [label])
                        (Chart.values (chartData st) ++ [amount]) in
  (status_of (add clk amount userName adminName st) = Some 400 ↔ isNaN amount = true)
  ∧ (isNaN amount = true →
     add clk amount userName adminName st = Done (Response 400 Message) st)
  ∧ (isNaN amount = false → ∀ r st',
     add clk amount userName adminName st = Done r st' →
     (∃ users, r = Response 200 (Deposited chart users)) ∧ chartData st' = chart)
  ∧ (isNaN amount = false → truthy userName = false →
     ∃ st', add clk amount userName adminName st
            = Done (Response 200 (Deposited chart (userData st))) st'
            ∧ chartData st' = chart ∧ userData st' = userData st)
  ∧ (isNaN amount = false → ∀ data es,
     truthy userName = true →
     deposit_series (param userName) st = Some data →
     Series.entries data = Some es →
     ∃ st', add clk amount userName adminName st
            = Done (Response 200 (Deposited chart (userData st'))) st'
            ∧ chartData st' = chart
            ∧ obj_get (param userName) (userData st')
              = Some (Series.mk (Series.labels data ++ [label])
                                (Series.values data ++ [JNum amount])
                                (Some (es ++ [Entry.mk label (JNum amount)
                                         (Z.of_nat (length (Chart.values (chartData st))))])))
            ∧ (∀ c, c ≠ param userName →
               obj_get c (userData st') = obj_get c (userData st))).
Proof.
  intros label chart. split; [|split; [|split; [|split]]].
  - split.
    + destruct (isNaN amount) eqn:Hnan; [done|]. intros Hst.
      destruct (add clk amount userName adminName st) as [r st'|] eqn:Hadd; [|done].
      destruct (add_not_NaN _ _ _ _ _ _ _ Hnan Hadd) as (users & -> & _). done.
    + intros Hnan. by rewrite add_NaN.
  - apply add_NaN.
  - intros Hnan r st' Hadd.
    destruct (add_not_NaN _ _ _ _ _ _ _ Hnan Hadd) as (users & -> & Hc & _).
    split; [by exists users | done].
  - intros Hnan Hu. unfold add. rewrite Hnan, Hu. simpl. eexists. repeat split; done.
  - intros Hnan data es Hu Hdata Hes. unfold add. rewrite Hnan, Hu, Hdata, Hes. simpl.
    match goal with |- ∃ st', Done _ ?s = _ ∧ _ => exists s end.
    split; [reflexivity|]. simpl. split; [done|]. split.
    + rewrite obj_get_set_eq.
      replace (Z.of_nat (length (Chart.values (chartData st) ++ [amount])) - 1)%Z
        with (Z.of_nat (length (Chart.values (chartData st))))
        by (rewrite length_app; simpl; lia).
      done.
    + intros c Hc. by apply obj_get_set_ne.
Qed.

Lemma add_length_invariant clk amount userName adminName st body st' :
  length_invariant st →
  add clk amount userName adminName st = Done (Response 200 body) st' →
  length_invariant st'
  ∧ length (Chart.labels (chartData st')) = S (length (Chart.labels (chartData st)))
  ∧ length (Chart.values (chartData st')) = S (length (Chart.values (chartData st))).
Proof.
  intros [Hc Hu] Hadd.
  destruct (isNaN amount) eqn:Hnan; [by rewrite add_NaN in Hadd|].
  destruct (add_not_NaN _ _ _ _ _ _ _ Hnan Hadd) as (users & _ & Hc' & Hu' & Hno & Hyes).
  unfold length_invariant. rewrite Hc', Hu'. simpl. rewrite !length_app. simpl.
  split; [|lia]. split; [lia|].
  destruct (truthy userName) eqn:Htr.
  - destruct (Hyes eq_refl) as (data & es & Hdata & Hes & ->).
    apply Forall_obj_set; [done|]. unfold series_aligned. simpl.
    rewrite !length_app. simpl. f_equal.
    unfold deposit_series in Hdata.
    destruct (userData_get (param userName) st) as [d| |] eqn:Hget; [|done|].
    + injection Hdata as ->. apply userData_get_Own, obj_get_elem_of in Hget.
      rewrite Forall_forall in Hu. apply (Hu _ Hget).
    + by injection Hdata as <-.
  - by rewrite (Hno eq_refl).
Qed.

Lemma deposit_all_lengths ds st st' :
  length_invariant st → deposit_all ds st = Some st' →
  length_invariant st'
  ∧ length (Chart.labels (chartData st')) = (length (Chart.labels (chartData st)) + length ds)%nat
  ∧ length (Chart.values (chartData st')) = (length (Chart.values (chartData st)) + length ds)%nat.
Proof.
  revert st. induction ds as [|d ds IH]; intros st Hinv; simpl.
  { intros [= <-]. split; [done | lia]. }
  destruct (add _ _ _ _ st) as [[status body|] st1|] eqn:Hadd; try discriminate.
  destruct (status =? 200) eqn:Hst; [|discriminate].
  apply N.eqb_eq in Hst as ->.
  destruct (add_length_invariant _ _ _ _ _ _ _ Hinv Hadd) as (Hinv1 & Hl & Hv).
  intros Hrest. destruct (IH _ Hinv1 Hrest) as (Hinv' & Hl' & Hv').
  split; [done | lia].
Qed.

Lemma deposit_all_app ds1 ds2 st :
  deposit_all (ds1 ++ ds2) st = deposit_all ds1 st ≫= deposit_all ds2.
Proof.
  revert st. induction ds1 as [|d ds1 IH]; intros st; simpl; [done|].
  destruct (add _ _ _ _ st) as [[status body|] st1|]; try done.
  destruct (status =? 200); [apply IH | done].
Qed.

(** C6. From a state that satisfies the length invariant, after each call
    of a sequence of successful deposits the aggregate series has as many
    labels as values, both lengths have grown by one per call, and every
    contributor series has as many labels as values. *)
Theorem deposits_keep_lengths ds st st' :
  length_invariant st →
  deposit_all ds st = Some st' →
  ∀ n, (n ≤ length ds)%nat →
    ∃ st_n,
      deposit_all (take n ds) st = Some st_n
      ∧ length (Chart.labels (chartData st_n)) = length (Chart.values (chartData st_n))
      ∧ length (Chart.labels (chartData st_n))
        = (length (Chart.labels (chartData st)) + n)%nat
      ∧ length (Chart.values (chartData st_n))
        = (length (Chart.values (chartData st)) + n)%nat
      ∧ Forall (λ p, length (Series.labels p.2) = length (Series.values p.2))
          (userData st_n).
Proof.
  intros Hinv Hall n Hn.
  rewrite <- (take_drop n ds), deposit_all_app in Hall.
  destruct (deposit_all (take n ds) st) as [st_n|] eqn:Hpre; [|done].
  exists st_n. split; [done|].
  destruct (deposit_all_lengths _ _ _ Hinv Hpre) as ([Hc Hu] & Hl & Hv).
  rewrite length_take in Hl, Hv. repeat split; try done; lia.
Qed.

(* ===================================================================== *)
(** ** The ledger: deleting and renaming a contributor *)
(* ===================================================================== *)

Lemma is_word_ascii c : is_word c = true → is_ascii c = true.
Proof.
  unfold is_word, is_ascii, in_range.
  rewrite !orb_true_iff, !andb_true_iff, !N.leb_le, N.eqb_eq, N.ltb_lt. lia.
Qed.

Lemma is_word_lower c : is_word c = true → is_word (ascii_lower c) = true.
Proof.
  unfold ascii_lower, in_range. destruct (_ && _) eqn:Hup; [|done].
  unfold is_word, in_range. apply andb_true_iff in Hup as [H1 H2].
  apply N.leb_le in H1, H2. intros _.
  rewrite !orb_true_iff, !andb_true_iff, !N.leb_le, N.eqb_eq. lia.
Qed.

Section Contributors.
Context `{Unicode}.

Lemma sanitizeName_word name : forallb is_word (sanitizeName name) = true.
Proof.
  unfold sanitizeName, strip_non_word.
  set (s := List.filter is_word _).
  assert (Hs : Forall (λ c, is_word c = true) s).
  { unfold s. apply Forall_forall. intros c Hc.
    apply list_elem_of_In, filter_In in Hc. tauto. }
  rewrite toLowerCase_ascii.
  - apply forallb_forall. intros c Hc. apply in_map_iff in Hc as (c0 & <- & Hc0).
    apply is_word_lower. rewrite Forall_forall in Hs. apply Hs. by apply list_elem_of_In.
  - apply forallb_forall. intros c Hc. apply is_word_ascii.
    rewrite Forall_forall in Hs. apply Hs. by apply list_elem_of_In.
Qed.

Lemma sanitizeName_nil : sanitizeName [] = [].
Proof.
  unfold sanitizeName. rewrite normalizeNFD_ascii by done. simpl.
  by rewrite toLowerCase_ascii.
Qed.

(** A sanitized name that is not empty passes the route pattern. *)
Lemma route_id_sanitizeName name : sanitizeName name ≠ [] → route_id (sanitizeName name) = true.
Proof.
  intros Hne. unfold route_id. apply andb_true_intro. split; [by apply str_truthy_ne|].
  pose proof (sanitizeName_word name) as Hw. rewrite forallb_forall in Hw.
  apply forallb_forall. intros c Hc. by rewrite (Hw c Hc).
Qed.

(** A contributor that shares its sanitized name with no other is the key
    its sanitized name finds. *)
Lemma find_key_unique st x :
  x ∈ Object_keys (userData st) →
  (∀ k, k ∈ Object_keys (userData st) → sanitizeName k = sanitizeName x → k = x) →
  find_key (sanitizeName x) st = Some x.
Proof.
  unfold find_key. generalize (Object_keys (userData st)). intros ks Hin Huniq.
  induction ks as [|k ks IH]; [by apply elem_of_nil in Hin|]. simpl.
  case_bool_decide as Hk.
  - f_equal. apply Huniq; [left | done].
  - apply IH.
    + apply elem_of_cons in Hin as [->|Hin]; [done | done].
    + intros k' Hk'. apply Huniq. by right.
Qed.

Lemma participants_delete key st :
  participants (set_userData (obj_delete key (userData st)) st)
  = List.filter (λ p, negb (bool_decide (Participant.name p = key))) (participants st).
Proof.
  unfold participants, obj_delete. simpl.
  induction (userData st) as [|[k s] o IH]; simpl; [done|].
  destruct (negb _); simpl; by rewrite IH.
Qed.

(** C7 (amended). Let [x] be a contributor whose sanitized name is not
    empty and who is the first key of [userData], in key order, with that
    sanitized name. Then [DELETE /users/:id] with the sanitized name of [x]
    answers 200, removes [x] from the list [GET /participants] gives and
    keeps the other items of that list, and leaves the aggregate series and
    the series of every other contributor as they were. *)
Theorem delete_contributor_removes_first_match clk x admin st :
  sanitizeName x ≠ [] →
  find_key (sanitizeName x) st = Some x →
  ∃ st',
    users_delete clk (sanitizeName x) admin st = Done (Response 200 Message) st'
    ∧ (x ∉ Participant.name <$> participants st')
    ∧ participants st'
      = List.filter (λ p, negb (bool_decide (Participant.name p = x))) (participants st)
    ∧ chartData st' = chartData st
    ∧ obj_get x (userData st') = None
    ∧ (∀ c, c ≠ x → obj_get c (userData st') = obj_get c (userData st)).
Proof.
  intros Hid Hfind. unfold users_delete.
  rewrite route_id_sanitizeName by done. rewrite Hfind.
  assert (Hx : str_truthy x = true).
  { apply str_truthy_ne. intros ->. by rewrite sanitizeName_nil in Hid. }
  rewrite Hx. eexists. split; [reflexivity|].
  assert (Hpart : participants
                    (addLog clk admin (js "userDelete") (Log.UserDelete (sanitizeName x) x)
                       (set_userData (obj_delete x (userData st)) st))
                  = List.filter (λ p, negb (bool_decide (Participant.name p = x)))
                      (participants st)).
  { rewrite <- participants_delete. done. }
  split; [|split; [done|split; [done|split]]].
  - rewrite Hpart. intros Hin. apply list_elem_of_fmap in Hin as (p & -> & Hp).
    apply list_elem_of_In, filter_In in Hp as [_ Hp].
    by rewrite bool_decide_eq_true_2 in Hp.
  - simpl. rewrite obj_get_delete. by rewrite bool_decide_eq_true_2.
  - intros c Hc. simpl. rewrite obj_get_delete. by rewrite bool_decide_eq_false_2.
Qed.

Lemma find_key_own id st key :
  find_key id st = Some key → is_Some (obj_get key (userData st)) ∧ sanitizeName key = id.
Proof.
  unfold find_key. intros Hfind. apply find_some in Hfind as [Hin Hid].
  apply bool_decide_eq_true in Hid. split; [|done].
  apply list_elem_of_In in Hin. destruct (obj_get key (userData st)) eqn:Hget; [by eexists|].
  by apply obj_get_None in Hget.
Qed.

(** C4 (amended). [PUT /users/:id] never answers with a duplicate-key
    error. For an id that finds a contributor and a new name that is not
    empty, it answers 200 and leaves the aggregate series and the series of
    every contributor whose name is neither the old nor the new one as they
    were, a contributor whose id equals the id of the new name included.
    When the new name is not yet the name of a contributor and is not
    [__proto__], it then holds the labels and the values of the renamed
    contributor, and the old name holds nothing. *)
Theorem rename_has_no_duplicate_check clk id newName admin st key :
  route_id id = true → newName ≠ [] →
  find_key id st = Some key → key ≠ [] →
  ∃ data st',
    obj_get key (userData st) = Some data
    ∧ users_put clk id (Some newName) admin st
      = Done (Response 200 (Renamed key newName)) st'
    ∧ chartData st' = chartData st
    ∧ (∀ c, c ≠ key → c ≠ newName → obj_get c (userData st') = obj_get c (userData st))
    ∧ (newName ∉ Object_keys (userData st) → newName ≠ js "__proto__" →
       (∃ moved, obj_get newName (userData st') = Some moved
                 ∧ Series.labels moved = Series.labels data
                 ∧ Series.values moved = Series.values data)
       ∧ obj_get key (userData st') = None).
Proof.
  intros Hroute Hnew Hfind Hkey.
  destruct (find_key_own _ _ _ Hfind) as [[data Hget] _].
  exists data. unfold users_put. rewrite Hroute, Hfind, Hget.
  rewrite (proj2 (str_truthy_ne key) Hkey).
  replace (truthy (Some newName)) with true by (symmetry; by apply str_truthy_ne).
  simpl. eexists. split; [done|]. split; [reflexivity|].
  unfold userData_assign. split; [by case_bool_decide|]. split.
  - intros c Hc1 Hc2. case_bool_decide; simpl.
    + rewrite obj_get_delete. by rewrite bool_decide_eq_false_2.
    + rewrite obj_get_set_ne by done. rewrite obj_get_delete.
      by rewrite bool_decide_eq_false_2.
  - intros Hfresh Hproto. rewrite bool_decide_eq_false_2 by done. simpl.
    assert (Hne : newName ≠ key).
    { intros ->. apply Hfresh. by eapply obj_get_Some_key. }
    split.
    + eexists. rewrite obj_get_set_eq. by split.
    + rewrite obj_get_set_ne by done. rewrite obj_get_delete.
      by rewrite bool_decide_eq_true_2.
Qed.

End Contributors.

(* ===================================================================== *)
(** ** Monthly snapshots *)
(* ===================================================================== *)

Lemma obj_get_map {A B} (f : A → B) k (o : obj A) :
  obj_get k (map (λ p, (p.1, f p.2)) o) = f <$> obj_get k o.
Proof.
  induction o as [|[k' v] o IH]; simpl; [done|]. by case_bool_decide.
Qed.

Lemma map_values_keys {A B} (f : A → B) (o : obj A) :
  Object_keys (map (λ p, (p.1, f p.2)) o) = Object_keys o.
Proof.
  unfold Object_keys. induction o as [|[k v] o IH]; csimpl; [done | by rewrite IH].
Qed.

Lemma restore_users_frame users st :
  chartData (restore_users users st) = chartData st
  ∧ logs (restore_users users st) = logs st
  ∧ monthlyHistory (restore_users users st) = monthlyHistory st
  ∧ currentMonth (restore_users users st) = currentMonth st
  ∧ credentials (restore_users users st) = credentials st
  ∧ teamData (restore_users users st) = teamData st.
Proof.
  unfold restore_users. revert st.
  induction users as [|[k s] users IH]; intros st; simpl; [done|].
  destruct (IH (userData_assign k (copy_series s) st)) as (-> & -> & -> & -> & -> & ->).
  unfold userData_assign. by case_bool_decide.
Qed.

Lemma restore_users_no_entries users st :
  Forall (λ p, Series.entries p.2 = None) (userData st) →
  Forall (λ p, Series.entries p.2 = None) (userData (restore_users users st)).
Proof.
  unfold restore_users. revert st.
  induction users as [|[k s] users IH]; intros st Hst; simpl; [done|].
  apply IH. unfold userData_assign. case_bool_decide; simpl; [done|].
  by apply Forall_obj_set.
Qed.

Lemma restore_users_fresh users st :
  userData st = [] → ∀ c, no_entries c (restore_users users st).
Proof.
  intros Hnil c s Hget. apply obj_get_elem_of in Hget.
  assert (Hall : Forall (λ p, Series.entries p.2 = None) (userData (restore_users users st))).
  { apply restore_users_no_entries. rewrite Hnil. constructor. }
  rewrite Forall_forall in Hall. apply (Hall _ Hget).
Qed.

Lemma find_month_app (old more : list Snapshot.t) snap m :
  Forall (λ h, Snapshot.month h ≠ m) old → Snapshot.month snap = m →
  List.find (λ h, bool_decide (Snapshot.month h = m)) (old ++ snap :: more) = Some snap.
Proof.
  intros Hold Hm. induction Hold as [|h old Hh Hold IH]; simpl.
  - by rewrite bool_decide_eq_true_2.
  - by rewrite bool_decide_eq_false_2.
Qed.

Section Snapshots.
Context `{Unicode}.

(** No handler removes or rewrites a snapshot: the history only grows. *)
Lemma handle_history_grows clk req st r st' :
  handle clk req st = Done r st' →
  ∃ more, monthlyHistory st' = monthlyHistory st ++ more.
Proof.
  assert (Hsame : ∀ st', monthlyHistory st' = monthlyHistory st →
                    ∃ more, monthlyHistory st' = monthlyHistory st ++ more).
  { intros st0 ->. exists []. by rewrite app_nil_r. }
  destruct req; simpl.
  - unfold add. destruct (negb _); [|by intros [= <- <-]; apply Hsame].
    destruct (if truthy user then _ else _); [|done].
    intros [= <- <-]. by apply Hsame.
  - intros [= <- <-]. by apply Hsame.
  - unfold team_post. destruct (negb _); [by intros [= <- <-]; apply Hsame|].
    destruct (list_find _ _); intros [= <- <-]; by apply Hsame.
  - unfold team_put. destruct (route_id id); [|by intros [= <- <-]; apply Hsame].
    destruct (list_find _ _) as [[i m]|]; intros [= <- <-]; by apply Hsame.
  - unfold team_delete. destruct (route_id id); [|by intros [= <- <-]; apply Hsame].
    destruct (list_find _ _) as [[i m]|]; intros [= <- <-]; by apply Hsame.
  - intros [= <- <-]. by apply Hsame.
  - unfold entries_get. destruct (negb _); [by intros [= <- <-]; apply Hsame|].
    destruct (userData_get _ _) as [data| |]; try (by intros [= <- <-]; apply Hsame).
    destruct (Series.entries data); intros [= <- <-]; by apply Hsame.
  - unfold entry_put. destruct (_ || _); [by intros [= <- <-]; apply Hsame|].
    destruct (parseInt10 _) as [idx|]; [|by intros [= <- <-]; apply Hsame].
    destruct (userData_get _ _) as [data| |]; try (by intros [= <- <-]; apply Hsame).
    destruct (Series.entries data) as [es|]; [|by intros [= <- <-]; apply Hsame].
    destruct (_ || _); [by intros [= <- <-]; apply Hsame|].
    destruct (es !! _); [|done]. intros [= <- <-]. by apply Hsame.
  - unfold users_delete. destruct (route_id id); [|by intros [= <- <-]; apply Hsame].
    destruct (find_key id st) as [key|]; [|by intros [= <- <-]; apply Hsame].
    destruct (str_truthy key); intros [= <- <-]; by apply Hsame.
  - unfold users_put. destruct (route_id id); [|by intros [= <- <-]; apply Hsame].
    destruct (negb _); [by intros [= <- <-]; apply Hsame|].
    destruct (find_key id st) as [key|]; [|by intros [= <- <-]; apply Hsame].
    destruct (str_truthy key); [|by intros [= <- <-]; apply Hsame].
    destruct (obj_get key _); [|done]. intros [= <- <-]. apply Hsame.
    unfold userData_assign. by case_bool_decide.
  - unfold reset_month. intros [= <- <-]. simpl. by eexists.
  - unfold restore_month. destruct (negb _); [by intros [= <- <-]; apply Hsame|].
    destruct (List.find _ _) as [h|]; intros [= <- <-]; apply Hsame; [|done].
    simpl. by destruct (restore_users_frame (Snapshot.users h)
                          (set_userData [] (set_chartData
                             (Chart.mk (Chart.labels (Snapshot.chart h))
                                       (Chart.values (Snapshot.chart h))) st)))
             as (_ & _ & -> & _).
  - intros [= <- <-]. by apply Hsame.
  - unfold handleRegister. destruct (_ || _); [by intros [= <- <-]; apply Hsame|].
    destruct (existsb _ _); intros [= <- <-]; by apply Hsame.
  - unfold handleLogin. destruct (_ || _); [by intros [= <- <-]; apply Hsame|].
    destruct (List.find _ _) as [c|]; [|by intros [= <- <-]; apply Hsame].
    destruct (bool_decide _); intros [= <- <-]; by apply Hsame.
  - unfold change_password. destruct (_ || _); [by intros [= <- <-]; apply Hsame|].
    destruct (negb _); [by intros [= <- <-]; apply Hsame|].
    destruct (list_find _ _) as [[i c]|]; intros [= <- <-]; by apply Hsame.
  - intros [= <- <-]. by apply Hsame.
  - unfold logs_delete. destruct (_ || _); intros [= <- <-]; by apply Hsame.
  - unfold upload_hero. destruct written; intros [= <- <-]; by apply Hsame.
Qed.

Lemma run_history_grows reqs st st' :
  run reqs st = Some st' → ∃ more, monthlyHistory st' = monthlyHistory st ++ more.
Proof.
  revert st. induction reqs as [|[clk req] reqs IH]; intros st; simpl.
  { intros [= <-]. exists []. by rewrite app_nil_r. }
  destruct (handle clk req st) as [r st1|] eqn:Hstep; [|done].
  intros Hrun. destruct (handle_history_grows _ _ _ _ _ Hstep) as [m1 E1].
  destruct (IH _ Hrun) as [m2 E2]. exists (m1 ++ m2). by rewrite E2, E1, app_assoc.
Qed.

End Snapshots.

Section CloseAndRestore.
Context `{Unicode}.

(** C1 (amended). In a reachable state whose current period id names no
    snapshot of the history yet, [POST /reset-month] answers 200 with that
    id as [previousMonth]; after any requests served in between,
    [POST /restore-month] with that id answers 200 and brings back the
    aggregate series exactly, the roster and the period id, and, in the same
    key order, every contributor with its labels exactly and its values as
    [JSON.stringify] and [JSON.parse] copied them (the same values when each
    of them is finite and not negative zero). *)
Theorem close_then_restore clk0 admin0 reqs clk1 admin1 st st1 :
  reachable st →
  Forall (λ h, Snapshot.month h ≠ currentMonth st) (monthlyHistory st) →
  run ((clk0, ResetMonth admin0) :: reqs) st = Some st1 →
  (∃ st0, reset_month clk0 admin0 st
          = Done (Response 200 (MonthReset (currentMonth st) (slice0 7 (isoString clk0)))) st0)
  ∧ ∃ st2,
      restore_month clk1 (Some (currentMonth st)) admin1 st1
        = Done (Response 200 (MonthRestored (currentMonth st))) st2
      ∧ Chart.labels (chartData st2) = Chart.labels (chartData st)
      ∧ Chart.values (chartData st2) = Chart.values (chartData st)
      ∧ map (λ p, (p.1, Series.labels p.2, Series.values p.2)) (userData st2)
        = map (λ p, (p.1, Series.labels p.2, map JSON_value (Series.values p.2)))
              (userData st)
      ∧ Object_keys (userData st2) = Object_keys (userData st)
      ∧ (∀ c, Series.labels <$> obj_get c (userData st2)
              = Series.labels <$> obj_get c (userData st))
      ∧ (∀ c, Series.values <$> obj_get c (userData st2)
              = (λ s, map JSON_value (Series.values s)) <$> obj_get c (userData st))
      ∧ (∀ c s, obj_get c (userData st) = Some s →
           Forall JSON_stable (Series.values s) →
           Series.values <$> obj_get c (userData st2) = Some (Series.values s))
      ∧ teamData st2 = teamData st
      ∧ currentMonth st2 = currentMonth st.
Proof.
  intros Hreach Hfresh Hrun.
  destruct (reachable_invariant _ Hreach) as [I1 I2 I3 I4 I5 I6].
  split; [by eexists|].
  change (run ((clk0, ResetMonth admin0) :: reqs) st)
    with (match reset_month clk0 admin0 st with
          | Done _ st' => run reqs st'
          | TypeError => None
          end) in Hrun.
  destruct (reset_month clk0 admin0 st) as [r0 st0|] eqn:Hreset; [|done].
  set (snap := Snapshot.mk (currentMonth st)
                 (Chart.mk (Chart.labels (chartData st)) (Chart.values (chartData st)))
                 (JSON_users (userData st)) (JSON_team (teamData st))).
  assert (Hh0 : monthlyHistory st0 = monthlyHistory st ++ [snap]).
  { unfold reset_month in Hreset. by injection Hreset as _ <-. }
  destruct (run_history_grows _ _ _ Hrun) as [more Hhist].
  rewrite Hh0, <- app_assoc in Hhist. simpl in Hhist.
  unfold restore_month.
  replace (truthy (Some (currentMonth st))) with true
    by (symmetry; by apply str_truthy_ne).
  simpl. rewrite Hhist. rewrite (find_month_app _ _ _ _ Hfresh) by done. simpl.
  rewrite restore_users_canonical; simpl.
  2: { by rewrite JSON_users_keys. }
  2: { unfold JSON_users. apply Forall_fmap. eapply Forall_impl; [exact I3|].
       intros [k s] ([_ Hp] & _). done. }
  assert (Husers : map (λ p : jsstring * Series.t, (p.1, copy_series p.2))
                     (JSON_users (userData st))
                   = map (λ p, (p.1, copy_series (JSON_series p.2))) (userData st)).
  { unfold JSON_users. rewrite map_map. done. }
  rewrite Husers. eexists. split; [reflexivity|]. simpl.
  split; [done|]. split; [done|].
  split; [|split; [|split; [|split; [|split; [|split]]]]].
  - rewrite map_map. by apply map_ext.
  - apply (map_values_keys (λ s, copy_series (JSON_series s))).
  - intros c. rewrite (obj_get_map (λ s, copy_series (JSON_series s))).
    by destruct (obj_get c (userData st)).
  - intros c. rewrite (obj_get_map (λ s, copy_series (JSON_series s))).
    by destruct (obj_get c (userData st)).
  - intros c s Hget Hstable.
    rewrite (obj_get_map (λ s, copy_series (JSON_series s))), Hget. simpl. f_equal.
    clear -Hstable. induction Hstable as [|v vs Hv Hvs IH]; simpl; [done|].
    by rewrite Hv, IH.
  - by rewrite !JSON_team_id.
  - done.
Qed.

(** What [PUT /entry] answers for a contributor without [entries]. *)
Lemma entry_put_no_entries clk c index newTime admin st :
  no_entries c st →
  entry_put clk (Some c) index newTime admin st
  = Done (Response (if entry_params_ok (Some c) index newTime then 404 else 400) Message) st.
Proof.
  intros Hno. unfold entry_put, entry_params_ok. simpl param.
  destruct (truthy (Some c)); simpl; [|done].
  destruct (bool_decide (is_Some index)); simpl; [|done].
  destruct (truthy newTime); simpl; [|done].
  destruct (parseInt10 (param index)) as [idx|]; simpl; [|done].
  destruct (userData_get c st) as [data| |] eqn:Hget; try done.
  apply userData_get_Own in Hget. by rewrite (Hno _ Hget).
Qed.

Lemma entries_get_no_entries c st :
  no_entries c st →
  entries_get (Some c) st
  = Done (Response (if str_truthy c then 404 else 400) Message) st.
Proof.
  intros Hno. unfold entries_get. simpl.
  destruct (str_truthy c); simpl; [|done].
  destruct (userData_get c st) as [data| |] eqn:Hget; try done.
  apply userData_get_Own in Hget. by rewrite (Hno _ Hget).
Qed.

(** Only a deposit attributed to [c] gives [c] its [entries] (back). *)
Lemma handle_no_entries c clk req st r st' :
  ¬ deposit_for c req → no_entries c st →
  handle clk req st = Done r st' → no_entries c st'.
Proof.
  intros Hdep Hno. destruct req; simpl.
  - unfold add. destruct (negb _); [|by intros [= <- <-]].
    destruct (truthy user) eqn:Hu; [|by intros [= <- <-]].
    destruct (deposit_series _ _) as [data|]; [|done].
    destruct (Series.entries data); [|done].
    intros [= <- <-]. intros s. simpl.
    destruct user as [k|]; [|done]. simpl in Hdep.
    rewrite obj_get_set_ne by done. apply Hno.
  - by intros [= <- <-].
  - unfold team_post. destruct (negb _); [by intros [= <- <-]|].
    destruct (list_find _ _); by intros [= <- <-].
  - unfold team_put. destruct (route_id id); [|by intros [= <- <-]].
    destruct (list_find _ _) as [[i m]|]; by intros [= <- <-].
  - unfold team_delete. destruct (route_id id); [|by intros [= <- <-]].
    destruct (list_find _ _) as [[i m]|]; by intros [= <- <-].
  - by intros [= <- <-].
  - unfold entries_get. destruct (negb _); [by intros [= <- <-]|].
    destruct (userData_get _ _) as [data| |]; try by intros [= <- <-].
    destruct (Series.entries data); by intros [= <- <-].
  - unfold entry_put. destruct (_ || _); [by intros [= <- <-]|].
    destruct (parseInt10 _) as [idx|]; [|by intros [= <- <-]].
    destruct (userData_get _ _) as [data| |] eqn:Hget; try by intros [= <- <-].
    destruct (Series.entries data) as [es|] eqn:Hes; [|by intros [= <- <-]].
    destruct (_ || _); [by intros [= <- <-]|].
    destruct (es !! _); [|done]. intros [= <- <-]. intros s. simpl.
    apply userData_get_Own in Hget.
    destruct (decide (param user = c)) as [Heq|Hne].
    + rewrite Heq in Hget. rewrite (Hno _ Hget) in Hes. done.
    + rewrite obj_get_set_ne by done. apply Hno.
  - unfold users_delete. destruct (route_id id); [|by intros [= <- <-]].
    destruct (find_key id st) as [key|]; [|by intros [= <- <-]].
    destruct (str_truthy key); intros [= <- <-]; [|done].
    intros s. simpl. rewrite obj_get_delete. case_bool_decide; [done | apply Hno].
  - unfold users_put. destruct (route_id id); [|by intros [= <- <-]].
    destruct (negb _); [by intros [= <- <-]|].
    destruct (find_key id st) as [key|]; [|by intros [= <- <-]].
    destruct (str_truthy key); [|by intros [= <- <-]].
    destruct (obj_get key _) as [data|]; [|done]. intros [= <- <-].
    intros s. unfold userData_assign. case_bool_decide; simpl.
    + rewrite obj_get_delete. case_bool_decide; [done | apply Hno].
    + rewrite obj_get_set. case_bool_decide; [by intros [= <-]|].
      rewrite obj_get_delete. case_bool_decide; [done | apply Hno].
  - unfold reset_month. intros [= <- <-]. by intros s.
  - unfold restore_month. destruct (negb _); [by intros [= <- <-]|].
    destruct (List.find _ _) as [h|]; intros [= <- <-]; [|done].
    intros s Hget. simpl in Hget. revert s Hget.
    by apply (restore_users_fresh (Snapshot.users h)).
  - by intros [= <- <-].
  - unfold handleRegister. destruct (_ || _); [by intros [= <- <-]|].
    destruct (existsb _ _); by intros [= <- <-].
  - unfold handleLogin. destruct (_ || _); [by intros [= <- <-]|].
    destruct (List.find _ _) as [cr|]; [|by intros [= <- <-]].
    destruct (bool_decide _); by intros [= <- <-].
  - unfold change_password. destruct (_ || _); [by intros [= <- <-]|].
    destruct (negb _); [by intros [= <- <-]|].
    destruct (list_find _ _) as [[i cr]|]; by intros [= <- <-].
  - by intros [= <- <-].
  - unfold logs_delete. destruct (_ || _); by intros [= <- <-].
  - unfold upload_hero. destruct written; by intros [= <- <-].
Qed.

Lemma run_no_entries c reqs st st' :
  Forall (λ cr, ¬ deposit_for c cr.2) reqs → no_entries c st →
  run reqs st = Some st' → no_entries c st'.
Proof.
  intros Hreqs. revert st. induction Hreqs as [|[clk req] reqs Hreq Hreqs IH];
    intros st Hno; simpl.
  { by intros [= <-]. }
  destruct (handle clk req st) as [r st1|] eqn:Hstep; [|done].
  apply IH. by eapply handle_no_entries.
Qed.

(** A deposit attributed to a contributor without [entries] raises: the
    restore and the rename leave contributors in that state. *)
Lemma add_without_entries_raises clk amount c admin st s :
  isNaN amount = false → c ≠ [] →
  obj_get c (userData st) = Some s → Series.entries s = None →
  add clk amount (Some c) admin st = TypeError.
Proof.
  intros Hnan Hc Hget Hes. unfold add, deposit_series. rewrite Hnan. simpl.
  rewrite (proj2 (str_truthy_ne c) Hc).
  by rewrite (proj2 (userData_get_Own c st s) Hget), Hes.
Qed.

(** C10 (what the code does where the claim fails). After
    [POST /restore-month] has answered 200 in a reachable state, every
    contributor of the snapshot restored is a contributor again, with the
    labels and the values of the snapshot and without [entries]. Through any
    requests other than a deposit attributed to it, [GET /entries] for it
    answers 404 and [PUT /entry] for it answers 404 whatever the index and
    the time (400 when a parameter is missing or the index is no number).
    A deposit attributed to it, of an amount that is not NaN, does not give
    it [entries]: the handler raises a [TypeError]. *)
Theorem deposit_after_restore_raises clk month admin st body st1 :
  reachable st →
  restore_month clk month admin st = Done (Response 200 body) st1 →
  ∃ h,
    List.find (λ h, bool_decide (Snapshot.month h = param month)) (monthlyHistory st)
    = Some h
    ∧ ∀ c s, obj_get c (Snapshot.users h) = Some s →
        (∃ s1, obj_get c (userData st1) = Some s1
               ∧ Series.labels s1 = Series.labels s
               ∧ Series.values s1 = Series.values s
               ∧ Series.entries s1 = None)
        ∧ (∀ reqs st2,
             Forall (λ cr, ¬ deposit_for c cr.2) reqs →
             run reqs st1 = Some st2 →
             entries_get (Some c) st2 = Done (Response 404 Message) st2
             ∧ ∀ clk' index newTime admin',
                 entry_put clk' (Some c) index newTime admin' st2
                 = Done (Response (if entry_params_ok (Some c) index newTime
                                   then 404 else 400) Message) st2)
        ∧ (∀ clk' amount admin',
             isNaN amount = false →
             add clk' amount (Some c) admin' st1 = TypeError).
Proof.
  intros Hreach Hrestore.
  destruct (reachable_invariant _ Hreach) as [I1 I2 I3 I4 I5 I6].
  unfold restore_month in Hrestore.
  destruct (negb (truthy month)); [by injection Hrestore|].
  destruct (List.find _ _) as [h|] eqn:Hfind; [|by injection Hrestore].
  injection Hrestore as _ <-. exists h. split; [done|].
  apply find_some in Hfind as [Hin _]. apply list_elem_of_In in Hin.
  rewrite Forall_forall in I6. destruct (I6 _ Hin) as (_ & _ & Hk & Hu & _).
  intros c s Hget.
  pose proof (obj_get_elem_of _ _ _ Hget) as Hcs.
  rewrite Forall_forall in Hu. pose proof (Hu _ Hcs) as [[Hc _] _]. simpl in Hc.
  rewrite <- Forall_forall in Hu.
  set (st1 := addLog clk admin (js "restoreMonth") (Log.RestoreMonth (param month)) _).
  assert (Hget1 : obj_get c (userData st1) = Some (copy_series s)).
  { unfold st1. simpl. rewrite restore_users_canonical; simpl.
    - by rewrite obj_get_map, Hget.
    - done.
    - eapply Forall_impl; [exact Hu|]. intros [k s0] [[_ Hp] _]. done. }
  assert (Hno1 : no_entries c st1).
  { intros s1 Hs1. rewrite Hget1 in Hs1. by injection Hs1 as <-. }
  split; [by exists (copy_series s)|]. split.
  - intros reqs st2 Hreqs Hrun.
    pose proof (run_no_entries _ _ _ _ Hreqs Hno1 Hrun) as Hno2. split.
    + rewrite (entries_get_no_entries _ _ Hno2).
      by rewrite (proj2 (str_truthy_ne c) Hc).
    + intros. by apply entry_put_no_entries.
  - intros clk' amount admin' Hnan.
    by eapply add_without_entries_raises.
Qed.

End CloseAndRestore.

(* ===================================================================== *)
(** ** The roster *)
(* ===================================================================== *)

Section Roster.
Context `{Unicode}.

Lemma initial_team_ids :
  Forall (λ m, Member.id m = team_id (Member.name m)) initial_team.
Proof.
  unfold initial_team, team_id.
  repeat constructor; simpl Member.name; simpl Member.id;
    rewrite normalizeNFD_ascii by done; rewrite toLowerCase_ascii by done; done.
Qed.

Lemma team_post_result clk name description admin st r st' :
  team_post clk name description admin st = Done r st' →
  (teamData st' = teamData st ∧ r = Response 400 Message)
  ∨ (∃ m, teamData st' = teamData st ++ [m]
          ∧ r = Response 200 (OneMember m)
          ∧ name = Some (Member.name m)
          ∧ Member.id m = team_id (Member.name m)
          ∧ Member.id m ∉ Member.id <$> teamData st).
Proof.
  unfold team_post. destruct (truthy name) eqn:Hn; simpl; [|intros [= <- <-]; by left].
  destruct (list_find _ _) as [[i m]|] eqn:Hfind; intros [= <- <-]; [by left|].
  right. eexists. simpl. repeat split; try done.
  - by apply truthy_param in Hn as [-> _].
  - apply list_find_None in Hfind. rewrite Forall_forall in Hfind.
    intros Hin. apply list_elem_of_fmap in Hin as (m & Hm & Hin).
    by apply (Hfind m Hin).
Qed.

(** C8 (amended). In every reachable state the ids of the roster are
    pairwise distinct, and creating, updating and deleting a member keep
    them so. A created member gets the id derived from its name (NFD,
    diacritics and white space removed, lower case), as the three initial
    members have; an update changes the name or the description and leaves
    every id as it was; a delete removes one member and leaves the others. *)
Theorem roster_ids_stay_unique st :
  reachable st →
  NoDup (Member.id <$> teamData st)
  ∧ Forall (λ m, Member.id m = team_id (Member.name m)) initial_team
  ∧ (∀ clk name description admin r st',
       team_post clk name description admin st = Done r st' →
       NoDup (Member.id <$> teamData st')
       ∧ ((teamData st' = teamData st ∧ r = Response 400 Message)
          ∨ (∃ m, teamData st' = teamData st ++ [m]
                  ∧ r = Response 200 (OneMember m)
                  ∧ name = Some (Member.name m)
                  ∧ Member.id m = team_id (Member.name m)
                  ∧ Member.id m ∉ Member.id <$> teamData st)))
  ∧ (∀ clk id name description admin r st',
       team_put clk id name description admin st = Done r st' →
       NoDup (Member.id <$> teamData st')
       ∧ Member.id <$> teamData st' = Member.id <$> teamData st)
  ∧ (∀ clk id admin r st',
       team_delete clk id admin st = Done r st' →
       NoDup (Member.id <$> teamData st')
       ∧ teamData st' `sublist_of` teamData st).
Proof.
  intros Hreach. pose proof (reachable_invariant _ Hreach) as Hinv.
  split; [apply Hinv|]. split; [apply initial_team_ids|].
  split; [|split].
  - intros clk name description admin r st' Hpost. split.
    + by apply (team_post_invariant _ _ _ _ _ _ _ Hinv Hpost).
    + by eapply team_post_result.
  - intros clk id name description admin r st' Hput. split.
    + by apply (team_put_invariant _ _ _ _ _ _ _ _ Hinv Hput).
    + by eapply team_put_ids.
  - intros clk id admin r st' Hdel. split.
    + by apply (team_delete_invariant _ _ _ _ _ _ Hinv Hdel).
    + unfold team_delete in Hdel. destruct (route_id id); [|by injection Hdel as _ <-].
      destruct (list_find _ _) as [[i m]|]; injection Hdel as _ <-; [|done].
      simpl. apply sublist_delete.
Qed.

End Roster.

(* ===================================================================== *)
(** ** Login *)
(* ===================================================================== *)

Lemma find_first {A} (f : A → bool) before c after :
  Forall (λ x, f x = false) before → f c = true →
  List.find f (before ++ c :: after) = Some c.
Proof.
  intros Hb Hc. induction Hb as [|x before Hx Hb IH]; simpl.
  - by rewrite Hc.
  - by rewrite Hx.
Qed.

Lemma find_nothing {A} (f : A → bool) l :
  Forall (λ x, f x = false) l → List.find f l = None.
Proof. induction 1 as [|x l Hx Hl IH]; simpl; [done | by rewrite Hx]. Qed.

Section Login.
Context `{Unicode}.

(** C9 (amended). For a name and a password that are not empty, the login
    is decided by the first stored credential, in the order they are stored,
    whose normalized name equals the normalized name supplied, or equals it
    once every [h] is removed from both: the login succeeds as that
    credential, with its [isMaster] flag, when its password is the one
    supplied, and answers 401 otherwise, later credentials not being
    tried; it answers 401 when no credential matches. *)
Theorem login_decided_by_first_match clk name password st :
  name ≠ [] → password ≠ [] →
  (∀ c, login_match name c = true ↔
        normalized name = normalized (Credential.name c)
        ∨ strip_h (normalized name) = strip_h (normalized (Credential.name c)))
  ∧ (∀ before c after,
       credentials st = before ++ c :: after →
       Forall (λ c', login_match name c' = false) before →
       login_match name c = true →
       (Credential.password c = password →
          ∃ st', handleLogin clk (Some name) (Some password) st
                 = Done (Response 200 (User (Credential.name c) (Credential.isMaster c))) st'
                 ∧ credentials st' = credentials st)
       ∧ (Credential.password c ≠ password →
          handleLogin clk (Some name) (Some password) st = Done (Response 401 Message) st))
  ∧ (Forall (λ c, login_match name c = false) (credentials st) →
     handleLogin clk (Some name) (Some password) st = Done (Response 401 Message) st).
Proof.
  intros Hname Hpw.
  assert (Hn : truthy (Some name) = true) by (by apply str_truthy_ne).
  assert (Hp : truthy (Some password) = true) by (by apply str_truthy_ne).
  split; [|split].
  - intros c. unfold login_match. rewrite orb_true_iff, !bool_decide_eq_true. done.
  - intros before c after Hcreds Hbefore Hc. unfold handleLogin.
    rewrite Hn, Hp, Hcreds. simpl. rewrite (find_first _ _ _ _ Hbefore Hc). split.
    + intros Heq. rewrite bool_decide_eq_true_2 by done. by eexists.
    + intros Hne. by rewrite bool_decide_eq_false_2.
  - intros Hnone. unfold handleLogin. rewrite Hn, Hp. simpl.
    by rewrite (find_nothing _ _ Hnone).
Qed.

End Login.

(* ===================================================================== *)
(** ** The audit log *)
(* ===================================================================== *)

Lemma master_names_snoc creds c :
  Credential.isMaster c = false → master_names (creds ++ [c]) = master_names creds.
Proof.
  intros Hc. unfold master_names. rewrite map_app, List.filter_app. simpl.
  rewrite Hc. simpl. by rewrite app_nil_r.
Qed.

Lemma master_names_set_password creds i c pw :
  creds !! i = Some c →
  master_names (<[i := Credential.mk (Credential.name c) pw (Credential.isMaster c)]> creds)
  = master_names creds.
Proof.
  intros Hi. unfold master_names. do 2 f_equal.
  change (map ?f ?l) with (f <$> l). rewrite list_fmap_insert. simpl.
  apply list_insert_id. by rewrite list_lookup_fmap, Hi.
Qed.

Lemma restore_users_credentials users st :
  credentials (restore_users users st) = credentials st.
Proof. by destruct (restore_users_frame users st) as (_ & _ & _ & _ & -> & _). Qed.

Section AuditLog.
Context `{Unicode}.

(** Case analysis on the branch a handler took. *)
Ltac handler_branches Hstep :=
  repeat match type of Hstep with
         | context [match ?x with _ => _ end] => destruct x eqn:?
         end;
  try discriminate Hstep.

(** No handler creates, removes or renames a master credential. *)
Lemma handle_master_names clk req st r st' :
  handle clk req st = Done r st' →
  master_names (credentials st') = master_names (credentials st).
Proof.
  intros Hstep. destruct req; simpl in Hstep.
  - unfold add in Hstep. handler_branches Hstep; by injection Hstep as _ <-.
  - by injection Hstep as _ <-.
  - unfold team_post in Hstep. handler_branches Hstep; by injection Hstep as _ <-.
  - unfold team_put in Hstep. handler_branches Hstep; by injection Hstep as _ <-.
  - unfold team_delete in Hstep. handler_branches Hstep; by injection Hstep as _ <-.
  - by injection Hstep as _ <-.
  - unfold entries_get in Hstep. handler_branches Hstep; by injection Hstep as _ <-.
  - unfold entry_put in Hstep. handler_branches Hstep; by injection Hstep as _ <-.
  - unfold users_delete in Hstep. handler_branches Hstep; by injection Hstep as _ <-.
  - unfold users_put in Hstep. handler_branches Hstep; injection Hstep as _ <-.
    all: try done.
    all: simpl; unfold userData_assign; by case_bool_decide.
  - unfold reset_month in Hstep. by injection Hstep as _ <-.
  - unfold restore_month in Hstep. handler_branches Hstep; injection Hstep as _ <-.
    all: try done.
    all: simpl; by rewrite restore_users_credentials.
  - by injection Hstep as _ <-.
  - unfold handleRegister in Hstep. handler_branches Hstep; injection Hstep as _ <-.
    all: try done.
    all: simpl; by apply master_names_snoc.
  - unfold handleLogin in Hstep. handler_branches Hstep; by injection Hstep as _ <-.
  - unfold change_password in Hstep.
    destruct (_ || _); [by injection Hstep as _ <-|].
    destruct (negb _); [by injection Hstep as _ <-|].
    destruct (list_find _ _) as [[i c]|] eqn:Hfind; injection Hstep as _ <-; [|done].
    simpl. apply master_names_set_password. by apply list_find_Some in Hfind as [? _].
  - by injection Hstep as _ <-.
  - unfold logs_delete in Hstep. handler_branches Hstep; by injection Hstep as _ <-.
  - unfold upload_hero in Hstep. handler_branches Hstep; by injection Hstep as _ <-.
Qed.

Lemma reachable_from_master_names st0 st :
  reachable_from st0 st → master_names (credentials st) = master_names (credentials st0).
Proof.
  induction 1 as [|st clk req r st' _ IH _ Hstep]; [done|].
  by rewrite (handle_master_names _ _ _ _ _ Hstep).
Qed.

Lemma toLowerCase_Esther : toLowerCase (js "Esther") = js "esther".
Proof. by rewrite toLowerCase_ascii. Qed.

(** C5 (amended). [DELETE /logs] answers 403 and leaves the log as it was
    for every actor that is missing or whose name differs, case ignored,
    from [Esther], the name written in the handler (the [isMaster] flags of
    the stored credentials are not read). For an actor whose name is
    [Esther], case ignored, it answers 200 and the log afterwards holds
    exactly one entry, the [clearLogs] action of that actor. [Esther] is the
    one credential flagged [isMaster] of the default credentials, and stays
    the only one in every state the server reaches when it was at startup. *)
Theorem clear_logs_only_for_Esther clk admin st :
  (truthy admin = false ∨ toLowerCase (param admin) ≠ toLowerCase (js "Esther") →
   logs_delete clk admin st = Done (Response 403 Message) st)
  ∧ (truthy admin = true →
     toLowerCase (param admin) = toLowerCase (js "Esther") →
     ∃ st',
       logs_delete clk admin st = Done (Response 200 Message) st'
       ∧ logs st' = [Log.mk (logStamp clk) (param admin) (js "clearLogs") Log.Empty]
       ∧ length (logs st') = 1%nat
       ∧ chartData st' = chartData st ∧ userData st' = userData st
       ∧ monthlyHistory st' = monthlyHistory st ∧ teamData st' = teamData st
       ∧ credentials st' = credentials st)
  ∧ master_names (loadCredentials None) = [js "Esther"]
  ∧ (∀ file iso,
       master_names (loadCredentials file) = [js "Esther"] →
       reachable_from (startup file iso) st →
       master_names (credentials st) = [js "Esther"]).
Proof.
  rewrite toLowerCase_Esther. split; [|split; [|split]].
  - intros [Hfalsy|Hne]; unfold logs_delete.
    + by rewrite Hfalsy.
    + rewrite (bool_decide_eq_false_2 _ Hne). simpl. by rewrite orb_true_r.
  - intros Htruthy Heq. unfold logs_delete.
    rewrite Htruthy, (bool_decide_eq_true_2 _ Heq). simpl.
    eexists. split; [reflexivity|]. simpl.
    apply truthy_param in Htruthy as [Hadm Hne].
    unfold or_default. rewrite Hadm. simpl.
    rewrite (proj2 (str_truthy_ne _) Hne). done.
  - done.
  - intros file iso Hfile Hreach.
    by rewrite (reachable_from_master_names _ _ Hreach).
Qed.

End AuditLog.

(* ===================================================================== *)
(** ** The properties on concrete runs *)
(* ===================================================================== *)

Lemma run_reachable `{Unicode} st0 reqs st st' :
  reachable_from st0 st →
  Forall (λ cr, clock_ok cr.1) reqs →
  run reqs st = Some st' →
  reachable_from st0 st'.
Proof.
  intros Hst Hclk. revert st Hst.
  induction Hclk as [|[clk req] reqs Hc Hclk IH]; intros st Hst; simpl.
  { by intros [= <-]. }
  destruct (handle clk req st) as [r st1|] eqn:Hstep; [|done].
  apply IH. by eapply reachable_step.
Qed.

Lemma clock_jan_ok : clock_ok clock_jan.
Proof. split; by vm_compute. Qed.

Lemma after_reachable reqs :
  Forall (λ cr, cr.1 = clock_jan) reqs →
  is_Some (run (H := ascii_runtime) reqs fresh) →
  reachable (H := ascii_runtime) (after reqs fresh).
Proof.
  intros Hclk [st Hrun]. exists None, iso_jan. split; [by vm_compute|].
  unfold after. rewrite Hrun. simpl.
  eapply run_reachable; [apply reachable_here | | exact Hrun].
  eapply Forall_impl; [exact Hclk|]. intros [clk req] ->. apply clock_jan_ok.
Qed.

Lemma ana_ledger_reachable : reachable (H := ascii_runtime) ana_ledger.
Proof. apply after_reachable; [by repeat constructor | by vm_compute; eexists]. Qed.

Lemma edit_entry_time_witness :
  ∃ st',
    entry_put clock_jan (Some (js "Ana")) (Some (js "1")) (Some (js "28/01/2026 08:00:00"))
              None ana_ledger
    = Done (Response 200 Message) st'
    ∧ Chart.labels (chartData st') !! 1%nat = Some (js "28/01/2026 08:00:00")
    ∧ Chart.labels (chartData st') !! 0%nat = Some (js "27/01/2026 12:30:00").
Proof.
  assert (Hget : obj_get (js "Ana") (userData ana_ledger) = Some ana_series)
    by (vm_compute; reflexivity).
  destruct (edit_entry_time_updates_both_series (H := ascii_runtime)
              clock_jan (js "Ana") (js "1") (js "28/01/2026 08:00:00") None
              ana_ledger ana_series ana_entries 1 (Entry.mk label_jan (JNum 30) 1)
              ana_ledger_reachable Hget eq_refl eq_refl eq_refl
              ltac:(by vm_compute))
    as (st' & s' & Hput & _ & _ & _ & _ & _ & _ & Hl & _ & _ & Hother & _).
  exists st'. split; [exact Hput|]. split; [exact Hl|].
  rewrite Hother by done. by vm_compute.
Defined.

Lemma deposits_keep_lengths_witness :
  ∃ st_1,
    deposit_all [mkDeposit clock_jan 50 (Some (js "Ana")) None] fresh = Some st_1
    ∧ length (Chart.labels (chartData st_1)) = length (Chart.values (chartData st_1))
    ∧ length (Chart.labels (chartData st_1)) = 1%nat
    ∧ length (Chart.values (chartData st_1)) = 1%nat.
Proof.
  destruct (deposits_keep_lengths
              [mkDeposit clock_jan 50 (Some (js "Ana")) None;
               mkDeposit clock_jan 30 (Some (js "Ana")) None]
              fresh ana_ledger
              ltac:(split; [reflexivity | constructor])
              ltac:(vm_compute; reflexivity)
              1%nat ltac:(simpl; lia))
    as (st_1 & Hrun & Heq & Hl & Hv & _).
  exists st_1. split; [exact Hrun|]. split; [exact Heq|]. split; [exact Hl | exact Hv].
Defined.

Lemma add_rejects_exactly_NaN_witness :
  add clock_jan nan (Some (js "Ana")) None ana_ledger = Done (Response 400 Message) ana_ledger.
Proof.
  exact (proj1 (proj2 (add_rejects_exactly_NaN clock_jan nan (Some (js "Ana")) None ana_ledger))
           eq_refl).
Defined.

(** C2, as stated, fails: [/add/Infinity] is answered 200 and the infinite
    amount is appended to the aggregate series. *)
Lemma add_accepts_infinity :
  PrimFloat.is_infinity infinity = true
  ∧ ∃ st', add clock_jan infinity None None fresh
           = Done (Response 200 (Deposited (Chart.mk [label_jan] [infinity]) [])) st'
           ∧ Chart.values (chartData st') = [infinity]
           ∧ Chart.labels (chartData st') = [label_jan].
Proof. split; [reflexivity|]. eexists. by vm_compute. Qed.

Lemma delete_contributor_witness :
  ∃ st',
    users_delete (H := ascii_runtime) clock_jan (js "ana") None ana_and_bia
    = Done (Response 200 Message) st'
    ∧ Participant.name <$> participants (H := ascii_runtime) st' = [js "Bia"]
    ∧ chartData st' = chartData ana_and_bia.
Proof.
  destruct (delete_contributor_removes_first_match (H := ascii_runtime)
              clock_jan (js "Ana") None ana_and_bia
              ltac:(by vm_compute) ltac:(vm_compute; reflexivity))
    as (st' & Hdel & _ & Hpart & Hchart & _).
  exists st'. split; [exact Hdel|]. split; [|exact Hchart].
  rewrite Hpart. by vm_compute.
Defined.

(** C7, as stated, fails: with the contributors [Ana] and [ana], deleting
    by the sanitized name of [ana] removes [Ana], and [ana] is still listed;
    and a contributor whose sanitized name is empty cannot be deleted, the
    request not reaching the handler. *)
Lemma delete_contributor_removes_another :
  (sanitizeName (H := ascii_runtime) (js "ana") = js "ana"
   ∧ Object_keys (userData two_anas) = [js "Ana"; js "ana"]
   ∧ ∃ st',
       users_delete (H := ascii_runtime) clock_jan (js "ana") None two_anas
       = Done (Response 200 Message) st'
       ∧ Participant.name <$> participants (H := ascii_runtime) st' = [js "ana"]
       ∧ obj_get (js "Ana") (userData st') = None
       ∧ obj_get (js "Ana") (userData two_anas) ≠ None)
  ∧ (sanitizeName (H := ascii_runtime) (js "!?") = []
     ∧ Object_keys (userData punctuation_ledger) = [js "!?"]
     ∧ users_delete (H := ascii_runtime) clock_jan [] None punctuation_ledger
       = Done StaticFile punctuation_ledger).
Proof.
  split.
  - split; [by vm_compute|]. split; [by vm_compute|]. eexists.
    split; [by vm_compute|]. split; [by vm_compute|]. split; by vm_compute.
  - repeat split; by vm_compute.
Qed.

Lemma rename_witness :
  ∃ st' moved,
    users_put (H := ascii_runtime) clock_jan (js "ana") (Some (js "Carla")) None ana_and_bia
    = Done (Response 200 (Renamed (js "Ana") (js "Carla"))) st'
    ∧ obj_get (js "Carla") (userData st') = Some moved
    ∧ Series.labels moved = [label_jan]
    ∧ Series.values moved = [JNum 50]
    ∧ obj_get (js "Ana") (userData st') = None
    ∧ obj_get (js "Bia") (userData st') = obj_get (js "Bia") (userData ana_and_bia).
Proof.
  destruct (rename_has_no_duplicate_check (H := ascii_runtime) clock_jan (js "ana")
              (js "Carla") None ana_and_bia (js "Ana")
              eq_refl ltac:(by vm_compute) ltac:(vm_compute; reflexivity) ltac:(by vm_compute))
    as (data & st' & Hget & Hput & _ & Hothers & Hmoved).
  destruct Hmoved as [(moved & Hnew & Hlabels & Hvalues) Hold];
    [apply (bool_decide_unpack _); by vm_compute | by vm_compute |].
  assert (Hdata : Some data = Some (Series.mk [label_jan] [JNum 50]
                                      (Some [Entry.mk label_jan (JNum 50) 0])))
    by (rewrite <- Hget; by vm_compute).
  injection Hdata as ->.
  exists st', moved. split; [exact Hput|]. split; [exact Hnew|].
  split; [exact Hlabels|]. split; [exact Hvalues|]. split; [exact Hold|].
  apply Hothers; by vm_compute.
Defined.

(** C4, as stated, fails: renaming [Ana] to [bia], whose id is the id of
    the existing contributor [Bia], is answered 200 and changes the ledger
    store; so is renaming [Ana] to [Bia] itself, and the deposit of [Bia] is
    then replaced by the one of [Ana]. *)
Lemma rename_onto_existing_is_accepted :
  (sanitizeName (H := ascii_runtime) (js "bia") = sanitizeName (H := ascii_runtime) (js "Bia")
   ∧ ∃ st',
       users_put (H := ascii_runtime) clock_jan (js "ana") (Some (js "bia")) None ana_and_bia
       = Done (Response 200 (Renamed (js "Ana") (js "bia"))) st'
       ∧ Object_keys (userData ana_and_bia) = [js "Ana"; js "Bia"]
       ∧ Object_keys (userData st') = [js "Bia"; js "bia"])
  ∧ (obj_get (js "Bia") (userData ana_and_bia)
     = Some (Series.mk [label_jan] [JNum 30] (Some [Entry.mk label_jan (JNum 30) 1]))
     ∧ ∃ st',
         users_put (H := ascii_runtime) clock_jan (js "ana") (Some (js "Bia")) None ana_and_bia
         = Done (Response 200 (Renamed (js "Ana") (js "Bia"))) st'
         ∧ userData st' = [(js "Bia", Series.mk [label_jan] [JNum 50] None)]).
Proof.
  split; (split; [by vm_compute|]); eexists; repeat split; by vm_compute.
Qed.

Lemma close_then_restore_witness :
  ∃ st2,
    restore_month clock_jan (Some (js "2026-01")) None
      (after [ (clock_jan, ResetMonth None); (clock_jan, Add 5 None None) ] ana_ledger)
    = Done (Response 200 (MonthRestored (js "2026-01"))) st2
    ∧ Chart.values (chartData st2) = [50%float; 30%float]
    ∧ Series.labels <$> obj_get (js "Ana") (userData st2) = Some [label_jan; label_jan]
    ∧ Series.values <$> obj_get (js "Ana") (userData st2) = Some [JNum 50; JNum 30].
Proof.
  destruct (close_then_restore (H := ascii_runtime) clock_jan None
              [(clock_jan, Add 5 None None)] clock_jan None ana_ledger
              (after [ (clock_jan, ResetMonth None); (clock_jan, Add 5 None None) ] ana_ledger)
              ana_ledger_reachable ltac:(constructor) ltac:(vm_compute; reflexivity))
    as (_ & st2 & Hres & _ & Hval & _ & _ & Hlabels & _ & Hstable & _).
  exists st2. split; [exact Hres|]. split; [rewrite Hval; by vm_compute|]. split.
  - rewrite Hlabels. by vm_compute.
  - apply (Hstable (js "Ana") ana_series); [by vm_compute|].
    repeat constructor.
Defined.

(** C1, as stated, fails four ways: the [entries] of a contributor are not
    restored; an infinite value of a contributor comes back as [null]; when
    the history already holds a snapshot with the period id, that older
    snapshot is the one restored; and the new period id the close of
    January answers with in February, [2026-02], names no snapshot. *)
Lemma close_then_restore_differs :
  (monthlyHistory ana_ledger = []
   ∧ obj_get (js "Ana") (userData ana_ledger) = Some ana_series
   ∧ obj_get (js "Ana") (userData (close_restore ana_ledger))
     = Some (Series.mk [label_jan; label_jan] [JNum 50; JNum 30] None))
  ∧ (monthlyHistory infinite_ledger = []
     ∧ Series.values <$> obj_get (js "Bia") (userData infinite_ledger)
       = Some [JNum infinity]
     ∧ Series.values <$> obj_get (js "Bia") (userData (close_restore infinite_ledger))
       = Some [JNull])
  ∧ (Snapshot.month <$> monthlyHistory second_period = [js "2026-01"]
     ∧ currentMonth second_period = js "2026-01"
     ∧ Chart.values (chartData second_period) = [20%float]
     ∧ Chart.values (chartData (close_restore second_period)) = [10%float])
  ∧ (∃ st1,
       reset_month clock_feb None ana_ledger
       = Done (Response 200 (MonthReset (js "2026-01") (js "2026-02"))) st1
       ∧ restore_month clock_feb (Some (js "2026-02")) None st1
         = Done (Response 404 Message) st1).
Proof.
  split; [|split; [|split]].
  - repeat split; by vm_compute.
  - repeat split; by vm_compute.
  - repeat split; by vm_compute.
  - exists (after [ (clock_feb, ResetMonth None) ] ana_ledger). split; by vm_compute.
Qed.

(** The failing input of C10: the ledger of Ana is closed and restored;
    Ana is back without [entries], and [/add/20?user=Ana] raises. *)
Lemma deposit_after_restore_witness :
  (∃ s1, obj_get (js "Ana") (userData (close_restore ana_ledger)) = Some s1
         ∧ Series.labels s1 = [label_jan; label_jan]
         ∧ Series.values s1 = [JNum 50; JNum 30]
         ∧ Series.entries s1 = None)
  ∧ entries_get (Some (js "Ana")) (close_restore ana_ledger)
    = Done (Response 404 Message) (close_restore ana_ledger)
  ∧ add clock_feb 20 (Some (js "Ana")) None (close_restore ana_ledger) = TypeError.
Proof.
  assert (Hreach : reachable (H := ascii_runtime)
                     (after [ (clock_jan, ResetMonth None) ] ana_ledger)).
  { change (after [ (clock_jan, ResetMonth None) ] ana_ledger)
      with (after [ (clock_jan, Add 50 (Some (js "Ana")) None);
                    (clock_jan, Add 30 (Some (js "Ana")) None);
                    (clock_jan, ResetMonth None) ] fresh).
    apply after_reachable; [by repeat constructor | by vm_compute; eexists]. }
  assert (Hrestore :
            restore_month clock_jan (Some (js "2026-01")) None
              (after [ (clock_jan, ResetMonth None) ] ana_ledger)
            = Done (Response 200 (MonthRestored (js "2026-01"))) (close_restore ana_ledger))
    by (vm_compute; reflexivity).
  destruct (deposit_after_restore_raises (H := ascii_runtime) _ _ _ _ _ _ Hreach Hrestore)
    as (h & Hfind & Hall).
  assert (Hh : Some h = Some (Snapshot.mk (js "2026-01")
                                (Chart.mk [label_jan; label_jan] [50%float; 30%float])
                                [ (js "Ana", ana_series) ] initial_team))
    by (rewrite <- Hfind; by vm_compute).
  injection Hh as ->.
  destruct (Hall (js "Ana") ana_series ltac:(by vm_compute))
    as ((s1 & Hget & Hlabels & Hvalues & Hentries) & Hlist & Hadd).
  split.
  { exists s1. split; [exact Hget|]. split; [exact Hlabels|].
    split; [exact Hvalues | exact Hentries]. }
  split.
  - destruct (Hlist [] (close_restore ana_ledger) ltac:(constructor) eq_refl) as [H404 _].
    exact H404.
  - apply Hadd. reflexivity.
Defined.

Lemma fresh_reachable : reachable (H := ascii_runtime) fresh.
Proof. exists None, iso_jan. split; [by vm_compute | apply reachable_here]. Qed.

Lemma roster_ids_witness :
  NoDup (Member.id <$> teamData fresh)
  ∧ ∃ st' m,
      team_put clock_jan (js "lia") (Some (js "Maria")) None None fresh
      = Done (Response 200 (OneMember m)) st'
      ∧ Member.id <$> teamData st' = [js "esther"; js "evelyn"; js "lia"].
Proof.
  destruct (roster_ids_stay_unique (H := ascii_runtime) fresh fresh_reachable)
    as (Hnodup & _ & _ & Hput & _).
  split; [exact Hnodup|].
  assert (Hrun : ∃ st' m, team_put clock_jan (js "lia") (Some (js "Maria")) None None fresh
                          = Done (Response 200 (OneMember m)) st').
  { eexists _, _. vm_compute. reflexivity. }
  destruct Hrun as (st' & m & Hrun). exists st', m. split; [exact Hrun|].
  destruct (Hput _ _ _ _ _ _ _ Hrun) as [_ ->]. by vm_compute.
Defined.

(** C8, as stated, fails: after [PUT /team/lia?name=Maria] the member named
    [Maria] still has the id [lia], which is not the id derived from its
    name. *)
Lemma roster_id_not_derived_after_update :
  ∃ st' m,
    team_put clock_jan (js "lia") (Some (js "Maria")) None None fresh
    = Done (Response 200 (OneMember m)) st'
    ∧ teamData st' !! 2%nat = Some m
    ∧ Member.name m = js "Maria"
    ∧ Member.id m = js "lia"
    ∧ team_id (H := ascii_runtime) (Member.name m) = js "maria".
Proof. eexists _, _. repeat split; by vm_compute. Qed.

Lemma login_witness :
  ∃ st', handleLogin (H := ascii_runtime) clock_jan (Some (js "Ester")) (Some (js "1705")) fresh
         = Done (Response 200 (User (js "Esther") true)) st'.
Proof.
  destruct (login_decided_by_first_match (H := ascii_runtime) clock_jan
              (js "Ester") (js "1705") fresh ltac:(by vm_compute) ltac:(by vm_compute))
    as (_ & Hfirst & _).
  destruct (Hfirst [] (Credential.mk (js "Esther") (js "1705") true) []
              eq_refl ltac:(constructor) ltac:(by vm_compute))
    as (Hok & _).
  destruct (Hok eq_refl) as (st' & Hlogin & _). by exists st'.
Defined.

(** C9, as stated, fails: the credential [Ester], registered next to
    [Esther], cannot log in with its own name and password, because the
    credential [Esther], stored before it, matches the name first; and a
    login without a password is answered 400, not 401. *)
Lemma login_second_match_refused :
  Credential.mk (js "Ester") (js "abc") false ∈ credentials with_ester
  ∧ login_match (H := ascii_runtime) (js "Ester") (Credential.mk (js "Ester") (js "abc") false)
    = true
  ∧ handleLogin (H := ascii_runtime) clock_jan (Some (js "Ester")) (Some (js "abc")) with_ester
    = Done (Response 401 Message) with_ester
  ∧ handleLogin (H := ascii_runtime) clock_jan (Some (js "Nobody")) None with_ester
    = Done (Response 400 Message) with_ester.
Proof.
  split; [|split; [|split]]; try by vm_compute.
  apply list_elem_of_lookup. exists 1%nat. by vm_compute.
Qed.

Lemma clear_logs_witness :
  ∃ st', logs_delete (H := ascii_runtime) clock_jan (Some (js "ESTHER")) ana_ledger
         = Done (Response 200 Message) st'
         ∧ length (logs st') = 1%nat.
Proof.
  destruct (clear_logs_only_for_Esther (H := ascii_runtime) clock_jan (Some (js "ESTHER"))
              ana_ledger) as (_ & Hclear & _).
  destruct (Hclear eq_refl ltac:(by vm_compute)) as (st' & Hdel & _ & Hlen & _).
  exists st'. split; [exact Hdel | exact Hlen].
Defined.

(** C5, as stated, fails: with a credentials file whose master account is
    [Maria], the master is refused and [Esther], who holds no credential,
    may clear the log. *)
Lemma clear_logs_ignores_isMaster :
  master_names (credentials maria_master) = [js "Maria"]
  ∧ logs_delete (H := ascii_runtime) clock_jan (Some (js "Maria")) maria_master
    = Done (Response 403 Message) maria_master
  ∧ status_of (logs_delete (H := ascii_runtime) clock_jan (Some (js "Esther")) maria_master)
    = Some 200.
Proof. repeat split; by vm_compute. Qed.

(* ===================================================================== *)
(** * Further properties of the request listener *)
(* ===================================================================== *)

(** Case analysis on the branch a handler took. *)
Ltac branch_cases Hstep :=
  repeat match type of Hstep with
         | context [match ?x with _ => _ end] => destruct x eqn:?
         end;
  try discriminate Hstep.


Section Listener.
Context `{Unicode}.

(** X1. A request that is answered with a status other than 200 and 201, or
    that falls through to the static files, leaves every store as it was:
    the handlers validate before they write. *)
Theorem refused_request_changes_nothing clk req st r st' :
  handle clk req st = Done r st' →
  (∀ b, r ≠ Response 200 b) → (∀ b, r ≠ Response 201 b) →
  st' = st.
Proof.
  intros Hstep H200 H201.
  destruct req; simpl in Hstep;
    unfold add, team_get, team_post, team_put, team_delete, participants_get,
      entries_get, entry_put, users_delete, users_put, reset_month, restore_month,
      history, handleRegister, handleLogin, change_password, logs_get, logs_delete,
      upload_hero in Hstep;
    branch_cases Hstep; injection Hstep as <- <-;
    try done; try (by exfalso; eapply H200); by exfalso; eapply H201.
Qed.


(** X3. The history of snapshots is append-only, and only
    [POST /reset-month] adds to it: one snapshot, filed under the current
    period id, that holds the aggregate series and the roster of the moment
    and a JSON copy of the contributors. [GET /history] lists the period ids
    in that order. *)
Theorem history_is_append_only clk req st r st' :
  handle clk req st = Done r st' →
  history st' = Done (Response 200 (Months (Snapshot.month <$> monthlyHistory st'))) st'
  ∧ (monthlyHistory st' = monthlyHistory st
     ∨ ∃ admin snapshot,
         req = ResetMonth admin
         ∧ monthlyHistory st' = monthlyHistory st ++ [snapshot]
         ∧ Snapshot.month snapshot = currentMonth st
         ∧ Chart.labels (Snapshot.chart snapshot) = Chart.labels (chartData st)
         ∧ Chart.values (Snapshot.chart snapshot) = Chart.values (chartData st)
         ∧ Snapshot.users snapshot = JSON_users (userData st)
         ∧ Snapshot.team snapshot = teamData st).
Proof.
  intros Hstep. split; [done|].
  destruct req; simpl in Hstep;
    unfold add, team_get, team_post, team_put, team_delete, participants_get,
      entries_get, entry_put, users_delete, users_put, restore_month,
      history, handleRegister, handleLogin, change_password, logs_get, logs_delete,
      upload_hero in Hstep.
  11: { unfold reset_month in Hstep. injection Hstep as <- <-. right.
        eexists _, _. split; [done|]. simpl. split; [done|]. simpl.
        repeat split; try done. apply JSON_team_id. }
  all: branch_cases Hstep; injection Hstep as <- <-; left; try done.
  - simpl. unfold userData_assign. by case_bool_decide.
  - simpl.
    by destruct (restore_users_frame (Snapshot.users t)
                   (set_userData [] (set_chartData
                      (Chart.mk (Chart.labels (Snapshot.chart t))
                                (Chart.values (Snapshot.chart t))) st)))
      as (_ & _ & -> & _).
Qed.

End Listener.

(* ===================================================================== *)
(** ** Accounts: registration, login, change of password *)
(* ===================================================================== *)

Section Accounts.
Context `{Unicode}.

(** What a handler does to the credentials: nothing, or the registration of
    a new name, or the change of the password of one credential. *)
Lemma handle_credentials clk req st r st' :
  handle clk req st = Done r st' →
  credentials st' = credentials st
  ∨ (∃ name password,
       req = Register (Some name) (Some password)
       ∧ r = Response 201 (User name false)
       ∧ name ≠ [] ∧ password ≠ []
       ∧ Forall (λ c, normalized (Credential.name c) ≠ normalized name) (credentials st)
       ∧ credentials st' = credentials st ++ [Credential.mk name password false])
  ∨ (∃ admin newPassword i c,
       req = ChangePassword (Some admin) (Some newPassword)
       ∧ normalized admin = js "esther" ∧ newPassword ≠ []
       ∧ list_find (λ c, toLowerCase (Credential.name c) = js "esther") (credentials st)
         = Some (i, c)
       ∧ credentials st'
         = <[i := Credential.mk (Credential.name c) newPassword (Credential.isMaster c)]>
             (credentials st)).
Proof.
  intros Hstep. destruct req; simpl in Hstep.
  14: { unfold handleRegister in Hstep.
        destruct (truthy name) eqn:Hn; simpl in Hstep; [|injection Hstep as <- <-; by left].
        destruct (truthy password) eqn:Hp; simpl in Hstep;
          [|injection Hstep as <- <-; by left].
        destruct (existsb _ _) eqn:Hex; injection Hstep as <- <-; [by left|].
        right. left. apply truthy_param in Hn as [Hn Hn'], Hp as [Hp Hp'].
        exists (param name), (param password). rewrite <- Hn, <- Hp.
        repeat split; try done.
        apply Forall_forall. intros c Hc Heq.
        assert (Htrue : existsb (λ c, bool_decide (normalized (Credential.name c)
                                                  = normalized (param name)))
                          (credentials st) = true).
        { apply existsb_exists. exists c. split; [by apply list_elem_of_In|].
          by apply bool_decide_eq_true. }
        congruence. }
  15: { unfold change_password in Hstep.
        destruct (truthy admin) eqn:Hn; simpl in Hstep; [|injection Hstep as <- <-; by left].
        destruct (truthy newPassword) eqn:Hp; simpl in Hstep;
          [|injection Hstep as <- <-; by left].
        case_bool_decide as Hesther; simpl in Hstep; [|injection Hstep as <- <-; by left].
        destruct (list_find _ _) as [[i c]|] eqn:Hfind; injection Hstep as <- <-; [|by left].
        right. right. apply truthy_param in Hn as [Hn Hn'], Hp as [Hp Hp'].
        exists (param admin), (param newPassword), i, c. rewrite <- Hn, <- Hp.
        repeat split; done. }
  all: left.
  all: unfold add, team_get, team_post, team_put, team_delete, participants_get,
         entries_get, entry_put, users_delete, users_put, reset_month, restore_month,
         history, handleLogin, logs_get, logs_delete, upload_hero in Hstep.
  all: branch_cases Hstep; injection Hstep as <- <-; try done.
  - simpl. unfold userData_assign. by case_bool_decide.
  - simpl. by rewrite restore_users_credentials.
Qed.

Lemma normalized_Esther : normalized (js "Esther") = js "esther".
Proof.
  unfold normalized. rewrite normalizeNFD_ascii by done.
  by rewrite toLowerCase_ascii.
Qed.

(** X4. For a name and a password that are not empty, [handleRegister]
    answers 409 exactly when a stored credential has the same normalized
    name, and then changes nothing; otherwise it answers 201, stores the
    name and the password as given, never as a master account, after the
    credentials it held, and logs the registration. *)
Theorem register_refuses_exactly_taken_names clk name password st :
  name ≠ [] → password ≠ [] →
  (status_of (handleRegister clk (Some name) (Some password) st) = Some 409
   ↔ ∃ c, c ∈ credentials st ∧ normalized (Credential.name c) = normalized name)
  ∧ ((∃ c, c ∈ credentials st ∧ normalized (Credential.name c) = normalized name) →
     handleRegister clk (Some name) (Some password) st = Done (Response 409 Message) st)
  ∧ (Forall (λ c, normalized (Credential.name c) ≠ normalized name) (credentials st) →
     ∃ st',
       handleRegister clk (Some name) (Some password) st
       = Done (Response 201 (User name false)) st'
       ∧ credentials st' = credentials st ++ [Credential.mk name password false]
       ∧ logs st' = logs st ++ [Log.mk (logStamp clk) name (js "register") Log.Empty]
       ∧ chartData st' = chartData st ∧ userData st' = userData st
       ∧ teamData st' = teamData st ∧ monthlyHistory st' = monthlyHistory st).
Proof.
  intros Hname Hpw.
  assert (Hn : truthy (Some name) = true) by (by apply str_truthy_ne).
  assert (Hp : truthy (Some password) = true) by (by apply str_truthy_ne).
  assert (Hex : existsb (λ c, bool_decide (normalized (Credential.name c) = normalized name))
                  (credentials st) = true
                ↔ ∃ c, c ∈ credentials st ∧ normalized (Credential.name c) = normalized name).
  { rewrite existsb_exists. split; intros (c & Hc & Heq); exists c.
    - split; [by apply list_elem_of_In | by apply bool_decide_eq_true in Heq].
    - split; [by apply list_elem_of_In | by apply bool_decide_eq_true]. }
  unfold handleRegister. rewrite Hn, Hp. simpl. split; [|split].
  - destruct (existsb _ _) eqn:Hb; simpl.
    + split; [intros _; by apply Hex | done].
    + split; [done|]. intros Hc. apply Hex in Hc. congruence.
  - intros Hc. apply Hex in Hc. by rewrite Hc.
  - intros Hnone. destruct (existsb _ _) eqn:Hb.
    + destruct (proj1 Hex eq_refl) as (c & Hc & Heq). rewrite Forall_forall in Hnone.
      by destruct (Hnone c Hc).
    + eexists. split; [reflexivity|]. simpl.
      rewrite (proj2 (str_truthy_ne name) Hname). done.
Qed.

Lemma handle_names_distinct clk req st r st' :
  handle clk req st = Done r st' →
  names_distinct (credentials st) → names_distinct (credentials st').
Proof.
  intros Hstep Hd. unfold names_distinct in *.
  destruct (handle_credentials _ _ _ _ _ Hstep)
    as [-> | [(name & password & _ & _ & _ & _ & Hfresh & ->)
             | (admin & pw & i & c & _ & _ & _ & Hfind & ->)]]; [done| |].
  - rewrite fmap_app. apply NoDup_app. split; [done|]. split; [|apply NoDup_singleton].
    intros x Hx. csimpl. rewrite list_elem_of_singleton. intros ->.
    apply list_elem_of_fmap in Hx as (c & Hc & Hin).
    rewrite Forall_forall in Hfresh. by apply (Hfresh c Hin).
  - apply list_find_Some in Hfind as (Hi & _).
    rewrite list_fmap_insert. simpl. rewrite list_insert_id; [done|].
    by rewrite list_lookup_fmap, Hi.
Qed.

(** X5. Registration keeps the stored names apart: when the credentials the
    server started with bear pairwise distinct normalized names, as the
    default credentials do, so do the credentials of every state it
    reaches. *)
Theorem names_stay_distinct st0 st :
  names_distinct (credentials st0) →
  reachable_from st0 st →
  names_distinct (credentials st) ∧ names_distinct default_credentials.
Proof.
  intros H0 Hreach. split.
  - induction Hreach as [|st clk req r st' _ IH _ Hstep]; [done|].
    by eapply handle_names_distinct.
  - unfold names_distinct, default_credentials. csimpl. apply NoDup_singleton.
Qed.

(** X6. Registration then login: after [handleRegister] has accepted a name
    and a password, [handleLogin] with the same name and password answers
    200 as the new account, not a master, provided no credential stored
    before matches the name once every [h] is removed. *)
Theorem register_then_login clk clk' name password st r st1 :
  handleRegister clk (Some name) (Some password) st = Done (Response 201 r) st1 →
  Forall (λ c, login_match name c = false) (credentials st) →
  ∃ st2,
    handleLogin clk' (Some name) (Some password) st1
    = Done (Response 200 (User name false)) st2
    ∧ credentials st2 = credentials st1
    ∧ logs st2 = logs st1 ++ [Log.mk (logStamp clk') name (js "login") Log.Empty].
Proof.
  intros Hreg Hnone.
  destruct (handle_credentials clk (Register (Some name) (Some password)) st _ _ Hreg)
    as [Hsame | [(n & p & Hreq & _ & Hn & Hp & _ & Hcreds) | (a & p & i & c & Hreq & _)]];
    [| |discriminate].
  { exfalso. unfold handleRegister in Hreg. branch_cases Hreg.
    injection Hreg as _ <-. simpl in Hsame.
    apply (f_equal length) in Hsame. rewrite length_app in Hsame. simpl in Hsame. lia. }
  injection Hreq as <- <-.
  unfold handleLogin.
  rewrite (proj2 (str_truthy_ne name) Hn : truthy (Some name) = true).
  rewrite (proj2 (str_truthy_ne password) Hp : truthy (Some password) = true).
  simpl. rewrite Hcreds. rewrite (find_first _ _ _ [] Hnone).
  - simpl. rewrite bool_decide_eq_true_2 by done. eexists. split; [reflexivity|].
    simpl. rewrite (proj2 (str_truthy_ne name) Hn). done.
  - unfold login_match. simpl. by rewrite bool_decide_eq_true_2.
Qed.

Lemma handle_esther_first clk req st r st' :
  handle clk req st = Done r st' →
  esther_first (credentials st) → esther_first (credentials st').
Proof.
  intros Hstep (pw0 & rest & Hc).
  destruct (handle_credentials _ _ _ _ _ Hstep)
    as [-> | [(name & password & _ & _ & _ & _ & _ & ->)
             | (admin & pw & i & c & _ & _ & _ & Hfind & ->)]].
  - by exists pw0, rest.
  - rewrite Hc. by exists pw0, (rest ++ [Credential.mk name password false]).
  - rewrite Hc in Hfind |- *. simpl in Hfind.
    rewrite decide_True in Hfind by apply toLowerCase_Esther.
    injection Hfind as <- <-. simpl. by eexists _, _.
Qed.

(** X7. Change of password then login: in every state reached from a start
    whose first credential is the master account [Esther], as the default
    credentials are, [PUT /change-password] for an actor whose normalized
    name is [esther] and a new password that is not empty answers 200
    without asking for the previous password; afterwards a login as
    [Esther] answers 200, as master, with the new password and 401 with
    every other password. *)
Theorem change_password_then_login clk clk' admin newPassword st0 st :
  esther_first (credentials st0) →
  reachable_from st0 st →
  normalized admin = js "esther" → admin ≠ [] → newPassword ≠ [] →
  ∃ st1,
    change_password clk (Some admin) (Some newPassword) st = Done (Response 200 Message) st1
    ∧ (∃ st2, handleLogin clk' (Some (js "Esther")) (Some newPassword) st1
              = Done (Response 200 (User (js "Esther") true)) st2)
    ∧ (∀ other, other ≠ newPassword →
         status_of (handleLogin clk' (Some (js "Esther")) (Some other) st1)
         = Some (if str_truthy other then 401 else 400)).
Proof.
  intros H0 Hreach Hadmin Hne Hpw.
  assert (Hfirst : esther_first (credentials st)).
  { induction Hreach as [|st clk0 req r st' _ IH _ Hstep]; [done|].
    by eapply handle_esther_first. }
  destruct Hfirst as (pw0 & rest & Hc).
  unfold change_password.
  rewrite (proj2 (str_truthy_ne admin) Hne : truthy (Some admin) = true).
  rewrite (proj2 (str_truthy_ne newPassword) Hpw : truthy (Some newPassword) = true).
  simpl. rewrite bool_decide_eq_true_2 by done. simpl.
  rewrite Hc. simpl. rewrite decide_True by apply toLowerCase_Esther. simpl.
  eexists. split; [reflexivity|].
  assert (Hmatch : login_match (js "Esther") (Credential.mk (js "Esther") newPassword true)
                   = true).
  { unfold login_match. simpl. by rewrite bool_decide_eq_true_2. }
  split.
  - unfold handleLogin.
    rewrite (proj2 (str_truthy_ne newPassword) Hpw : truthy (Some newPassword) = true).
    simpl. rewrite Hmatch. simpl. rewrite bool_decide_eq_true_2 by done. by eexists.
  - intros other Hother. unfold handleLogin. simpl.
    destruct (str_truthy other); simpl; [|done].
    rewrite Hmatch. simpl. by rewrite bool_decide_eq_false_2.
Qed.

End Accounts.

(* ===================================================================== *)
(** ** Identifiers *)
(* ===================================================================== *)

Lemma is_lower_word_of_word c : is_word c = true → is_lower_word (ascii_lower c) = true.
Proof.
  unfold is_word, is_lower_word, ascii_lower, in_range.
  destruct ((65 <=? c) && (c <=? 90)) eqn:Hup.
  - apply andb_true_iff in Hup as [H1 H2]. apply N.leb_le in H1, H2. intros _.
    rewrite !orb_true_iff, !andb_true_iff, !N.leb_le, N.eqb_eq. lia.
  - rewrite !orb_true_iff. intros [[[Hu|Hl]|Hd]|Hu']; try tauto. congruence.
Qed.

Lemma is_lower_word_facts c :
  is_lower_word c = true →
  is_ascii c = true ∧ is_word c = true ∧ is_space c = false
  ∧ is_combining_mark c = false ∧ ascii_lower c = c.
Proof.
  unfold is_lower_word, is_ascii, is_word, is_space, is_combining_mark, ascii_lower, in_range.
  intros Hc. rewrite !orb_true_iff, !andb_true_iff, !N.leb_le, N.eqb_eq in Hc.
  assert (Hr : 48 ≤ c ≤ 122) by lia.
  split; [apply N.ltb_lt; lia|]. split.
  { rewrite !orb_true_iff, !andb_true_iff, !N.leb_le, N.eqb_eq. lia. }
  split.
  { rewrite !orb_false_iff, !andb_false_iff, !N.leb_gt, !N.eqb_neq. lia. }
  split.
  { rewrite andb_false_iff, !N.leb_gt. lia. }
  destruct ((65 <=? c) && (c <=? 90)) eqn:Hup; [|done].
  apply andb_true_iff in Hup as [H1 H2]. apply N.leb_le in H1, H2. lia.
Qed.

Lemma filter_all {A} (f : A → bool) l : forallb f l = true → List.filter f l = l.
Proof.
  induction l as [|x l IH]; simpl; [done|].
  intros [Hx Hl]%andb_true_iff. by rewrite Hx, IH.
Qed.

Lemma spaces_to_underscore_no_space s :
  forallb (λ c, negb (is_space c)) s = true → spaces_to_underscore false s = s.
Proof.
  induction s as [|c s IH]; simpl; [done|].
  intros [Hc Hs]%andb_true_iff. apply negb_true_iff in Hc. by rewrite Hc, IH.
Qed.

Lemma forallb_impl {A} (f g : A → bool) l :
  (∀ x, f x = true → g x = true) → forallb f l = true → forallb g l = true.
Proof.
  intros Himp. rewrite !forallb_forall. intros Hf x Hx. by apply Himp, Hf.
Qed.

Section Identifiers.
Context `{Unicode}.

Lemma sanitizeId_word name : forallb is_word (sanitizeId name) = true.
Proof.
  unfold sanitizeId, strip_non_word. apply forallb_forall. intros c Hc.
  apply filter_In in Hc. tauto.
Qed.

Lemma sanitizeName_sanitizeId name :
  sanitizeName name = map ascii_lower (sanitizeId name).
Proof.
  unfold sanitizeName. fold (sanitizeId name). apply toLowerCase_ascii.
  eapply forallb_impl; [apply is_word_ascii | apply sanitizeId_word].
Qed.

Lemma sanitizeName_lower_word name : forallb is_lower_word (sanitizeName name) = true.
Proof.
  rewrite sanitizeName_sanitizeId. apply forallb_forall. intros c Hc.
  apply in_map_iff in Hc as (c0 & <- & Hc0). apply is_lower_word_of_word.
  pose proof (sanitizeId_word name) as Hw. rewrite forallb_forall in Hw. by apply Hw.
Qed.

(** X8. [sanitizeName] returns only the characters [a-z0-9_], whatever the
    name, and leaves unchanged a string made of these characters: the id of
    a contributor is its own id. *)
Theorem sanitizeName_idempotent name :
  forallb is_lower_word (sanitizeName name) = true
  ∧ sanitizeName (sanitizeName name) = sanitizeName name
  ∧ (∀ s, forallb is_lower_word s = true → sanitizeName s = s).
Proof.
  assert (Hfix : ∀ s, forallb is_lower_word s = true → sanitizeName s = s).
  { intros s Hs. unfold sanitizeName.
    rewrite normalizeNFD_ascii
      by (eapply forallb_impl; [|exact Hs]; intros c Hc; by apply is_lower_word_facts).
    unfold strip_marks. rewrite filter_all.
    2: { eapply forallb_impl; [|exact Hs]. intros c Hc.
         apply negb_true_iff. by apply is_lower_word_facts. }
    rewrite spaces_to_underscore_no_space.
    2: { eapply forallb_impl; [|exact Hs]. intros c Hc.
         apply negb_true_iff. by apply is_lower_word_facts. }
    unfold strip_non_word. rewrite filter_all
      by (eapply forallb_impl; [|exact Hs]; intros c Hc; by apply is_lower_word_facts).
    rewrite toLowerCase_ascii
      by (eapply forallb_impl; [|exact Hs]; intros c Hc; by apply is_lower_word_facts).
    rewrite forallb_forall in Hs. clear -Hs.
    induction s as [|c s IH]; simpl; [done|]. f_equal.
    - apply is_lower_word_facts, Hs. by left.
    - apply IH. intros x Hx. apply Hs. by right. }
  split; [apply sanitizeName_lower_word|]. split; [|exact Hfix].
  apply Hfix, sanitizeName_lower_word.
Qed.

(** X9. The id the page derives from a name ([sanitizeId]) holds only the
    characters [A-Za-z0-9_], and the id the server derives from the same
    name ([sanitizeName]) is that id with [A-Z] lowered: the two differ by
    case only. *)
Theorem server_id_is_lowered_page_id name :
  forallb is_word (sanitizeId name) = true
  ∧ sanitizeName name = map ascii_lower (sanitizeId name)
  ∧ length (sanitizeName name) = length (sanitizeId name).
Proof.
  split; [apply sanitizeId_word|]. split; [apply sanitizeName_sanitizeId|].
  by rewrite sanitizeName_sanitizeId, length_map.
Qed.

End Identifiers.

(* ===================================================================== *)
(** ** The charts of the page *)
(* ===================================================================== *)

Lemma sum_values_snoc values v :
  sum_values (values ++ [v]) = PrimFloat.add (sum_values values) (toNumber v).
Proof. unfold sum_values. by rewrite fold_left_app. Qed.

Lemma cumulative_from_length sum arr : length (cumulative_from sum arr) = length arr.
Proof.
  revert sum. induction arr as [|v arr IH]; intros sum; simpl; [done|]. by rewrite IH.
Qed.

Lemma cumulative_from_lookup sum arr (k : nat) :
  (k < length arr)%nat →
  cumulative_from sum arr !! k
  = Some (fold_left (λ sum v, PrimFloat.add sum (toNumber v)) (take (S k) arr) sum).
Proof.
  revert sum k. induction arr as [|v arr IH]; intros sum k Hk; simpl in *; [lia|].
  destruct k as [|k]; simpl; [done|].
  rewrite IH by lia. done.
Qed.

(** X10. [computeCumulative] returns one element more than it is given:
    the element at [k] is the sum, from the left, of the first [k] values
    ([null] counting for nothing), so the first is 0 and the last is the
    total of the values. *)
Theorem computeCumulative_running_sums arr :
  length (computeCumulative arr) = S (length arr)
  ∧ (∀ k, (k ≤ length arr)%nat →
       computeCumulative arr !! k = Some (sum_values (take k arr)))
  ∧ computeCumulative arr !! 0%nat = Some 0%float
  ∧ last (computeCumulative arr) = Some (sum_values arr).
Proof.
  assert (Hk : ∀ k, (k ≤ length arr)%nat →
                 computeCumulative arr !! k = Some (sum_values (take k arr))).
  { intros [|k] Hle; unfold computeCumulative; simpl.
    - by rewrite take_0.
    - rewrite cumulative_from_lookup by lia. done. }
  assert (Hlen : length (computeCumulative arr) = S (length arr)).
  { unfold computeCumulative. simpl. by rewrite cumulative_from_length. }
  split; [exact Hlen|]. split; [exact Hk|]. split; [by apply (Hk 0%nat); lia|].
  rewrite last_lookup, Hlen. simpl. rewrite Hk by lia. by rewrite firstn_all.
Qed.

(** X11. [updateChart] on a series with as many labels as values, not
    empty, gives the chart as many labels as points: the first label twice,
    for the point 0 the data starts with. On an empty series it gives no
    label and one point, 0. *)
Theorem updateChart_aligns_labels newLabels newValues :
  length newLabels = length newValues →
  (newLabels ≠ [] →
     length (updateChart newLabels newValues).1 = length (updateChart newLabels newValues).2
     ∧ (updateChart newLabels newValues).1 !! 0%nat = newLabels !! 0%nat
     ∧ (∀ k, (updateChart newLabels newValues).1 !! S k = newLabels !! k))
  ∧ (newLabels = [] → updateChart newLabels newValues = ([], [0%float])).
Proof.
  intros Hlen. split.
  - intros Hne. destruct newLabels as [|first rest]; [done|].
    unfold updateChart, computeCumulative. simpl in *.
    rewrite cumulative_from_length. split; [lia|]. split; done.
  - intros ->. destruct newValues; [done | discriminate].
Qed.

(* ===================================================================== *)
(** ** What can raise *)
(* ===================================================================== *)

Section Raising.
Context `{Unicode}.

(** X12. Among the requests of the embedding (every parameter a string or
    [undefined], the stores of the shapes the handlers write), the only one
    that raises is a deposit, of an amount that is not NaN, attributed to a
    name (not empty) that [userData] either holds without [entries] or reads
    from its prototype chain ([toString], [__proto__], ...). Every other
    request is answered, in every state: [PUT /entry] and [PUT /users/:id]
    never read a property of a missing object. *)
Theorem only_some_deposits_raise clk req st :
  handle clk req st = TypeError
  ↔ ∃ amount c admin,
      req = Add amount (Some c) admin
      ∧ isNaN amount = false ∧ c ≠ []
      ∧ (userData_get c st = Inherited
         ∨ ∃ data, userData_get c st = Own data ∧ Series.entries data = None).
Proof.
  split.
  - intros Hstep. destruct req; simpl in Hstep;
      try (unfold team_get, team_post, team_put, team_delete, participants_get,
             entries_get, users_delete, reset_month, restore_month, history,
             handleRegister, handleLogin, change_password, logs_get, logs_delete,
             upload_hero in Hstep;
           branch_cases Hstep; fail).
    + unfold add in Hstep. destruct (isNaN amount) eqn:Hnan; simpl in Hstep; [done|].
      destruct (truthy user) eqn:Hu; [|done].
      apply truthy_param in Hu as [-> Hne]. exists amount, (param user), admin.
      repeat split; try done. unfold deposit_series in Hstep.
      destruct (userData_get (param user) st) as [data| |]; [|by left|].
      * destruct (Series.entries data) eqn:Hes; [done|]. right. by exists data.
      * done.
    + exfalso. unfold entry_put in Hstep.
      destruct (_ || _); [done|]. destruct (parseInt10 _) as [idx|]; [|done].
      destruct (userData_get _ _) as [data| |]; try done.
      destruct (Series.entries data) as [es|]; [|done].
      destruct ((idx <? 0)%Z || (Z.of_nat (length es) <=? idx)%Z) eqn:Hrange; [done|].
      apply orb_false_iff in Hrange as [H0 Hlen].
      apply Z.ltb_ge in H0. apply Z.leb_gt in Hlen.
      destruct (lookup_lt_is_Some_2 es (Z.to_nat idx)) as [e He]; [lia|].
      by rewrite He in Hstep.
    + exfalso. unfold users_put in Hstep.
      destruct (route_id id); [|done]. destruct (negb _); [done|].
      destruct (find_key id st) as [key|] eqn:Hfind; [|done].
      destruct (str_truthy key); [|done].
      destruct (find_key_own _ _ _ Hfind) as [[data Hget] _]. by rewrite Hget in Hstep.
  - intros (amount & c & admin & -> & Hnan & Hc & Hget). simpl.
    unfold add, deposit_series. rewrite Hnan. simpl.
    rewrite (proj2 (str_truthy_ne c) Hc).
    destruct Hget as [-> | (data & -> & ->)]; done.
Qed.

End Raising.

(* ===================================================================== *)
(** ** The list of participants *)
(* ===================================================================== *)

Lemma canonical_keys_NoDup ks : canonical_keys ks → NoDup ks.
Proof. induction 1; by constructor. Qed.

Lemma map_obj_replace {A B} (f : jsstring * A → B) k v (o : obj A) :
  NoDup o.*1 → k ∈ o.*1 →
  map f (obj_replace k v o)
  = map (λ p, if bool_decide (p.1 = k) then f (k, v) else f p) o.
Proof.
  induction o as [|[k' v'] o IH]; csimpl; intros Hnd Hin; [done|].
  inversion Hnd as [|? ? Hk' Hnd']; subst.
  case_bool_decide as Hk; simpl.
  - subst k'. f_equal. clear -Hk'. induction o as [|[k2 v2] o IH]; csimpl; [done|].
    apply not_elem_of_cons in Hk' as [Hne Hk'].
    rewrite bool_decide_eq_false_2 by done. f_equal. by apply IH.
  - f_equal. apply IH; [done|]. apply elem_of_cons in Hin as [->|Hin]; done.
Qed.

Section Participants.
Context `{Unicode}.

(** X13. In a reachable state, a deposit attributed to a contributor that
    has its [entries] is answered 200 and changes one item of the list
    [GET /participants] gives, the one of that contributor: its count grows
    by one and its total by the amount; the other items, and the order of
    the list, stay. A deposit attributed to nobody leaves the list as it
    was. *)
Theorem deposit_updates_one_participant clk amount c admin st s es :
  reachable st →
  isNaN amount = false →
  obj_get c (userData st) = Some s →
  Series.entries s = Some es →
  (∃ body st',
     add clk amount (Some c) admin st = Done (Response 200 body) st'
     ∧ participants st'
       = map (λ p, if bool_decide (Participant.name p = c)
                   then Participant.mk (Participant.id p) (Participant.name p)
                          (S (Participant.count p))
                          (PrimFloat.add (Participant.total p) amount)
                   else p)
             (participants st))
  ∧ (∃ body st',
       add clk amount None admin st = Done (Response 200 body) st'
       ∧ participants st' = participants st).
Proof.
  intros Hreach Hnan Hget Hes.
  destruct (reachable_invariant _ Hreach) as [I1 I2 I3 I4 I5 I6].
  pose proof (obj_get_elem_of _ _ _ Hget) as Hin.
  rewrite Forall_forall in I3. destruct (I3 _ Hin) as ([Hc _] & _). simpl in Hc.
  split.
  - unfold add, deposit_series. rewrite Hnan. simpl.
    rewrite (proj2 (str_truthy_ne c) Hc).
    rewrite (proj2 (userData_get_Own c st s) Hget), Hes.
    eexists _, _. split; [reflexivity|].
    unfold participants. simpl. unfold obj_set. rewrite Hget.
    rewrite map_obj_replace;
      [| by apply canonical_keys_NoDup | by eapply obj_get_Some_key].
    rewrite map_map. apply map_ext_in. intros [k s0] Hk. simpl.
    case_bool_decide as Heq; [|done]. subst k.
    assert (Hs0 : s0 = s).
    { apply list_elem_of_In in Hk.
      assert (Hget0 : obj_get c (userData st) = Some s0).
      { clear -Hk I2. apply canonical_keys_NoDup in I2.
        induction (userData st) as [|[k v] o IH]; [by apply elem_of_nil in Hk|].
        csimpl in *. inversion I2 as [|? ? Hnin Hnd]; subst.
        apply elem_of_cons in Hk as [[= <- <-]|Hk].
        - by rewrite bool_decide_eq_true_2.
        - case_bool_decide as Hkc; [|by apply IH].
          subst k. exfalso. apply Hnin.
          apply list_elem_of_fmap. by exists (c, s0). }
      congruence. }
    subst s0. f_equal.
    + by rewrite length_app, Nat.add_comm.
    + apply sum_values_snoc.
  - unfold add. rewrite Hnan. simpl. by eexists _, _.
Qed.

End Participants.

(* ===================================================================== *)
(** ** Editing an entry and listing the entries *)
(* ===================================================================== *)

Lemma imap_insert {A B} (f : nat → A → B) (i : nat) x (l : list A) :
  imap f (<[i := x]> l) = <[i := f i x]> (imap f l).
Proof.
  apply list_eq. intros j. rewrite list_lookup_imap.
  destruct (decide (j = i)) as [->|Hne].
  - destruct (decide (i < length l)%nat) as [Hlt|Hge].
    + rewrite !list_lookup_insert_eq by (by rewrite ?length_imap). done.
    + rewrite !list_insert_ge by (rewrite ?length_imap; lia).
      by rewrite list_lookup_imap.
  - rewrite !list_lookup_insert_ne by done. by rewrite list_lookup_imap.
Qed.

Section Entries.
Context `{Unicode}.

(** X14. In every state, when [PUT /entry] answers 200 for a contributor,
    an index and a new time, the index is a number [i] that
    [GET /entries] listed for that contributor before, and the list
    [GET /entries] gives afterwards is the list before with the time of
    item [i] replaced by the new time: the item keeps its index and its
    value, and no other item changes. *)
Theorem edit_then_list_entries clk c index newTime admin st st' :
  entry_put clk (Some c) (Some index) (Some newTime) admin st
    = Done (Response 200 Message) st' →
  ∃ (i : nat) items oldTime value,
    parseInt10 index = Some (Z.of_nat i)
    ∧ entries_get (Some c) st = Done (Response 200 (EntryList items)) st
    ∧ items !! i = Some (i, oldTime, value)
    ∧ entries_get (Some c) st'
      = Done (Response 200 (EntryList (<[i := (i, newTime, value)]> items))) st'.
Proof.
  unfold entry_put, entries_get. intros Hput.
  destruct (truthy (Some c)) eqn:Hc; [|done].
  destruct (truthy (Some newTime)) eqn:Ht; [|by rewrite orb_true_r in Hput].
  rewrite bool_decide_eq_true_2 in Hput by eauto. simpl in Hput.
  destruct (parseInt10 index) as [idx|] eqn:Hidx; [|done].
  destruct (userData_get c st) as [data| |] eqn:Hget; try done.
  destruct (Series.entries data) as [es|] eqn:Hes; [|done].
  destruct ((idx <? 0)%Z || (Z.of_nat (length es) <=? idx)%Z) eqn:Hrange; [done|].
  apply orb_false_iff in Hrange as [H0 Hlen].
  apply Z.ltb_ge in H0. apply Z.leb_gt in Hlen.
  destruct (es !! Z.to_nat idx) as [e|] eqn:He; [|done].
  injection Hput as <-.
  exists (Z.to_nat idx), (imap (λ idx e, (idx, Entry.time e, Entry.value e)) es),
    (Entry.time e), (Entry.value e).
  rewrite Z2Nat.id by done. simpl. rewrite Hget, Hes.
  split; [done|]. split; [done|].
  split; [by rewrite list_lookup_imap, He|].
  unfold userData_get. simpl. rewrite obj_get_set_eq. simpl.
  by rewrite imap_insert.
Qed.

End Entries.

(* ===================================================================== *)
(** ** The roster: creating, deleting, and ids no route reaches *)
(* ===================================================================== *)

Lemma delete_last_snoc {A} (l : list A) x : delete (length l) (l ++ [x]) = l.
Proof. induction l as [|y l IH]; simpl; [done|]. by rewrite IH. Qed.

Lemma list_find_snoc {A} (P : A → Prop) `{∀ x, Decision (P x)} (l : list A) x :
  list_find P l = None → P x → list_find P (l ++ [x]) = Some (length l, x).
Proof.
  intros Hnone HP. apply list_find_Some. apply list_find_None in Hnone.
  split; [by rewrite lookup_app_r, Nat.sub_diag|]. split; [done|].
  intros j y Hj Hlt. rewrite lookup_app_l in Hj by done.
  rewrite Forall_forall in Hnone. apply Hnone. by eapply list_elem_of_lookup_2.
Qed.

Lemma elem_of_insert_other {A} (l : list A) (i : nat) x y z :
  l !! i = Some y → y ≠ z → z ∈ l → z ∈ <[i := x]> l.
Proof.
  intros Hi Hne Hz. apply list_elem_of_lookup in Hz as [j Hj].
  apply list_elem_of_lookup. exists j.
  rewrite list_lookup_insert_ne; [done|]. intros ->. congruence.
Qed.

Lemma elem_of_delete_other {A} (l : list A) (i : nat) y z :
  l !! i = Some y → y ≠ z → z ∈ l → z ∈ delete i l.
Proof.
  intros Hi Hne Hz. apply list_elem_of_lookup in Hz as [j Hj].
  apply list_elem_of_lookup.
  destruct (decide (j < i)%nat) as [Hlt|Hge].
  - exists j. by rewrite list_lookup_delete_lt.
  - assert (j ≠ i) by (intros ->; congruence).
    exists (j - 1)%nat. rewrite list_lookup_delete_ge by lia.
    by replace (S (j - 1)) with j by lia.
Qed.

Section RosterRoutes.
Context `{Unicode}.

(** X15. In every state, once [POST /team] has created a member for a
    name, a second [POST /team] with that name is refused with 400 and
    changes nothing. When the id of the member passes the pattern of the
    routes, [DELETE /team/:id] with that id answers with the member as it
    was created and leaves the roster exactly as it was before the
    creation, and a second [DELETE] with that id is answered 404. *)
Theorem create_then_delete_member
    clk clk' name description admin admin' st m st1 :
  team_post clk (Some name) description admin st
    = Done (Response 200 (OneMember m)) st1 →
  (∀ description' admin'',
     team_post clk' (Some name) description' admin'' st1
       = Done (Response 400 Message) st1)
  ∧ (route_id (Member.id m) = true →
     ∃ st2,
       team_delete clk' (Member.id m) admin' st1
         = Done (Response 200 (OneMember m)) st2
       ∧ teamData st2 = teamData st
       ∧ ∀ clk'' admin'',
           team_delete clk'' (Member.id m) admin'' st2
             = Done (Response 404 Message) st2).
Proof.
  unfold team_post. intros Hpost.
  destruct (truthy (Some name)) eqn:Hname; [|done]. simpl in Hpost.
  destruct (list_find _ (teamData st)) as [?|] eqn:Hfind; [done|].
  injection Hpost as <- <-. simpl.
  pose proof (list_find_snoc (λ m, Member.id m = team_id name) (teamData st)
                (Member.mk (team_id name) name (or_default description []))
                Hfind eq_refl) as Hsnoc.
  split.
  - intros description' admin''. by rewrite Hsnoc.
  - intros Hroute. unfold team_delete. simpl. rewrite Hroute, Hsnoc.
    eexists. split; [reflexivity|]. simpl.
    split; [apply delete_last_snoc|].
    intros clk'' admin''. by rewrite delete_last_snoc, Hfind.
Qed.

(** X16. A member whose id does not pass the pattern [[\w-]+] of the
    routes (an id that is empty, or holds a character other than a letter
    of [A-Za-z], a digit, [_] and [-]) is out of reach of the API: whatever
    the request, unless it is a restore of a period, the member is in the
    roster afterwards as it was before. [POST /team] creates such members,
    for it derives the id from the name without that check. *)
Theorem unroutable_member_stays clk req st r st' m :
  handle clk req st = Done r st' →
  m ∈ teamData st →
  route_id (Member.id m) = false →
  (∀ month admin, req ≠ RestoreMonth month admin) →
  m ∈ teamData st'.
Proof.
  intros Hstep Hm Hroute Hreq.
  destruct req; simpl in Hstep;
    unfold add, team_get, team_post, team_put, team_delete, participants_get,
      entries_get, entry_put, users_delete, users_put, reset_month, restore_month,
      history, handleRegister, handleLogin, change_password, logs_get, logs_delete,
      upload_hero in Hstep.
  12: { by destruct (Hreq _ _ eq_refl). }
  all: branch_cases Hstep; injection Hstep as <- <-; try done; simpl.
  all: try (unfold userData_assign; by case_bool_decide).
  all: try (apply elem_of_app; by left).
  all: match goal with Hf : list_find _ _ = Some _ |- _ =>
         apply list_find_Some in Hf as (Hi & Hid & _) end.
  all: first [ eapply elem_of_insert_other; [done| |done]
             | eapply elem_of_delete_other; [done| |done] ].
  all: intros ->; congruence.
Qed.

End RosterRoutes.

(* ===================================================================== *)
(** ** The entries are copies of the series *)
(* ===================================================================== *)

Lemma mirrored_sub st st' :
  chartData st' = chartData st →
  (∀ k s i e, entry_at st' k s i e → entry_at st k s i e) →
  mirrored st → mirrored st'.
Proof.
  intros Hc Hsub [M1 M2]. split.
  - intros k s i e He. rewrite Hc. eapply M1, Hsub, He.
  - intros k1 s1 i1 e1 k2 s2 i2 e2 H1 H2. eapply M2; eauto.
Qed.

Lemma mirrored_none st :
  (∀ k, no_entries k st) → mirrored st.
Proof.
  intros Hn. split.
  - intros k s i e [Hg (es & Hes & _)]. by rewrite (Hn _ _ Hg) in Hes.
  - intros k1 s1 i1 e1 k2 s2 i2 e2 [Hg (es & Hes & _)]. by rewrite (Hn _ _ Hg) in Hes.
Qed.

Lemma entry_at_aligned st k s i e :
  invariant st → entry_at st k s i e →
  (0 ≤ Entry.totalIndex e < Z.of_nat (length (Chart.labels (chartData st))))%Z
  ∧ (i < length (Series.labels s))%nat
  ∧ length (Series.labels s) = length (Series.values s)
  ∧ ∃ l, Series.labels s !! i = Some l ∧ l ≠ [].
Proof.
  intros [I1 I2 I3 I4 I5 I6] [Hg (es & Hes & Hi)].
  apply obj_get_elem_of in Hg. rewrite Forall_forall in I3.
  destruct (I3 _ Hg) as (_ & Hal & Hent). unfold entries_aligned in Hent.
  simpl in Hal, Hent. rewrite Hes in Hent. destruct Hent as (He1 & He2 & He3).
  pose proof (Forall_lookup_1 _ _ _ _ He3 Hi) as Hti. simpl in Hti.
  pose proof (lookup_lt_Some _ _ _ Hi) as Hlt.
  split; [done|]. split; [lia|]. split; [done|].
  destruct (lookup_lt_is_Some_2 (Series.labels s) i) as [l Hl]; [lia|].
  exists l. split; [done|]. apply (Forall_lookup_1 _ _ _ _ He2 Hl).
Qed.

Section Mirror.
Context `{Unicode}.

Lemma add_mirrored clk amount userName adminName st r st' :
  invariant st → mirrored st →
  add clk amount userName adminName st = Done r st' → mirrored st'.
Proof.
  intros Hinv [M1 M2]. unfold add.
  destruct (isNaN amount); simpl; [by intros [= <- <-]|].
  set (label := strip_commas (localeString clk)) in *.
  pose proof Hinv as [I1 I2 I3 I4 I5 I6].
  set (chart' := Chart.mk (Chart.labels (chartData st) ++ [label])
                          (Chart.values (chartData st) ++ [amount])).
  assert (Hold : ∀ k s i e, entry_at st k s i e → entry_mirrors chart' s i e).
  { intros k s i e He. pose proof (M1 _ _ _ _ He) as (L1 & L2 & L3 & L4).
    destruct (entry_at_aligned _ _ _ _ _ Hinv He) as (Hti & _).
    repeat split; simpl; try done; rewrite lookup_app_l by lia; done. }
  destruct (truthy userName) eqn:Hu.
  2: { intros [= <- <-]. split; [|exact M2].
       intros k s i e He. apply (Hold k s i e He). }
  apply truthy_param in Hu as [_ Hk].
  destruct (deposit_series (param userName) st) as [data|] eqn:Hdata; [|discriminate].
  destruct (Series.entries data) as [es|] eqn:Hes; [|discriminate].
  intros [= <- <-].
  set (k := param userName) in *.
  assert (Hdata' : length (Series.labels data) = length (Series.values data)
                   ∧ length es = length (Series.labels data)
                   ∧ ∀ i e, es !! i = Some e → entry_at st k data i e).
  { unfold deposit_series in Hdata.
    destruct (userData_get k st) as [d| |] eqn:Hget; [|discriminate|].
    - injection Hdata as ->. apply userData_get_Own in Hget.
      pose proof (obj_get_elem_of _ _ _ Hget) as Hin. rewrite Forall_forall in I3.
      destruct (I3 _ Hin) as (_ & Hal & Hent). unfold entries_aligned in Hent.
      simpl in Hal, Hent. rewrite Hes in Hent. destruct Hent as (He1 & _).
      repeat split; try done. by exists es.
    - injection Hdata as <-. simpl in Hes. injection Hes as <-.
      repeat split; try done. }
  destruct Hdata' as (Hal & Hlen & Hat).
  set (entry := Entry.mk label (JNum amount)
                  (Z.of_nat (length (Chart.values (chartData st) ++ [amount])) - 1)).
  set (s' := Series.mk (Series.labels data ++ [label])
                       (Series.values data ++ [JNum amount]) (Some (es ++ [entry]))).
  assert (Hti : Z.to_nat (Entry.totalIndex entry) = length (Chart.labels (chartData st))).
  { simpl. rewrite length_app. simpl. lia. }
  assert (Hnew : ∀ k' s0 i e,
            entry_at (set_userData (obj_set k s' (userData st)) (set_chartData chart' st))
              k' s0 i e →
            (k' ≠ k ∧ entry_at st k' s0 i e)
            ∨ (k' = k ∧ s0 = s'
               ∧ ((entry_at st k data i e ∧ (i < length es)%nat)
                  ∨ (i = length es ∧ e = entry)))).
  { intros k' s0 i e [Hg (es0 & Hes0 & Hi)]. simpl in Hg. rewrite obj_get_set in Hg.
    case_bool_decide as Hkk.
    - injection Hg as <-. simpl in Hes0. injection Hes0 as <-.
      right. split; [done|]. split; [done|].
      destruct (decide (i < length es)%nat) as [Hlt|Hge].
      + rewrite lookup_app_l in Hi by done. left. split; [by apply Hat | done].
      + right. rewrite lookup_app_r in Hi by lia.
        destruct (i - length es)%nat as [|d] eqn:Hd; simpl in Hi; [|done].
        injection Hi as <-. split; [lia | done].
    - left. split; [done|]. split; [done|]. by exists es0. }
  assert (Hbound : ∀ k' s0 i e, entry_at st k' s0 i e →
            Entry.totalIndex e ≠ Entry.totalIndex entry).
  { intros k' s0 i e He. destruct (entry_at_aligned _ _ _ _ _ Hinv He) as (Hb & _).
    simpl. rewrite length_app. simpl. lia. }
  split.
  - intros k' s0 i e He. change (entry_mirrors chart' s0 i e).
    destruct (Hnew _ _ _ _ He) as [[_ Hst] | (-> & -> & [[Hst Hlt] | [-> ->]])].
    + by eapply Hold.
    + destruct (Hold _ _ _ _ Hst) as (L1 & L2 & L3 & L4).
      repeat split; simpl; try done; rewrite lookup_app_l by lia; done.
    + repeat split.
      * simpl. rewrite lookup_app_r by lia. by replace (_ - _)%nat with 0%nat by lia.
      * simpl. rewrite lookup_app_r by lia. by replace (_ - _)%nat with 0%nat by lia.
      * rewrite Hti. simpl. rewrite lookup_app_r by lia.
        by replace (_ - _)%nat with 0%nat by lia.
      * rewrite Hti. simpl. rewrite lookup_app_r by lia.
        by replace (_ - _)%nat with 0%nat by lia.
  - intros k1 s1 i1 e1 k2 s2 i2 e2 He1 He2 Heq.
    destruct (Hnew _ _ _ _ He1) as [[Hk1 Hst1] | (-> & -> & [[Hst1 Hlt1] | [-> ->]])];
      destruct (Hnew _ _ _ _ He2) as [[Hk2 Hst2] | (-> & -> & [[Hst2 Hlt2] | [-> ->]])];
      try (by eapply M2);
      try (by exfalso; eapply Hbound; [exact Hst1 | done]);
      try (by exfalso; eapply Hbound; [exact Hst2 | done]).
    done.
Qed.

Lemma entry_put_mirrored clk userName index newTime adminName st r st' :
  invariant st → mirrored st →
  entry_put clk userName index newTime adminName st = Done r st' → mirrored st'.
Proof.
  intros Hinv [M1 M2]. unfold entry_put.
  destruct (truthy userName) eqn:Hu; simpl; [|by intros [= <- <-]].
  destruct (bool_decide (is_Some index)); simpl; [|by intros [= <- <-]].
  destruct (truthy newTime) eqn:Ht; simpl; [|by intros [= <- <-]].
  destruct (parseInt10 (param index)) as [idx|]; [|by intros [= <- <-]].
  destruct (userData_get (param userName) st) as [data| |] eqn:Hget;
    [|by intros [= <- <-]|by intros [= <- <-]].
  destruct (Series.entries data) as [es|] eqn:Hes; [|by intros [= <- <-]].
  destruct (_ || _); [by intros [= <- <-]|].
  destruct (es !! Z.to_nat idx) as [entry|] eqn:Hentry; [|discriminate].
  set (k := param userName) in *. set (t := param newTime) in *.
  set (i := Z.to_nat idx) in *.
  apply userData_get_Own in Hget.
  assert (Hat : entry_at st k data i entry) by (split; [done | by exists es]).
  destruct (entry_at_aligned _ _ _ _ _ Hinv Hat) as (Hti & Hlt & Hal & l & Hl & Hlne).
  rewrite Hl, (proj2 (str_truthy_ne l) Hlne).
  replace ((0 <=? Entry.totalIndex entry)%Z
           && (Entry.totalIndex entry <? Z.of_nat (length (Chart.labels (chartData st))))%Z)
    with true
    by (symmetry; apply andb_true_intro; split; [apply Z.leb_le | apply Z.ltb_lt]; lia).
  intros [= <- <-].
  set (chart' := Chart.mk (<[Z.to_nat (Entry.totalIndex entry) := t]>
                             (Chart.labels (chartData st)))
                          (Chart.values (chartData st))).
  set (entry' := Entry.mk t (Entry.value entry) (Entry.totalIndex entry)).
  set (s' := Series.mk (<[i := t]> (Series.labels data)) (Series.values data)
                       (Some (<[i := entry']> es))).
  assert (Hnew : ∀ k' s0 j e,
            entry_at (set_chartData chart' (set_userData (obj_set k s' (userData st)) st))
              k' s0 j e →
            (k' ≠ k ∧ entry_at st k' s0 j e)
            ∨ (k' = k ∧ s0 = s'
               ∧ ((j ≠ i ∧ entry_at st k data j e) ∨ (j = i ∧ e = entry')))).
  { intros k' s0 j e [Hg (es0 & Hes0 & Hj)]. simpl in Hg. rewrite obj_get_set in Hg.
    case_bool_decide as Hkk.
    - injection Hg as <-. simpl in Hes0. injection Hes0 as <-.
      right. split; [done|]. split; [done|].
      destruct (decide (j = i)) as [->|Hne].
      + right. split; [done|].
        rewrite list_lookup_insert_eq in Hj by (by eapply lookup_lt_Some). congruence.
      + left. split; [done|]. rewrite list_lookup_insert_ne in Hj by done.
        split; [done | by exists es].
    - left. split; [done|]. split; [done|]. by exists es0. }
  assert (Hother : ∀ k' s0 j e, entry_at st k' s0 j e → (k' ≠ k ∨ j ≠ i) →
            Z.to_nat (Entry.totalIndex entry) ≠ Z.to_nat (Entry.totalIndex e)).
  { intros k' s0 j e He Hdiff Heq.
    destruct (entry_at_aligned _ _ _ _ _ Hinv He) as (Hb & _).
    assert (Heq' : Entry.totalIndex e = Entry.totalIndex entry) by lia.
    destruct (M2 _ _ _ _ _ _ _ _ He Hat Heq') as [-> ->]. by destruct Hdiff. }
  split.
  - intros k' s0 j e He. change (entry_mirrors chart' s0 j e).
    destruct (Hnew _ _ _ _ He) as [[Hk Hst] | (-> & -> & [[Hj Hst] | [-> ->]])].
    + destruct (M1 _ _ _ _ Hst) as (L1 & L2 & L3 & L4).
      repeat split; simpl; try done.
      rewrite list_lookup_insert_ne; [done|]. eapply Hother; [exact Hst | by left].
    + destruct (M1 _ _ _ _ Hst) as (L1 & L2 & L3 & L4).
      repeat split; simpl; try done.
      * by rewrite list_lookup_insert_ne.
      * rewrite list_lookup_insert_ne; [done|]. eapply Hother; [exact Hst | by right].
    + destruct (M1 _ _ _ _ Hat) as (L1 & L2 & L3 & L4).
      repeat split; simpl; try done.
      * by rewrite list_lookup_insert_eq.
      * rewrite list_lookup_insert_eq; [done|]. lia.
  - assert (Hback : ∀ k' s0 j e,
              entry_at (set_chartData chart' (set_userData (obj_set k s' (userData st)) st))
                k' s0 j e →
              ∃ s1 e1, entry_at st k' s1 j e1
                       ∧ Entry.totalIndex e1 = Entry.totalIndex e).
    { intros k' s0 j e He.
      destruct (Hnew _ _ _ _ He) as [[Hk Hst] | (-> & -> & [[Hj Hst] | [-> ->]])];
        by eexists _, _. }
    intros k1 s1 i1 e1 k2 s2 i2 e2 He1 He2 Heq.
    destruct (Hback _ _ _ _ He1) as (s1' & e1' & Hst1 & Heq1).
    destruct (Hback _ _ _ _ He2) as (s2' & e2' & Hst2 & Heq2).
    eapply M2; [exact Hst1 | exact Hst2 | congruence].
Qed.

Lemma handle_mirrored clk req st r st' :
  invariant st → mirrored st → handle clk req st = Done r st' → mirrored st'.
Proof.
  intros Hinv Hm. destruct req; simpl.
  1: by apply add_mirrored.
  7: by apply entry_put_mirrored.
  all: unfold team_get, team_post, team_put, team_delete, participants_get,
      entries_get, users_delete, users_put, reset_month, restore_month,
      history, handleRegister, handleLogin, change_password, logs_get, logs_delete,
      upload_hero; intros Hstep.
  all: branch_cases Hstep; injection Hstep as <- <-; try done.
  all: try (eapply mirrored_sub; [| |exact Hm]; [done|]; intros k s i e He; exact He).
  - eapply mirrored_sub; [| |exact Hm]; [done|].
    intros k s i e [Hg Hes]. simpl in Hg. rewrite obj_get_delete in Hg.
    case_bool_decide; [done|]. by split.
  - eapply mirrored_sub; [| |exact Hm].
    + simpl. unfold userData_assign. by case_bool_decide.
    + intros k s i e [Hg (es & Hes & Hi)]. simpl in Hg. unfold userData_assign in Hg.
      case_bool_decide; simpl in Hg.
      * rewrite obj_get_delete in Hg. case_bool_decide; [done|].
        split; [done | by exists es].
      * rewrite obj_get_set in Hg. case_bool_decide; [by injection Hg as <-|].
        rewrite obj_get_delete in Hg. case_bool_decide; [done|].
        split; [done | by exists es].
  - apply mirrored_none. intros k s Hg. by destruct k.
  - apply mirrored_none. intros k. by apply restore_users_fresh.
Qed.

(** X17. In every reachable state, each entry of a contributor is a copy of
    what the two series hold: the entry at index [i] has the label and the
    value the contributor's series has at [i], and the label and the value
    the aggregate series has at the entry's [totalIndex]. No other entry, of
    this or of another contributor, has the same [totalIndex]. *)
Theorem entries_mirror_the_series st k s es (i : nat) e :
  reachable st →
  obj_get k (userData st) = Some s →
  Series.entries s = Some es →
  es !! i = Some e →
  Series.labels s !! i = Some (Entry.time e)
  ∧ Series.values s !! i = Some (Entry.value e)
  ∧ Chart.labels (chartData st) !! Z.to_nat (Entry.totalIndex e) = Some (Entry.time e)
  ∧ JNum <$> Chart.values (chartData st) !! Z.to_nat (Entry.totalIndex e)
    = Some (Entry.value e)
  ∧ ∀ k' s' es' (i' : nat) e',
      obj_get k' (userData st) = Some s' →
      Series.entries s' = Some es' →
      es' !! i' = Some e' →
      Entry.totalIndex e' = Entry.totalIndex e →
      k' = k ∧ i' = i.
Proof.
  intros (file & iso & Hiso & Hreach) Hg Hes Hi.
  assert (Hboth : invariant st ∧ mirrored st).
  { clear Hg Hes Hi. induction Hreach as [|st clk req r st' _ IH Hclk Hstep].
    - split; [by apply startup_invariant|]. apply mirrored_none. intros c s0 Hc. done.
    - destruct IH as [Hinv Hm]. split; [by eapply handle_invariant|].
      by eapply handle_mirrored. }
  destruct Hboth as [_ [M1 M2]].
  assert (Hat : entry_at st k s i e) by (split; [done | by exists es]).
  destruct (M1 _ _ _ _ Hat) as (L1 & L2 & L3 & L4).
  do 4 (split; [done|]).
  intros k' s' es' i' e' Hg' Hes' Hi' Heq.
  assert (Hat' : entry_at st k' s' i' e') by (split; [done | by exists es']).
  apply (M2 _ _ _ _ _ _ _ _ Hat' Hat Heq).
Qed.

End Mirror.

(* ===================================================================== *)
(** ** What the open event streams have received *)
(* ===================================================================== *)

Section Streams.
Context `{Unicode}.

(** A request that does not broadcast leaves what a broadcast would send. *)
Lemma quiet_request_keeps_payload clk req st r st' :
  handle clk req st = Done r st' →
  broadcasts req && answered_200 r = false →
  payload st' = payload st.
Proof.
  intros Hstep Hquiet.
  destruct req; simpl in Hstep, Hquiet;
    unfold add, team_get, team_post, team_put, team_delete, participants_get,
      entries_get, entry_put, users_delete, users_put, reset_month, restore_month,
      history, handleRegister, handleLogin, change_password, logs_get, logs_delete,
      upload_hero in Hstep;
    branch_cases Hstep; injection Hstep as <- <-; done.
Qed.

(** X18. Every open event stream is up to date: after any sequence of
    requests, of pages opening [/events] and of streams closing, served from
    startup, the last message each open stream has received is the JSON of
    the aggregate series, the contributors and the roster as the stores hold
    them now. *)
Theorem open_streams_are_up_to_date file iso evs sv :
  serve_all evs (mkServer (startup file iso) []) = Some sv →
  Forall (λ written, last written = Some (payload (stores sv))) (clients sv).
Proof.
  assert (Hstep : ∀ ev sv0 sv1,
            Forall (λ written, last written = Some (payload (stores sv0))) (clients sv0) →
            serve ev sv0 = Some sv1 →
            Forall (λ written, last written = Some (payload (stores sv1))) (clients sv1)).
  { intros ev sv0 sv1 Hall Hserve. destruct ev as [clk req| |i]; simpl in Hserve.
    - destruct (handle clk req (stores sv0)) as [r st'|] eqn:Hh; [|done].
      injection Hserve as <-.
      destruct (broadcasts req && answered_200 r) eqn:Hb; simpl.
      + apply Forall_forall. intros written Hw.
        apply list_elem_of_fmap in Hw as (w & -> & _). apply last_snoc.
      + by rewrite (quiet_request_keeps_payload _ _ _ _ _ Hh Hb).
    - injection Hserve as <-. simpl. apply Forall_app. split; [done|].
      by repeat constructor.
    - injection Hserve as <-. simpl. by apply Forall_delete. }
  assert (Hall : ∀ sv0,
            Forall (λ written, last written = Some (payload (stores sv0))) (clients sv0) →
            serve_all evs sv0 = Some sv →
            Forall (λ written, last written = Some (payload (stores sv))) (clients sv)).
  { induction evs as [|ev evs IH]; intros sv0 H0 Hrun; simpl in Hrun.
    - by injection Hrun as <-.
    - destruct (serve ev sv0) as [sv1|] eqn:Hserve; [|done].
      eapply IH; [|exact Hrun]. by eapply Hstep. }
  apply Hall. constructor.
Qed.

End Streams.

(* ===================================================================== *)
(** ** From the stores to the chart of the page *)
(* ===================================================================== *)

Lemma updateChart_lengths newLabels newValues chartLabels points :
  length newLabels = length newValues →
  Some (updateChart newLabels newValues) = Some (chartLabels, points) →
  (chartLabels, points) = ([], [0%float]) ∨ length chartLabels = length points.
Proof.
  intros Hlen [= <- <-]. destruct newLabels as [|first rest].
  - left. by destruct newValues.
  - right. unfold computeCumulative. simpl in *.
    rewrite cumulative_from_length. lia.
Qed.

Lemma computeCumulative_last arr : last (computeCumulative arr) = Some (sum_values arr).
Proof.
  rewrite last_lookup. unfold computeCumulative. simpl. rewrite cumulative_from_length.
  destruct arr as [|v arr]; [done|]. simpl length. simpl pred.
  change ((0%float :: cumulative_from 0 (v :: arr)) !! S (length arr))
    with (cumulative_from 0 (v :: arr) !! length arr).
  rewrite cumulative_from_lookup by (simpl; lia).
  change (S (length arr)) with (length (v :: arr)). by rewrite firstn_all.
Qed.

Section Page.
Context `{Unicode}.

(** X19. Whatever message a reachable state of the server sends, and
    whatever [user] the page was opened with, the chart of the page is
    well formed: when [onmessage] reaches [updateChart], the chart is given
    either no label and the single point 0, or as many labels as points.
    When the page was opened for no user, the last point of the chart is the
    total [onmessage] computes for the amount display. *)
Theorem page_chart_is_aligned st currentUser chartLabels points :
  reachable st →
  onmessage_chart currentUser (payload st) = Some (chartLabels, points) →
  ((chartLabels, points) = ([], [0%float])
   ∨ length chartLabels = length points)
  ∧ (truthy currentUser = false →
     last points = Some (totalSum (payload st))).
Proof.
  intros Hreach Hmsg.
  destruct (reachable_invariant _ Hreach) as [I1 I2 I3 I4 I5 I6].
  assert (Htotal : length (Payload.totalLabels (payload st))
                   = length (Payload.totalValues (payload st))).
  { simpl. by rewrite length_map. }
  unfold onmessage_chart in Hmsg.
  destruct (truthy currentUser) eqn:Hu.
  - split; [|done].
    destruct (obj_get (param currentUser) (Payload.users (payload st)))
      as [s|] eqn:Hget.
    + simpl in Hget. unfold JSON_users in Hget. rewrite obj_get_map in Hget.
      destruct (obj_get (param currentUser) (userData st)) as [s0|] eqn:Hget0; [|done].
      injection Hget as <-. apply obj_get_elem_of in Hget0.
      rewrite Forall_forall in I3. destruct (I3 _ Hget0) as (_ & Hal & _).
      unfold series_aligned in Hal. simpl in Hal.
      eapply updateChart_lengths; [|exact Hmsg]. simpl. by rewrite length_map.
    + case_bool_decide; [done|]. by eapply updateChart_lengths.
  - split; [by eapply updateChart_lengths|].
    intros _. injection Hmsg as _ <-. apply computeCumulative_last.
Qed.

End Page.

(* ===================================================================== *)
(** ** After a rename *)
(* ===================================================================== *)

Section Renamed.
Context `{Unicode}.

(** X20. In a reachable state, once [PUT /users/:id] has renamed a
    contributor, the contributor under its new name has no [entries]:
    [GET /entries] for the new name answers 404, and the next deposit
    attributed to the new name, of an amount that is not NaN, is not
    answered: the handler raises a [TypeError]. *)
Theorem rename_then_deposit_raises
    clk clk' id newName admin admin' amount b st st' :
  reachable st →
  users_put clk id (Some newName) admin st = Done (Response 200 b) st' →
  isNaN amount = false →
  add clk' amount (Some newName) admin' st' = TypeError
  ∧ entries_get (Some newName) st' = Done (Response 404 Message) st'.
Proof.
  intros Hreach Hput Hnan.
  destruct (reachable_invariant _ Hreach) as [I1 I2 I3 I4 I5 I6].
  unfold users_put in Hput.
  destruct (route_id id); [|done].
  destruct (truthy (Some newName)) eqn:Hn; simpl in Hput; [|done].
  destruct (find_key id st) as [key|]; [|done].
  destruct (str_truthy key); [|done].
  destruct (obj_get key (userData st)) as [data|]; [|done].
  injection Hput as _ <-.
  unfold add, entries_get, deposit_series. rewrite Hnan, Hn. simpl.
  unfold userData_assign. case_bool_decide as Hproto.
  - subst newName. unfold userData_get. simpl.
    assert (Hnone : obj_get (js "__proto__") (obj_delete key (userData st)) = None).
    { rewrite obj_get_delete. case_bool_decide; [done|].
      apply obj_get_None. intros Hin.
      apply list_elem_of_fmap in Hin as ([k s] & Hk & Hin). simpl in Hk. subst k.
      rewrite Forall_forall in I3. destruct (I3 _ Hin) as ([_ Hbad] & _). done. }
    simpl in Hnone. rewrite Hnone. done.
  - unfold userData_get. simpl. by rewrite obj_get_set_eq.
Qed.

End Renamed.

(* ===================================================================== *)
(** ** What the API can do to an account *)
(* ===================================================================== *)

Section AccountsPersist.
Context `{Unicode}.

Lemma handle_accounts clk req st r st' :
  handle clk req st = Done r st' →
  (∀ (i : nat) c, credentials st !! i = Some c →
     ∃ c', credentials st' !! i = Some c'
           ∧ Credential.name c' = Credential.name c
           ∧ Credential.isMaster c' = Credential.isMaster c
           ∧ (toLowerCase (Credential.name c) ≠ js "esther" →
              Credential.password c' = Credential.password c))
  ∧ (∀ (i : nat) c', credentials st' !! i = Some c' →
       (length (credentials st) ≤ i)%nat → Credential.isMaster c' = false).
Proof.
  intros Hstep.
  destruct (handle_credentials _ _ _ _ _ Hstep)
    as [-> | [(name & password & _ & _ & _ & _ & _ & ->)
             | (admin & newPassword & i0 & c0 & _ & _ & _ & Hfind & ->)]].
  - split.
    + intros i c Hi. by exists c.
    + intros i c' Hi Hge. apply lookup_ge_None_2 in Hge. congruence.
  - split.
    + intros i c Hi. exists c. split; [|done].
      rewrite lookup_app_l; [done|]. by eapply lookup_lt_Some.
    + intros i c' Hi Hge. rewrite lookup_app_r in Hi by done.
      destruct (i - length (credentials st))%nat; simpl in Hi; [|done].
      by injection Hi as <-.
  - apply list_find_Some in Hfind as (Hi0 & Hname & _). split.
    + intros i c Hi. destruct (decide (i = i0)) as [->|Hne].
      * assert (c = c0) by congruence. subst c0. eexists. split.
        -- apply list_lookup_insert_eq. by eapply lookup_lt_Some.
        -- by repeat split.
      * exists c. split; [|done]. by rewrite list_lookup_insert_ne.
    + intros i c' Hi Hge. rewrite <- (length_insert (credentials st) i0
        (Credential.mk (Credential.name c0) newPassword (Credential.isMaster c0))) in Hge.
      apply lookup_ge_None_2 in Hge. congruence.
Qed.

(** X21. Through any sequence of answered requests, a stored account stays
    where it is in [credentials], with its name and its [isMaster] flag,
    and with its password unless its lower-cased name is [esther]; and every
    account added since is not a master account. No request removes an
    account, changes the password of another account than [Esther]'s, or
    makes a master account. *)
Theorem accounts_persist st0 st :
  reachable_from st0 st →
  (∀ (i : nat) c, credentials st0 !! i = Some c →
     ∃ c', credentials st !! i = Some c'
           ∧ Credential.name c' = Credential.name c
           ∧ Credential.isMaster c' = Credential.isMaster c
           ∧ (toLowerCase (Credential.name c) ≠ js "esther" →
              Credential.password c' = Credential.password c))
  ∧ (∀ (i : nat) c', credentials st !! i = Some c' →
       (length (credentials st0) ≤ i)%nat → Credential.isMaster c' = false).
Proof.
  induction 1 as [|st clk req r st' _ [IH1 IH2] _ Hstep].
  - split.
    + intros i c Hi. by exists c.
    + intros i c' Hi Hge. apply lookup_ge_None_2 in Hge. congruence.
  - destruct (handle_accounts _ _ _ _ _ Hstep) as [S1 S2]. split.
    + intros i c Hi. destruct (IH1 _ _ Hi) as (c1 & Hi1 & Hn1 & Hm1 & Hp1).
      destruct (S1 _ _ Hi1) as (c2 & Hi2 & Hn2 & Hm2 & Hp2).
      exists c2. split; [done|]. split; [congruence|]. split; [congruence|].
      intros Hne. rewrite Hp2; [by apply Hp1 | by rewrite Hn1].
    + intros i c' Hi Hge.
      destruct (decide (i < length (credentials st))%nat) as [Hlt|Hnew].
      * destruct (lookup_lt_is_Some_2 _ _ Hlt) as [c1 Hi1].
        destruct (S1 _ _ Hi1) as (c2 & Hi2 & _ & Hm2 & _).
        assert (c2 = c') by congruence. subst c2.
        rewrite Hm2. by eapply IH2.
      * eapply S2; [exact Hi | lia].
Qed.

End AccountsPersist.

(* ===================================================================== *)
(** ** The member object the log shares with the roster *)
(* ===================================================================== *)

Lemma log_write_member_shared id m' e0 m :
  Log.detail (log_write_member id m' e0) = Log.TeamCreate m true →
  (m = m' ∧ ∃ m0, Log.detail e0 = Log.TeamCreate m0 true ∧ Member.id m0 = id)
  ∨ (Log.detail e0 = Log.TeamCreate m true ∧ Member.id m ≠ id).
Proof.
  unfold log_write_member. destruct e0 as [ts ad ac d]. simpl.
  destruct d as [| |m0 [|]| | | | | | | | |]; simpl; try done.
  case_bool_decide as Hid; simpl.
  - intros [= <-]. left. split; [done|]. by exists m0.
  - intros [= <-]. by right.
Qed.

Lemma log_unshare_shared gone e0 m :
  Log.detail (log_unshare gone e0) = Log.TeamCreate m true →
  Log.detail e0 = Log.TeamCreate m true ∧ gone m = false.
Proof.
  unfold log_unshare. destruct e0 as [ts ad ac d]. simpl.
  destruct d as [| |m0 [|]| | | | | | | | |]; simpl; try done.
  destruct (gone m0) eqn:Hgone; simpl; [done|]. by intros [= <-].
Qed.

Section SharedMember.
Context `{Unicode}.

Lemma handle_shared clk req st r st' :
  (∀ e m, e ∈ logs st → Log.detail e = Log.TeamCreate m true → m ∈ teamData st) →
  handle clk req st = Done r st' →
  ∀ e m, e ∈ logs st' → Log.detail e = Log.TeamCreate m true → m ∈ teamData st'.
Proof.
  intros J Hstep.
  destruct req; simpl in Hstep;
    unfold add, team_get, team_post, team_put, team_delete, participants_get,
      entries_get, entry_put, users_delete, users_put, reset_month, restore_month,
      history, handleRegister, handleLogin, change_password, logs_get,
      upload_hero in Hstep.
  18: { unfold logs_delete in Hstep. branch_cases Hstep; injection Hstep as <- <-;
          [exact J|].
        intros e m He Hd. simpl in He. apply list_elem_of_singleton in He. by subst e. }
  all: branch_cases Hstep; injection Hstep as <- <-; try exact J.
  all: intros e m He Hd; simpl in He.
  all: apply elem_of_app in He as [He | He%list_elem_of_singleton];
         [| subst e; simpl in Hd; try discriminate Hd].
  all: try (simpl; by eapply J).
  all: try (unfold userData_assign in *; case_bool_decide; simpl in *; by eapply J).
  all: try (simpl; apply elem_of_app; left; by eapply J).
  all: try (injection Hd as <-; simpl; apply elem_of_app; right;
            by apply list_elem_of_singleton).
  all: apply list_elem_of_In, in_map_iff in He as (e0 & <- & He0);
       apply list_elem_of_In in He0.
  all: try (apply log_unshare_shared in Hd as [Hd Hgone]; try discriminate Hgone).
  all: try (apply log_write_member_shared in Hd as [[-> _] | [Hd Hne]]).
  all: simpl;
       match goal with Hf : list_find _ _ = Some _ |- _ =>
         apply list_find_Some in Hf as (Hi & Hid & _) end.
  all: try (apply list_elem_of_lookup; eexists; apply list_lookup_insert_eq;
            by eapply lookup_lt_Some).
  all: try (eapply elem_of_insert_other; [done| |by eapply J]; intros ->; congruence).
  eapply elem_of_delete_other; [done| |by eapply J].
  intros ->. apply bool_decide_eq_false in Hgone. congruence.
Qed.

(** X22. In every reachable state, the member a [teamCreate] entry of the
    log shares with the roster is in the roster, and is the member the
    routes [PUT] and [DELETE /team/:id] find under its id: the entry shows
    the member as it is now, not as it was created. *)
Theorem shared_entry_shows_roster_member st e m :
  reachable st →
  e ∈ logs st →
  Log.detail e = Log.TeamCreate m true →
  m ∈ teamData st
  ∧ ∃ i : nat, list_find (λ x, Member.id x = Member.id m) (teamData st) = Some (i, m).
Proof.
  intros Hreach He Hd.
  assert (Hin : m ∈ teamData st).
  { destruct Hreach as (file & iso & _ & Hreach). revert e m He Hd.
    induction Hreach as [|st clk req r st' _ IH _ Hstep].
    - intros e m He. by apply elem_of_nil in He.
    - exact (handle_shared _ _ _ _ _ IH Hstep). }
  pose proof (reachable_invariant _ Hreach) as [_ _ _ Hnodup _ _].
  split; [exact Hin|].
  apply list_elem_of_lookup in Hin as [i Hi]. exists i.
  apply list_find_Some. split; [done|]. split; [done|].
  intros j y Hj Hlt Hid.
  assert (j = i); [|lia].
  eapply NoDup_lookup; [exact Hnodup | |].
  - rewrite list_lookup_fmap, Hj. simpl. by rewrite Hid.
  - by rewrite list_lookup_fmap, Hi.
Qed.

End SharedMember.

(* ===================================================================== *)
(** * The further properties on concrete runs *)
(* ===================================================================== *)

Lemma with_ester_reachable_from_fresh :
  reachable_from (H := ascii_runtime) fresh with_ester.
Proof.
  eapply (run_reachable (H := ascii_runtime) fresh
            [ (clock_jan, Register (Some (js "Ester")) (Some (js "abc"))) ]);
    [apply reachable_here | repeat constructor; apply clock_jan_ok | by vm_compute].
Qed.

(** A [DELETE /team/nobody] on the ledger of Ana is answered 404 and
    changes nothing. *)
Lemma refused_request_witness :
  ∃ st',
    handle (H := ascii_runtime) clock_jan (TeamDelete (js "nobody") None) ana_ledger
    = Done (Response 404 Message) st'
    ∧ st' = ana_ledger.
Proof.
  assert (Hrun : handle (H := ascii_runtime) clock_jan (TeamDelete (js "nobody") None)
                   ana_ledger
                 = Done (Response 404 Message) ana_ledger) by (by vm_compute).
  exists ana_ledger. split; [exact Hrun|].
  by apply (refused_request_changes_nothing (H := ascii_runtime) _ _ _ _ _ Hrun).
Defined.


(** Closing the period of the ledger of Ana files one snapshot, under
    [2026-01]. *)
Lemma history_is_append_only_witness :
  ∃ snapshot,
    monthlyHistory (after [ (clock_feb, ResetMonth None) ] ana_ledger) = [snapshot]
    ∧ Snapshot.month snapshot = js "2026-01"
    ∧ Snapshot.users snapshot = JSON_users (userData ana_ledger).
Proof.
  assert (Hrun : ∃ r,
            handle (H := ascii_runtime) clock_feb (ResetMonth None) ana_ledger
            = Done r (after [ (clock_feb, ResetMonth None) ] ana_ledger)).
  { eexists. by vm_compute. }
  destruct Hrun as [r Hrun].
  destruct (history_is_append_only (H := ascii_runtime) _ _ _ _ _ Hrun)
    as (_ & [Hsame | (admin & snapshot & _ & Hhist & Hmonth & _ & _ & Husers & _)]).
  - by vm_compute in Hsame.
  - exists snapshot. split; [exact Hhist|]. split; [exact Hmonth | exact Husers].
Defined.

(** [ESTHER] cannot be registered on a server just started; [Ana] can. *)
Lemma register_witness :
  handleRegister (H := ascii_runtime) clock_jan (Some (js "ESTHER")) (Some (js "x")) fresh
  = Done (Response 409 Message) fresh.
Proof.
  destruct (register_refuses_exactly_taken_names (H := ascii_runtime) clock_jan
              (js "ESTHER") (js "x") fresh ltac:(done) ltac:(done))
    as (_ & Htaken & _).
  apply Htaken. exists (Credential.mk (js "Esther") (js "1705") true).
  split; [apply list_elem_of_singleton; reflexivity | by vm_compute].
Defined.

(** After the registration of [Ester] the names are still distinct. *)
Lemma names_stay_distinct_witness :
  names_distinct (H := ascii_runtime) (credentials with_ester).
Proof.
  apply (names_stay_distinct (H := ascii_runtime) fresh with_ester).
  - unfold names_distinct. apply (bool_decide_unpack _). by vm_compute.
  - apply with_ester_reachable_from_fresh.
Defined.

(** [Bia] registers on a server just started and logs in. *)
Lemma register_then_login_witness :
  ∃ st1 st2,
    handleRegister (H := ascii_runtime) clock_jan (Some (js "Bia")) (Some (js "pw")) fresh
    = Done (Response 201 (User (js "Bia") false)) st1
    ∧ handleLogin (H := ascii_runtime) clock_feb (Some (js "Bia")) (Some (js "pw")) st1
      = Done (Response 200 (User (js "Bia") false)) st2.
Proof.
  assert (Hreg : ∃ st1,
            handleRegister (H := ascii_runtime) clock_jan (Some (js "Bia")) (Some (js "pw"))
              fresh
            = Done (Response 201 (User (js "Bia") false)) st1).
  { eexists. by vm_compute. }
  destruct Hreg as [st1 Hreg].
  destruct (register_then_login (H := ascii_runtime) clock_jan clock_feb _ _ _ _ _ Hreg)
    as (st2 & Hlogin & _).
  { repeat constructor. }
  by exists st1, st2.
Defined.

(** [Esther] changes the password on the ledger that holds [Ester] too,
    and logs in with the new one. *)
Lemma change_password_witness :
  ∃ st1 st2,
    change_password (H := ascii_runtime) clock_jan (Some (js "Esther")) (Some (js "2026"))
      with_ester
    = Done (Response 200 Message) st1
    ∧ handleLogin (H := ascii_runtime) clock_feb (Some (js "Esther")) (Some (js "2026")) st1
      = Done (Response 200 (User (js "Esther") true)) st2.
Proof.
  destruct (change_password_then_login (H := ascii_runtime) clock_jan clock_feb
              (js "Esther") (js "2026") fresh with_ester)
    as (st1 & Hchange & [st2 Hlogin] & _).
  - by exists (js "1705"), [].
  - apply with_ester_reachable_from_fresh.
  - by vm_compute.
  - done.
  - done.
  - by exists st1, st2.
Defined.

(** Two labels and two values give the chart three labels and three
    points. *)
Lemma updateChart_witness :
  length (updateChart [label_jan; label_jan] [JNum 50; JNum 30]).1
  = length (updateChart [label_jan; label_jan] [JNum 50; JNum 30]).2.
Proof.
  destruct (updateChart_aligns_labels [label_jan; label_jan] [JNum 50; JNum 30] eq_refl)
    as [Hsome _].
  by destruct (Hsome ltac:(done)) as [Hlen _].
Defined.

(** A third deposit for Ana, of 20: one participant, three deposits. *)
Lemma deposit_updates_participant_witness :
  ∃ body st',
    add clock_jan 20 (Some (js "Ana")) None ana_ledger
    = Done (Response 200 body) st'
    ∧ Participant.count <$> participants (H := ascii_runtime) st' = [3%nat].
Proof.
  destruct (deposit_updates_one_participant (H := ascii_runtime) clock_jan 20 (js "Ana")
              None ana_ledger ana_series ana_entries ana_ledger_reachable
              ltac:(by vm_compute) ltac:(by vm_compute) eq_refl)
    as ((body & st' & Hadd & Hlist) & _).
  exists body, st'. split; [exact Hadd|]. rewrite Hlist. by vm_compute.
Defined.

(** The time of the second entry of Ana is edited; the list of entries
    shows it. *)
Lemma edit_then_list_witness :
  ∃ st' items,
    entry_put clock_jan (Some (js "Ana")) (Some (js "1"))
      (Some (js "28/01/2026 08:00:00")) None ana_ledger
    = Done (Response 200 Message) st'
    ∧ entries_get (Some (js "Ana")) st' = Done (Response 200 (EntryList items)) st'
    ∧ items !! 1%nat = Some (1%nat, js "28/01/2026 08:00:00", JNum 30).
Proof.
  assert (Hput : ∃ st',
            entry_put clock_jan (Some (js "Ana")) (Some (js "1"))
              (Some (js "28/01/2026 08:00:00")) None ana_ledger
            = Done (Response 200 Message) st').
  { eexists. by vm_compute. }
  destruct Hput as [st' Hput].
  destruct (edit_then_list_entries _ _ _ _ _ _ _ Hput)
    as (i & items & oldTime & value & Hidx & Hbefore & Hitem & Hafter).
  assert (Hone : parseInt10 (js "1") = Some 1%Z) by (by vm_compute).
  assert (Hi : i = 1%nat) by (rewrite Hone in Hidx; injection Hidx as Hidx; lia).
  subst i.
  assert (Hlist : entries_get (Some (js "Ana")) ana_ledger
                  = Done (Response 200
                            (EntryList [ (0%nat, label_jan, JNum 50);
                                         (1%nat, label_jan, JNum 30) ]))
                         ana_ledger) by (by vm_compute).
  rewrite Hlist in Hbefore. injection Hbefore as <-.
  injection Hitem as _ <-.
  eexists st', _. split; [exact Hput|]. split; [exact Hafter|]. reflexivity.
Defined.

(** [Rui] joins the roster and leaves it. *)
Lemma create_then_delete_witness :
  ∃ m st1 st2,
    team_post (H := ascii_runtime) clock_jan (Some (js "Rui")) None None fresh
    = Done (Response 200 (OneMember m)) st1
    ∧ team_delete clock_feb (Member.id m) None st1 = Done (Response 200 (OneMember m)) st2
    ∧ teamData st2 = teamData fresh.
Proof.
  assert (Hpost : ∃ st1,
            team_post (H := ascii_runtime) clock_jan (Some (js "Rui")) None None fresh
            = Done (Response 200 (OneMember (Member.mk (js "rui") (js "Rui") []))) st1).
  { eexists. by vm_compute. }
  destruct Hpost as [st1 Hpost].
  destruct (create_then_delete_member (H := ascii_runtime) clock_jan clock_feb _ None None
              None _ _ _ Hpost) as (_ & Hdelete).
  destruct (Hdelete eq_refl) as (st2 & Hdel & Hteam & _).
  by exists (Member.mk (js "rui") (js "Rui") []), st1, st2.
Defined.

(** [Ana B.] joins the roster with the id [anab.], which no route matches:
    a [DELETE /team/anab] leaves the member in. *)
Lemma unroutable_member_witness :
  ∃ st0 r st',
    team_post (H := ascii_runtime) clock_jan (Some (js "Ana B.")) None None fresh
    = Done (Response 200 (OneMember (Member.mk (js "anab.") (js "Ana B.") []))) st0
    ∧ handle (H := ascii_runtime) clock_feb (TeamDelete (js "anab") None) st0 = Done r st'
    ∧ Member.mk (js "anab.") (js "Ana B.") [] ∈ teamData st'.
Proof.
  assert (Hpost : ∃ st0,
            team_post (H := ascii_runtime) clock_jan (Some (js "Ana B.")) None None fresh
            = Done (Response 200 (OneMember (Member.mk (js "anab.") (js "Ana B.") []))) st0
            ∧ teamData st0 !! 3%nat = Some (Member.mk (js "anab.") (js "Ana B.") [])).
  { eexists. split; by vm_compute. }
  destruct Hpost as (st0 & Hpost & Hin).
  assert (Hrun : handle (H := ascii_runtime) clock_feb (TeamDelete (js "anab") None) st0
                 = Done (Response 404 Message) st0).
  { simpl. unfold team_delete.
    replace (route_id (js "anab")) with true by (by vm_compute).
    assert (Hfind : list_find (λ m, Member.id m = js "anab") (teamData st0) = None).
    { apply list_find_None. vm_compute in Hpost. injection Hpost as <-.
      repeat constructor; by vm_compute. }
    by rewrite Hfind. }
  exists st0, (Response 404 Message), st0. split; [exact Hpost|]. split; [exact Hrun|].
  apply (unroutable_member_stays (H := ascii_runtime) _ _ _ _ _ _ Hrun).
  - by eapply list_elem_of_lookup_2.
  - by vm_compute.
  - intros month admin. discriminate.
Defined.

(** The second entry of Ana is the second deposit of the ledger. *)
Lemma entries_mirror_witness :
  Chart.labels (chartData ana_ledger) !! 1%nat = Some label_jan
  ∧ JNum <$> Chart.values (chartData ana_ledger) !! 1%nat = Some (JNum 30).
Proof.
  destruct (entries_mirror_the_series (H := ascii_runtime) ana_ledger (js "Ana")
              ana_series ana_entries 1%nat (Entry.mk label_jan (JNum 30) 1)
              ana_ledger_reachable ltac:(by vm_compute) eq_refl eq_refl)
    as (_ & _ & Hlabel & Hvalue & _).
  split; [exact Hlabel | exact Hvalue].
Defined.

(** A page opens the stream, then Ana deposits 50: the stream has received
    two messages, and the last holds the deposit. *)
Lemma open_streams_witness :
  ∃ sv first second,
    serve_all (H := ascii_runtime)
      [ Events; Request clock_jan (Add 50 (Some (js "Ana")) None) ]
      (mkServer fresh [])
    = Some sv
    ∧ clients sv = [[first; second]]
    ∧ second = payload (stores sv)
    ∧ Payload.totalValues second = [JNum 50].
Proof.
  assert (Hrun : ∃ sv first second,
            serve_all (H := ascii_runtime)
              [ Events; Request clock_jan (Add 50 (Some (js "Ana")) None) ]
              (mkServer fresh [])
            = Some sv
            ∧ clients sv = [[first; second]]
            ∧ Payload.totalValues second = [JNum 50]).
  { eexists _, _, _. split; [by vm_compute|]. split; by vm_compute. }
  destruct Hrun as (sv & first & second & Hrun & Hclients & Hvalues).
  exists sv, first, second. split; [exact Hrun|]. split; [exact Hclients|].
  split; [|exact Hvalues].
  pose proof (open_streams_are_up_to_date (H := ascii_runtime) None iso_jan _ _ Hrun)
    as Hall.
  rewrite Hclients in Hall. apply Forall_inv in Hall. simpl in Hall. congruence.
Defined.

(** The page opened for Ana, on the message of the ledger of Ana, draws
    three labels and three points. *)
Lemma page_chart_witness :
  ∃ chartLabels points,
    onmessage_chart (Some (js "Ana")) (payload ana_ledger) = Some (chartLabels, points)
    ∧ length chartLabels = length points.
Proof.
  assert (Hmsg : ∃ chartLabels points,
            onmessage_chart (Some (js "Ana")) (payload ana_ledger)
            = Some (chartLabels, points)
            ∧ chartLabels ≠ []).
  { eexists _, _. split; by vm_compute. }
  destruct Hmsg as (chartLabels & points & Hmsg & Hne).
  exists chartLabels, points. split; [exact Hmsg|].
  destruct (page_chart_is_aligned (H := ascii_runtime) _ _ _ _ ana_ledger_reachable Hmsg)
    as ([Hempty | Hlen] & _); [|exact Hlen].
  by injection Hempty as -> _.
Defined.

(** Ana is renamed Anna; the next deposit for Anna raises. *)
Lemma rename_then_deposit_witness :
  ∃ b st',
    users_put (H := ascii_runtime) clock_jan (js "ana") (Some (js "Anna")) None ana_ledger
    = Done (Response 200 b) st'
    ∧ add clock_feb 20 (Some (js "Anna")) None st' = TypeError.
Proof.
  assert (Hput : ∃ b st',
            users_put (H := ascii_runtime) clock_jan (js "ana") (Some (js "Anna")) None
              ana_ledger
            = Done (Response 200 b) st').
  { eexists _, _. by vm_compute. }
  destruct Hput as (b & st' & Hput).
  exists b, st'. split; [exact Hput|].
  by apply (rename_then_deposit_raises (H := ascii_runtime) _ clock_feb _ _ _ None 20 _ _ _
              ana_ledger_reachable Hput).
Defined.

(** On the ledger where [Ester] registered, [Esther] is still the first
    account and a master, and [Ester] is not a master. *)
Lemma accounts_persist_witness :
  (∃ c', credentials with_ester !! 0%nat = Some c'
         ∧ Credential.name c' = js "Esther" ∧ Credential.isMaster c' = true)
  ∧ Credential.isMaster <$> credentials with_ester !! 1%nat = Some false.
Proof.
  destruct (accounts_persist (H := ascii_runtime) fresh with_ester
              with_ester_reachable_from_fresh) as [Hold Hnew].
  split.
  - destruct (Hold 0%nat (Credential.mk (js "Esther") (js "1705") true) eq_refl)
      as (c' & Hc' & Hname & Hmaster & _).
    by exists c'.
  - destruct (credentials with_ester !! 1%nat) as [c'|] eqn:Hc'; [|by vm_compute in Hc'].
    simpl. f_equal. apply (Hnew 1%nat c' Hc'). by vm_compute.
Defined.

(** After [Rui] has been renamed [Ruy], the entry of the log for the
    creation holds [Ruy], the member of the roster. *)
Lemma shared_entry_witness :
  Log.mk (logStamp clock_jan) (js "unknown") (js "teamCreate")
         (Log.TeamCreate (Member.mk (js "rui") (js "Ruy") []) true)
  ∈ logs rui_renamed
  ∧ Member.mk (js "rui") (js "Ruy") [] ∈ teamData rui_renamed.
Proof.
  assert (Hreach : reachable (H := ascii_runtime) rui_renamed).
  { exists None, iso_jan. split; [by vm_compute|].
    eapply (run_reachable (H := ascii_runtime) fresh
              [ (clock_jan, TeamPost (Some (js "Rui")) None None);
                (clock_feb, TeamPut (js "rui") (Some (js "Ruy")) None None) ]);
      [apply reachable_here | repeat constructor; by vm_compute | by vm_compute]. }
  assert (Hlog : Log.mk (logStamp clock_jan) (js "unknown") (js "teamCreate")
                        (Log.TeamCreate (Member.mk (js "rui") (js "Ruy") []) true)
                 ∈ logs rui_renamed).
  { apply list_elem_of_lookup. exists 0%nat. by vm_compute. }
  split; [exact Hlog|].
  by destruct (shared_entry_shows_roster_member (H := ascii_runtime) _ _ _ Hreach Hlog
                 eq_refl) as [Hin _].
Defined.
